(** * Landlab tutorial notebooks: structure and the arithmetic they perform

    The repository consists of Jupyter notebooks that drive the Landlab
    library.  The notebooks are embedded here as data: every code cell is
    transcribed statement by statement into a small abstract syntax of
    Python (the constructors follow Python's [ast] module), markdown
    cells are kept as their heading.  The structural properties of the
    notebooks are decided by executable analyses over that syntax, what
    a failing library call does to a cell by an execution model of the
    statements; the array arithmetic that some cells perform themselves
    (the bedrock reset, the node mask, the cumulative throw) is embedded
    as functions on lists. *)

From Stdlib Require Import List String Bool Arith ZArith QArith Lia.
Import ListNotations.
Close Scope Q_scope.
Open Scope string_scope.
Open Scope list_scope.

Set Warnings "-register-all,-notation-for-abbreviation".

(** ** Python syntax *)

Inductive operator := Add | Sub | Mult | Div.

Inductive cmpop := Lt | Gt | Eq.

Inductive expr :=
| EName (id : string)
| ENum (n : Q)
| EStr (s : string)
| EBool (b : bool)
| EAttr (value : expr) (attr : string)
| ESubscript (value : expr) (index : list expr)
| ESlice (lower upper : option expr)
| ECall (func : expr) (args : list expr) (keywords : list (string * expr))
| EBinOp (left : expr) (op : operator) (right : expr)
| ECompare (left : expr) (op : cmpop) (right : expr)
| EUSub (operand : expr)
| ETuple (elts : list expr)
| EList (elts : list expr)
| EDict (items : list (expr * expr)).

Arguments ENum n%_Q.

(** Statements.  [Magic] is an IPython line such as [%matplotlib inline].
    The compound statements that no notebook uses are part of the syntax
    so that their absence is a property and not an artefact of the
    embedding. *)
Inductive stmt :=
| Import (module : string) (asname : option string)
| ImportFrom (module : string) (names : list string)
| Magic (line : string)
| Expr (value : expr)
| Assign (target : expr) (value : expr)
| AugAssign (target : expr) (op : operator) (value : expr)
| For (target : expr) (iter : expr) (body : list stmt)
| While (test : expr) (body : list stmt)
| If (test : expr) (body orelse : list stmt)
| Try (body : list stmt) (handlers : list (list stmt)) (finalbody : list stmt)
| With (item : expr) (body : list stmt)
| FunctionDef (name : string) (params : list string) (body : list stmt)
| ClassDef (name : string) (body : list stmt).

Inductive cell :=
| Markdown (heading : option string)
| Code (source : list stmt).

Record notebook := {
  path : string;
  nbformat : nat;
  kernel_language : string;
  cells : list cell
}.

Notation "$ x" := (EName x) (at level 1, x at level 0, format "$ x").
Notation call f args := (ECall f args []).
Notation method obj m args := (ECall (EAttr obj m) args []).
Notation np f args := (ECall (EAttr (EName "np") f) args []).
Notation plt f args := (ECall (EAttr (EName "plt") f) args []).

(** ** The notebooks *)

(** [notebooks/tutorials/network_sediment_transporter/
    network_sediment_transporter_shapefile_network.ipynb], first document. *)
Definition network_sediment_transporter_shapefile_network : notebook := {|
  path := "notebooks/tutorials/network_sediment_transporter/network_sediment_transporter_shapefile_network.ipynb";
  nbformat := 4;
  kernel_language := "python";
  cells := [
    Markdown None;
    Markdown (Some "Using the Landlab NetworkSedimentTransporter component starting with a shapefile river network");
    Markdown None;
    Code [
      Import "warnings" None;
      Expr (method $"warnings" "filterwarnings" [EStr "ignore"]);
      Import "os" None;
      Import "pathlib" None;
      Import "matplotlib.pyplot" (Some "plt");
      Import "numpy" (Some "np");
      Import "xarray" (Some "xr");
      ImportFrom "landlab.components" ["FlowDirectorSteepest"; "NetworkSedimentTransporter"];
      ImportFrom "landlab.data_record" ["DataRecord"];
      ImportFrom "landlab.grid.network" ["NetworkModelGrid"];
      ImportFrom "landlab.plot" ["graph"];
      ImportFrom "landlab.io" ["read_shapefile"];
      ImportFrom "landlab" ["ExampleData"];
      ImportFrom "landlab.plot" ["plot_network_and_parcels"];
      Magic "%matplotlib inline" ];
    Markdown (Some "1. Load a shapefile that represents the river network");
    Code [
      Assign $"datadir"
        (EAttr (ECall $"ExampleData" [EStr "io/shapefile"] [("case", EStr "methow")]) "base");
      Assign $"shp_file" (EBinOp $"datadir" Div (EStr "MethowSubBasin.shp"));
      Assign $"points_shapefile" (EBinOp $"datadir" Div (EStr "MethowSubBasin_Nodes_4.shp"));
      Assign $"grid"
        (ECall $"read_shapefile" [$"shp_file"]
           [("points_shapefile", $"points_shapefile");
            ("node_fields", EList [EStr "usarea_km2"; EStr "Elev_m"]);
            ("link_fields", EList [EStr "usarea_km2"; EStr "Length_m"]);
            ("link_field_conversion",
             EDict [(EStr "usarea_km2", EStr "drainage_area");
                    (EStr "Slope", EStr "channel_slope");
                    (EStr "Length_m", EStr "reach_length")]);
            ("node_field_conversion",
             EDict [(EStr "usarea_km2", EStr "drainage_area");
                    (EStr "Elev_m", EStr "topographic__elevation")]);
            ("threshold", ENum 0.01)]) ];
    Markdown None;
    Code [ Expr (method (EAttr $"grid" "at_link") "keys" []) ];
    Code [ Expr (method (EAttr $"grid" "at_node") "keys" []) ];
    Markdown None;
    Code [ Expr (ECall (EAttr $"graph" "plot_graph") [$"grid"] [("at", EStr "node,link")]) ];
    Code [ Expr (EAttr $"grid" "number_of_links") ];
    Code [ Expr (EAttr $"grid" "number_of_nodes") ];
    Markdown None;
    Code [
      Assign (ESubscript (EAttr $"grid" "at_node") [EStr "bedrock__elevation"])
        (method (ESubscript (EAttr $"grid" "at_node") [EStr "topographic__elevation"]) "copy" []);
      Assign (ESubscript (EAttr $"grid" "at_link") [EStr "channel_width"])
        (EBinOp (ENum 1) Mult (np "ones" [EAttr $"grid" "number_of_links"]));
      Assign (ESubscript (EAttr $"grid" "at_link") [EStr "flow_depth"])
        (EBinOp (ENum 0.5) Mult (np "ones" [EAttr $"grid" "number_of_links"])) ];
    Markdown None;
    Markdown (Some "2. Create sediment 'parcels' in a DataRecord");
    Code [
      Assign $"element_id"
        (np "repeat" [np "arange" [EAttr $"grid" "number_of_links"]; ENum 50]);
      Assign $"element_id"
        (ECall (EAttr $"np" "expand_dims") [$"element_id"] [("axis", ENum 1)]);
      Assign $"volume" (EBinOp (ENum 1) Mult (np "ones" [np "shape" [$"element_id"]]));
      Assign $"active_layer" (np "ones" [np "shape" [$"element_id"]]);
      Assign $"density" (EBinOp (ENum 2650) Mult (np "ones" [np "size" [$"element_id"]]));
      Assign $"abrasion_rate" (EBinOp (ENum 0) Mult (np "ones" [np "size" [$"element_id"]]));
      Assign $"medianD" (ENum 0.15);
      Assign $"mu" (np "log" [$"medianD"]);
      Assign $"sigma" (np "log" [ENum 2]);
      Expr (method (EAttr $"np" "random") "seed" [ENum 0]);
      Assign $"D"
        (method (EAttr $"np" "random") "lognormal"
           [$"mu"; $"sigma"; np "shape" [$"element_id"]]) ];
    Markdown None;
    Code [
      Assign $"time_arrival_in_link"
        (method (EAttr $"np" "random") "rand" [np "size" [$"element_id"]; ENum 1]);
      Assign $"location_in_link"
        (method (EAttr $"np" "random") "rand" [np "size" [$"element_id"]; ENum 1]) ];
    Markdown None;
    Code [
      Assign $"lithology" (EBinOp (EList [EStr "quartzite"]) Mult (np "size" [$"element_id"])) ];
    Markdown None;
    Code [
      Assign $"variables"
        (EDict [
           (EStr "abrasion_rate", ETuple [EList [EStr "item_id"]; $"abrasion_rate"]);
           (EStr "density", ETuple [EList [EStr "item_id"]; $"density"]);
           (EStr "lithology", ETuple [EList [EStr "item_id"]; $"lithology"]);
           (EStr "time_arrival_in_link",
            ETuple [EList [EStr "item_id"; EStr "time"]; $"time_arrival_in_link"]);
           (EStr "active_layer", ETuple [EList [EStr "item_id"; EStr "time"]; $"active_layer"]);
           (EStr "location_in_link",
            ETuple [EList [EStr "item_id"; EStr "time"]; $"location_in_link"]);
           (EStr "D", ETuple [EList [EStr "item_id"; EStr "time"]; $"D"]);
           (EStr "volume", ETuple [EList [EStr "item_id"; EStr "time"]; $"volume"]) ]) ];
    Markdown None;
    Code [
      Assign $"items"
        (EDict [(EStr "grid_element", EStr "link"); (EStr "element_id", $"element_id")]);
      Assign $"parcels"
        (ECall $"DataRecord" [$"grid"]
           [("items", $"items");
            ("time", EList [ENum 0.0]);
            ("data_vars", $"variables");
            ("dummy_elements",
             EDict [(EStr "link",
                     EList [EAttr $"NetworkSedimentTransporter" "OUT_OF_NETWORK"])])]) ];
    Markdown (Some "3. Run the NetworkSedimentTransporter");
    Code [
      Assign $"timesteps" (ENum 10);
      Assign $"dt" (EBinOp (EBinOp (EBinOp (ENum 60) Mult (ENum 60)) Mult (ENum 24)) Mult (ENum 2)) ];
    Markdown None;
    Code [
      Assign $"fd" (call $"FlowDirectorSteepest" [$"grid"; EStr "topographic__elevation"]);
      Expr (method $"fd" "run_one_step" []) ];
    Markdown None;
    Code [
      Assign $"nst"
        (ECall $"NetworkSedimentTransporter" [$"grid"; $"parcels"; $"fd"]
           [("bed_porosity", ENum 0.3);
            ("g", ENum 9.81);
            ("fluid_density", ENum 1000);
            ("transport_method", EStr "WilcockCrowe")]) ];
    Markdown None;
    Code [
      For $"t" (call $"range" [ENum 0; EBinOp $"timesteps" Mult $"dt"; $"dt"]) [
        Expr (method $"nst" "run_one_step" [$"dt"]);
        Expr (call $"print"
                [EStr "Model time: ";
                 EBinOp $"t" Div (EBinOp (EBinOp (ENum 60) Mult (ENum 60)) Mult (ENum 24));
                 EStr "days passed"]) ] ];
    Markdown (Some "4. Plot the model results");
    Markdown None;
    Code [
      Assign $"timestep_of_interest" (ENum 6);
      Assign $"originating_link" (ENum 27);
      Assign $"parcelfilter"
        (ECall (EAttr $"np" "zeros_like") [EAttr (EAttr $"parcels" "dataset") "element_id"]
           [("dtype", $"bool")]);
      Assign (ESubscript $"parcelfilter" [ESlice None None; $"timestep_of_interest"])
        (ECompare
           (ESubscript (EAttr (EAttr $"parcels" "dataset") "element_id")
              [ESlice None None; ENum 0])
           Eq $"originating_link");
      Assign $"vol_orig_link"
        (ECall (EAttr $"parcels" "calc_aggregate_value")
           [EAttr (EAttr $"xr" "Dataset") "sum"; EStr "volume"]
           [("at", EStr "link"); ("filter_array", $"parcelfilter"); ("fill_value", ENum 0.0)]);
      Assign $"fig"
        (ECall $"plot_network_and_parcels" [$"grid"; $"parcels"]
           [("link_attribute", $"vol_orig_link");
            ("link_attribute_title", EStr "Vol of sed originating on link x");
            ("network_linewidth", ENum 5);
            ("parcel_alpha", ENum 0)]) ];
    Markdown (Some "Non-network plotting");
    Code [
      Assign $"parcel_vol_on_grid"
        (EAttr (ESubscript (EAttr $"parcels" "dataset") [EStr "volume"]) "values");
      Assign
        (ESubscript $"parcel_vol_on_grid"
           [ECompare
              (EAttr (ESubscript (EAttr $"parcels" "dataset") [EStr "element_id"]) "values")
              Eq (EUSub (ENum 2))])
        (ENum 0);
      Expr (ECall (EAttr $"plt" "plot")
              [EBinOp (np "asarray" [EAttr $"parcels" "time_coordinates"]) Div
                 (EBinOp (EBinOp (ENum 60) Mult (ENum 60)) Mult (ENum 24));
               ECall (EAttr $"np" "sum") [$"parcel_vol_on_grid"] [("axis", ENum 0)];
               EStr "-"]
              [("linewidth", ENum 3); ("alpha", ENum 0.5)]);
      Expr (plt "ylabel" [EStr "Total volume of parcels on grid $[m^3]$"]);
      Expr (plt "xlabel" [EStr "Time [days]"]);
      Expr (plt "show" []) ];
    Markdown None;
    Code [
      Expr (plt "loglog"
              [ESubscript (EAttr (EAttr $"parcels" "dataset") "D")
                 [ESlice None None; EUSub (ENum 1)];
               EAttr $"nst" "_distance_traveled_cumulative";
               EStr "."]);
      Expr (plt "xlabel" [EStr "Parcel grain size (m)"]);
      Expr (plt "ylabel" [EStr "Cumulative parcel travel distance (m)"]) ];
    Markdown None;
    Code [
      Expr (plt "plot"
              [ESubscript (EAttr $"grid" "at_link") [EStr "channel_slope"];
               EAttr $"nst" "d_mean_active";
               EStr "."]);
      Expr (plt "xlabel" [EStr "Channel slope (m/m)"]);
      Expr (plt "ylabel" [EStr "Mean grain size of active layer (m)"]) ]
  ]
|}.

(** Second document of the same file: "Setting Boundary Conditions:
    interior rectangle". *)
Definition set_BCs_interior_rectangle : notebook := {|
  path := "notebooks/tutorials/network_sediment_transporter/network_sediment_transporter_shapefile_network.ipynb";
  nbformat := 4;
  kernel_language := "python";
  cells := [
    Markdown None;
    Markdown (Some "Setting Boundary Conditions: interior rectangle");
    Code [
      ImportFrom "landlab" ["RasterModelGrid"];
      Import "numpy" (Some "np");
      ImportFrom "landlab.plot.imshow" ["imshow_grid_at_node"];
      ImportFrom "matplotlib.pyplot" ["show"];
      Magic "%matplotlib inline" ];
    Code [ Assign $"mg" (call $"RasterModelGrid" [ETuple [ENum 10; ENum 10]]) ];
    Markdown None;
    Code [
      Assign $"min_x" (ENum 2.5);
      Assign $"max_x" (ENum 5.0);
      Assign $"min_y" (ENum 3.5);
      Assign $"max_y" (ENum 7.5) ];
    Markdown None;
    Code [
      Assign $"x_condition"
        (np "logical_and"
           [ECompare (EAttr $"mg" "x_of_node") Lt $"max_x";
            ECompare (EAttr $"mg" "x_of_node") Gt $"min_x"]);
      Assign $"y_condition"
        (np "logical_and"
           [ECompare (EAttr $"mg" "y_of_node") Lt $"max_y";
            ECompare (EAttr $"mg" "y_of_node") Gt $"min_y"]);
      Assign $"my_nodes" (np "logical_and" [$"x_condition"; $"y_condition"]) ];
    Markdown None;
    Code [
      Assign (ESubscript (EAttr $"mg" "status_at_node") [$"my_nodes"])
        (EAttr $"mg" "BC_NODE_IS_CLOSED") ];
    Markdown None;
    Code [
      Assign $"z"
        (ECall (EAttr $"mg" "add_zeros") [EStr "topographic__elevation"] [("at", EStr "node")]) ];
    Code [ Expr (call $"imshow_grid_at_node" [$"mg"; $"z"]) ];
    Markdown (Some "Click here for more Landlab tutorials")
  ]
|}.

(** [notebooks/tutorials/flexure/flexure_1d.ipynb]. *)
Definition flexure_1d : notebook := {|
  path := "notebooks/tutorials/flexure/flexure_1d.ipynb";
  nbformat := 4;
  kernel_language := "python";
  cells := [
    Markdown None;
    Markdown (Some "Using the Landlab 1D flexure component");
    Markdown None;
    Code [
      Import "numpy" (Some "np");
      Import "matplotlib.pyplot" (Some "plt") ];
    Markdown (Some "Create the grid");
    Code [ ImportFrom "landlab" ["RasterModelGrid"] ];
    Markdown None;
    Code [
      Assign $"grid"
        (ECall $"RasterModelGrid" [ETuple [ENum 3; ENum 800]]
           [("xy_spacing", ETuple [ENum 100e3; ENum 10e3])]) ];
    Code [ Expr (ETuple [EAttr $"grid" "dy"; EAttr $"grid" "dx"]) ];
    Markdown (Some "Create the component");
    Markdown None;
    Code [ ImportFrom "landlab.components" ["Flexure1D"] ];
    Markdown None;
    Code [ Expr (EAttr $"Flexure1D" "input_var_names") ];
    Markdown None;
    Code [
      Expr (method $"Flexure1D" "var_units"
              [EStr "lithosphere__increment_of_overlying_pressure"]) ];
    Markdown None;
    Code [
      Expr (method $"Flexure1D" "var_help"
              [EStr "lithosphere__increment_of_overlying_pressure"]) ];
    Markdown None;
    Code [ Expr (EAttr $"Flexure1D" "output_var_names") ];
    Code [
      Expr (method $"Flexure1D" "var_help"
              [EStr "lithosphere_surface__increment_of_elevation"]) ];
    Markdown None;
    Code [
      Expr (ECall (EAttr $"grid" "add_zeros")
              [EStr "lithosphere__increment_of_overlying_pressure"] [("at", EStr "node")]);
      Assign $"flex" (ECall $"Flexure1D" [$"grid"] [("method", EStr "flexure")]) ];
    Markdown (Some "Add a point load");
    Markdown None;
    Code [
      Assign (ESubscript (EAttr $"flex" "load_at_node") [ENum 1; ENum 200]) (ENum 1e6);
      Expr (method $"flex" "update" []);
      Expr (plt "plot"
              [EBinOp
                 (ESubscript (EAttr $"flex" "x_at_node")
                    [ENum 1; ESlice None (Some (ENum 400))])
                 Div (ENum 1000.0);
               ESubscript (EAttr $"flex" "dz_at_node")
                 [ENum 1; ESlice None (Some (ENum 400))]]) ];
    Markdown None;
    Code [ Assign (ESubscript (EAttr $"flex" "dz_at_node") [ESlice None None]) (ENum 0.0) ];
    Markdown None;
    Code [
      AugAssign (EAttr $"flex" "eet") Mult (ENum 2.0);
      Expr (method $"flex" "update" []);
      Expr (plt "plot"
              [EBinOp
                 (ESubscript (EAttr $"flex" "x_at_node")
                    [ENum 1; ESlice None (Some (ENum 400))])
                 Div (ENum 1000.0);
               ESubscript (EAttr $"flex" "dz_at_node")
                 [ENum 1; ESlice None (Some (ENum 400))]]) ];
    Markdown (Some "Add some loading");
    Code [
      Assign (ESubscript (EAttr $"flex" "load_at_node")
                [ENum 1; ESlice None (Some (ENum 100))])
        (ENum 0.0);
      Assign (ESubscript (EAttr $"flex" "load_at_node")
                [ENum 1; ESlice (Some (ENum 100)) (Some (ENum 300))])
        (EBinOp (EBinOp (np "arange" [ENum 200]) Mult (ENum 1e6)) Div (ENum 200.0));
      Assign (ESubscript (EAttr $"flex" "load_at_node")
                [ENum 1; ESlice (Some (ENum 300)) None])
        (ENum 1e6) ];
    Code [
      Expr (plt "plot"
              [ESubscript (EAttr $"flex" "load_at_node")
                 [ENum 1; ESlice None (Some (ENum 400))]]) ];
    Markdown (Some "Update the component to solve for deflection");
    Code [
      Assign (ESubscript (EAttr $"flex" "dz_at_node") [ESlice None None]) (ENum 0.0);
      Expr (method $"flex" "update" []) ];
    Code [
      Expr (plt "plot"
              [EBinOp
                 (ESubscript (EAttr $"flex" "x_at_node")
                    [ENum 1; ESlice None (Some (ENum 400))])
                 Div (ENum 1000.0);
               ESubscript (EAttr $"flex" "dz_at_node")
                 [ENum 1; ESlice None (Some (ENum 400))]]) ];
    Markdown None;
    Markdown (Some "Click here for more Landlab tutorials")
  ]
|}.

(** [unnamed/part_000]: "Introduction to the NormalFault component". *)
Definition normal_fault : notebook := {|
  path := "unnamed/part_000";
  nbformat := 4;
  kernel_language := "python";
  cells := [
    Markdown None;
    Markdown (Some "Introduction to the NormalFault component");
    Code [
      Import "matplotlib.pyplot" (Some "plt");
      Import "numpy" (Some "np");
      ImportFrom "landlab" ["HexModelGrid"; "RasterModelGrid"];
      ImportFrom "landlab.components"
        ["FastscapeEroder"; "FlowAccumulator"; "NormalFault"; "StreamPowerEroder"];
      ImportFrom "landlab.plot" ["imshow_grid"];
      Magic "%matplotlib inline" ];
    Markdown None;
    Code [
      Assign $"grid"
        (ECall $"RasterModelGrid" [ETuple [ENum 6; ENum 6]] [("xy_spacing", ENum 10)]);
      Expr (ECall (EAttr $"grid" "add_zeros") [EStr "topographic__elevation"]
              [("at", EStr "node")]);
      Assign $"nf" (call $"NormalFault" [$"grid"]);
      Expr (plt "figure" []);
      Expr (ECall $"imshow_grid"
              [$"grid"; method (EAttr $"nf" "faulted_nodes") "astype" [$"int"]]
              [("cmap", EStr "viridis")]);
      Expr (plt "plot" [EAttr $"grid" "x_of_node"; EAttr $"grid" "y_of_node"; EStr "c."]);
      Expr (plt "show" []) ];
    Markdown None;
    Code [
      Assign $"nf" (ECall $"NormalFault" [$"grid"] [("include_boundaries", EBool true)]);
      Expr (plt "figure" []);
      Expr (ECall $"imshow_grid"
              [$"grid"; method (EAttr $"nf" "faulted_nodes") "astype" [$"int"]]
              [("cmap", EStr "viridis")]);
      Expr (plt "plot" [EAttr $"grid" "x_of_node"; EAttr $"grid" "y_of_node"; EStr "c."]);
      Expr (plt "show" []) ];
    Markdown None;
    Code [
      Assign $"grid"
        (ECall $"RasterModelGrid" [ETuple [ENum 60; ENum 100]] [("xy_spacing", ENum 10)]);
      Assign $"z"
        (ECall (EAttr $"grid" "add_zeros") [EStr "topographic__elevation"]
           [("at", EStr "node")]);
      Assign $"nf"
        (ECall $"NormalFault" [$"grid"]
           [("fault_trace",
             EDict [(EStr "x1", ENum 0); (EStr "y1", ENum 200);
                    (EStr "y2", ENum 30); (EStr "x2", ENum 600)])]);
      Expr (ECall $"imshow_grid"
              [$"grid"; method (EAttr $"nf" "faulted_nodes") "astype" [$"int"]]
              [("cmap", EStr "viridis")]) ];
    Markdown None;
    Code [
      Assign $"grid"
        (ECall $"RasterModelGrid" [ETuple [ENum 60; ENum 100]] [("xy_spacing", ENum 10)]);
      Assign $"z"
        (ECall (EAttr $"grid" "add_zeros") [EStr "topographic__elevation"]
           [("at", EStr "node")]);
      Assign $"nf"
        (ECall $"NormalFault" [$"grid"]
           [("fault_trace",
             EDict [(EStr "y1", ENum 30); (EStr "x1", ENum 600);
                    (EStr "x2", ENum 0); (EStr "y2", ENum 200)])]);
      Expr (ECall $"imshow_grid"
              [$"grid"; method (EAttr $"nf" "faulted_nodes") "astype" [$"int"]]
              [("cmap", EStr "viridis")]) ];
    Markdown None;
    Code [
      Assign $"K" (ENum 0.0005);
      Assign $"U" (ENum 0.0001);
      Assign $"dt" (ENum 1000);
      Assign $"dx" (ENum 10);
      Assign $"nr" (ENum 60);
      Assign $"nc" (ENum 100) ];
    Code [
      Assign $"grid"
        (ECall $"HexModelGrid" [ETuple [$"nr"; $"nc"]; $"dx"] [("node_layout", EStr "rect")]);
      Assign $"z"
        (ECall (EAttr $"grid" "add_zeros") [EStr "topographic__elevation"]
           [("at", EStr "node")]);
      AugAssign (ESubscript $"z" [EAttr $"grid" "core_nodes"]) Add
        (EBinOp (ENum 100.0) Add
           (method (EAttr $"np" "random") "randn" [EAttr (EAttr $"grid" "core_nodes") "size"]));
      Assign $"fr" (call $"FlowAccumulator" [$"grid"]);
      Assign $"fs" (ECall $"FastscapeEroder" [$"grid"] [("K_sp", $"K")]);
      Assign $"nf"
        (ECall $"NormalFault" [$"grid"]
           [("fault_trace",
             EDict [(EStr "x1", ENum 0); (EStr "x2", ENum 800);
                    (EStr "y1", ENum 0); (EStr "y2", ENum 500)])]);
      For $"i" (call $"range" [ENum 300]) [
        Expr (method $"nf" "run_one_step" [$"dt"]);
        Expr (method $"fr" "run_one_step" []);
        Expr (method $"fs" "run_one_step" [$"dt"]);
        AugAssign (ESubscript $"z" [EAttr $"grid" "core_nodes"]) Add
          (EBinOp (ENum 0.0001) Mult $"dt") ];
      Expr (call $"imshow_grid" [$"grid"; $"z"]) ];
    Markdown None;
    Code [
      Assign $"grid"
        (ECall $"HexModelGrid" [ETuple [$"nr"; $"nc"]; ENum 10] [("node_layout", EStr "rect")]);
      Assign $"z"
        (ECall (EAttr $"grid" "add_zeros") [EStr "topographic__elevation"]
           [("at", EStr "node")]);
      AugAssign (ESubscript $"z" [EAttr $"grid" "core_nodes"]) Add
        (EBinOp (ENum 100.0) Add
           (method (EAttr $"np" "random") "randn" [EAttr (EAttr $"grid" "core_nodes") "size"]));
      Assign $"fr" (call $"FlowAccumulator" [$"grid"]);
      Assign $"fs" (ECall $"FastscapeEroder" [$"grid"] [("K_sp", $"K")]);
      Assign $"nf"
        (ECall $"NormalFault" [$"grid"]
           [("fault_trace",
             EDict [(EStr "x1", ENum 0); (EStr "x2", ENum 800);
                    (EStr "y1", ENum 0); (EStr "y2", ENum 500)]);
            ("include_boundaries", EBool true)]);
      For $"i" (call $"range" [ENum 300]) [
        Expr (method $"nf" "run_one_step" [$"dt"]);
        Expr (method $"fr" "run_one_step" []);
        Expr (method $"fs" "run_one_step" [$"dt"]);
        AugAssign (ESubscript $"z" [EAttr $"grid" "core_nodes"]) Add
          (EBinOp $"U" Mult $"dt") ];
      Expr (call $"imshow_grid" [$"grid"; $"z"]) ];
    Markdown None;
    Code [
      Assign $"time"
        (EBinOp
           (EBinOp
              (np "array"
                 [EList [ENum 0.0; ENum 7.99; ENum 8.00; ENum 8.99; ENum 9.0; ENum 17.99;
                         ENum 18.0; ENum 18.99; ENum 19.0; ENum 27.99; ENum 28.00;
                         ENum 28.99; ENum 29.0]])
              Mult (ENum 10))
           Mult $"dt");
      Assign $"rate"
        (np "array"
           [EList [ENum 0; ENum 0; ENum 0.01; ENum 0.01; ENum 0; ENum 0; ENum 0.01;
                   ENum 0.01; ENum 0; ENum 0; ENum 0.01; ENum 0.01; ENum 0]]);
      Expr (plt "figure" []);
      Expr (plt "plot" [$"time"; $"rate"]);
      Expr (plt "plot"
              [EList [ENum 0; EBinOp (ENum 300) Mult $"dt"]; EList [ENum 0.001; ENum 0.001]]);
      Expr (plt "xlabel" [EStr "Time [years]"]);
      Expr (plt "ylabel" [EStr "Fault Throw Rate [m/yr]"]);
      Expr (plt "show" []) ];
    Markdown None;
    Code [
      Assign $"t" (np "arange" [ENum 0; EBinOp (ENum 300) Mult $"dt"; $"dt"]);
      Assign $"rate_constant"
        (np "interp"
           [$"t"; EList [ENum 0; EBinOp (ENum 300) Mult $"dt"];
            EList [ENum 0.001; ENum 0.001]]);
      Assign $"rate_variable" (np "interp" [$"t"; $"time"; $"rate"]);
      Assign $"cumulative_rock_uplift_constant"
        (EBinOp (np "cumsum" [$"rate_constant"]) Mult $"dt");
      Assign $"cumulative_rock_uplift_variable"
        (EBinOp (np "cumsum" [$"rate_variable"]) Mult $"dt");
      Expr (plt "figure" []);
      Expr (plt "plot" [$"t"; $"cumulative_rock_uplift_constant"]);
      Expr (plt "plot" [$"t"; $"cumulative_rock_uplift_variable"]);
      Expr (plt "xlabel" [EStr "Time [years]"]);
      Expr (plt "ylabel" [EStr "Cumulative Fault Throw [m]"]);
      Expr (plt "show" []) ];
    Markdown None;
    Code [
      Assign $"grid"
        (ECall $"HexModelGrid" [ETuple [$"nr"; $"nc"]; ENum 10] [("node_layout", EStr "rect")]);
      Assign $"z"
        (ECall (EAttr $"grid" "add_zeros") [EStr "topographic__elevation"]
           [("at", EStr "node")]);
      AugAssign (ESubscript $"z" [EAttr $"grid" "core_nodes"]) Add
        (EBinOp (ENum 100.0) Add
           (method (EAttr $"np" "random") "randn" [EAttr (EAttr $"grid" "core_nodes") "size"]));
      Assign $"fr" (call $"FlowAccumulator" [$"grid"]);
      Assign $"fs" (ECall $"FastscapeEroder" [$"grid"] [("K_sp", $"K")]);
      Assign $"nf"
        (ECall $"NormalFault" [$"grid"]
           [("fault_throw_rate_through_time",
             EDict [(EStr "time", $"time"); (EStr "rate", $"rate")]);
            ("fault_trace",
             EDict [(EStr "x1", ENum 0); (EStr "x2", ENum 800);
                    (EStr "y1", ENum 0); (EStr "y2", ENum 500)]);
            ("include_boundaries", EBool true)]);
      For $"i" (call $"range" [ENum 300]) [
        Expr (method $"nf" "run_one_step" [$"dt"]);
        Expr (method $"fr" "run_one_step" []);
        Expr (method $"fs" "run_one_step" [$"dt"]);
        AugAssign (ESubscript $"z" [EAttr $"grid" "core_nodes"]) Add
          (EBinOp $"U" Mult $"dt") ];
      Expr (call $"imshow_grid" [$"grid"; $"z"]) ];
    Markdown None;
    Code [
      ImportFrom "landlab.components" ["DepthDependentDiffuser"; "ExponentialWeatherer"];
      Assign $"K" (ENum 0.0005);
      Assign $"U" (ENum 0.0001);
      Assign $"max_soil_production_rate" (ENum 0.001);
      Assign $"soil_production_decay_depth" (ENum 0.7);
      Assign $"linear_diffusivity" (ENum 0.01);
      Assign $"soil_transport_decay_depth" (ENum 0.5);
      Assign $"dt" (ENum 100);
      Assign $"dx" (ENum 10);
      Assign $"nr" (ENum 60);
      Assign $"nc" (ENum 100) ];
    Code [ Magic "?ExponentialWeatherer" ];
    Markdown None;
    Code [
      Assign $"grid"
        (ECall $"HexModelGrid" [ETuple [$"nr"; $"nc"]; ENum 10] [("node_layout", EStr "rect")]);
      Assign $"z"
        (ECall (EAttr $"grid" "add_zeros") [EStr "topographic__elevation"]
           [("at", EStr "node")]);
      AugAssign (ESubscript $"z" [EAttr $"grid" "core_nodes"]) Add
        (EBinOp (ENum 100.0) Add
           (method (EAttr $"np" "random") "randn" [EAttr (EAttr $"grid" "core_nodes") "size"]));
      Assign $"d"
        (ECall (EAttr $"grid" "add_zeros") [EStr "soil__depth"] [("at", EStr "node")]);
      Assign $"b"
        (ECall (EAttr $"grid" "add_zeros") [EStr "bedrock__elevation"] [("at", EStr "node")]);
      Assign (ESubscript $"b" [ESlice None None]) (EBinOp $"z" Sub $"d");
      Assign $"fr"
        (ECall $"FlowAccumulator" [$"grid"]
           [("depression_finder", EStr "DepressionFinderAndRouter"); ("routing", EStr "D4")]);
      Assign $"fs" (ECall $"FastscapeEroder" [$"grid"] [("K_sp", $"K")]);
      Assign $"ew"
        (ECall $"ExponentialWeatherer" [$"grid"]
           [("soil_production__decay_depth", $"soil_production_decay_depth");
            ("soil_production__maximum_rate", $"max_soil_production_rate")]);
      Assign $"dd"
        (ECall $"DepthDependentDiffuser" [$"grid"]
           [("linear_diffusivity", $"linear_diffusivity");
            ("soil_transport_decay_depth", $"soil_transport_decay_depth")]);
      Assign $"nf"
        (ECall $"NormalFault" [$"grid"]
           [("fault_throw_rate_through_time",
             EDict [(EStr "time", EList [ENum 0; ENum 30]);
                    (EStr "rate", EList [ENum 0.001; ENum 0.001])]);
            ("fault_trace",
             EDict [(EStr "x1", ENum 0); (EStr "x2", ENum 800);
                    (EStr "y1", ENum 0); (EStr "y2", ENum 500)]);
            ("include_boundaries", EBool false)]);
      For $"i" (call $"range" [ENum 300]) [
        Expr (method $"nf" "run_one_step" [$"dt"]);
        Expr (method $"fr" "run_one_step" []);
        Expr (method $"fs" "run_one_step" [$"dt"]);
        Assign $"b" (ESubscript (EAttr $"grid" "at_node") [EStr "bedrock__elevation"]);
        Assign (ESubscript $"b" [ESlice None None])
          (np "minimum"
             [$"b"; ESubscript (EAttr $"grid" "at_node") [EStr "topographic__elevation"]]);
        Expr (method $"ew" "calc_soil_prod_rate" []);
        Expr (method $"dd" "run_one_step" [$"dt"]);
        AugAssign (ESubscript $"z" [EAttr $"grid" "core_nodes"]) Add
          (EBinOp $"U" Mult $"dt");
        AugAssign (ESubscript $"b" [EAttr $"grid" "core_nodes"]) Add
          (EBinOp $"U" Mult $"dt") ];
      Expr (call $"imshow_grid" [$"grid"; EStr "topographic__elevation"]) ];
    Markdown None;
    Code [
      Expr (ECall $"imshow_grid" [$"grid"; EStr "soil__depth"] [("cmap", EStr "viridis")]) ];
    Markdown None;
    Code [
      Expr (ECall $"imshow_grid" [$"grid"; EStr "soil_production__rate"]
              [("cmap", EStr "viridis")]) ];
    Code []
  ]
|}.

(** The repository: the notebook documents found in its three source
    files, in file order. *)
Definition repository : list notebook :=
  [ network_sediment_transporter_shapefile_network;
    set_BCs_interior_rectangle;
    flexure_1d;
    normal_fault ].

(** ** Traversals *)

Definition code_cells (nb : notebook) : list (list stmt) :=
  flat_map (fun c => match c with Code src => [src] | Markdown _ => [] end) (cells nb).

Definition headings (nb : notebook) : list string :=
  flat_map (fun c => match c with Markdown (Some h) => [h] | _ => [] end) (cells nb).

(** The statements of a notebook in execution order (top level only). *)
Definition statements (nb : notebook) : list stmt := List.concat (code_cells nb).

(** A statement together with every statement nested inside it. *)
Fixpoint flatten (s : stmt) : list stmt :=
  s :: match s with
       | For _ _ body | While _ body | With _ body
       | FunctionDef _ _ body | ClassDef _ body => flat_map flatten body
       | If _ body orelse => flat_map flatten body ++ flat_map flatten orelse
       | Try body handlers finalbody =>
           flat_map flatten body ++ flat_map (flat_map flatten) handlers
           ++ flat_map flatten finalbody
       | _ => []
       end.

Definition all_statements (nb : notebook) : list stmt :=
  flat_map flatten (statements nb).

(** The expressions written directly in a statement (not in its body). *)
Definition stmt_exprs (s : stmt) : list expr :=
  match s with
  | Expr v => [v]
  | Assign t v | AugAssign t _ v | For t v _ => [t; v]
  | While c _ | If c _ _ | With c _ => [c]
  | _ => []
  end.

(** Every name occurring in an expression. *)
Fixpoint names (e : expr) : list string :=
  match e with
  | EName x => [x]
  | ENum _ | EStr _ | EBool _ => []
  | EAttr v _ | EUSub v => names v
  | ESubscript v idx => names v ++ flat_map names idx
  | ESlice lo hi =>
      match lo with Some l => names l | None => [] end
      ++ match hi with Some h => names h | None => [] end
  | ECall f args kws =>
      names f ++ flat_map names args ++ flat_map (fun kw => names (snd kw)) kws
  | EBinOp l _ r | ECompare l _ r => names l ++ names r
  | ETuple es | EList es => flat_map names es
  | EDict items => flat_map (fun kv => names (fst kv) ++ names (snd kv)) items
  end.

(** Every call occurring in an expression, outermost first. *)
Record call_site := {
  func : expr;
  args : list expr;
  keywords : list (string * expr)
}.

Fixpoint calls (e : expr) : list call_site :=
  match e with
  | EName _ | ENum _ | EStr _ | EBool _ => []
  | EAttr v _ | EUSub v => calls v
  | ESubscript v idx => calls v ++ flat_map calls idx
  | ESlice lo hi =>
      match lo with Some l => calls l | None => [] end
      ++ match hi with Some h => calls h | None => [] end
  | ECall f a kws =>
      {| func := f; args := a; keywords := kws |}
      :: calls f ++ flat_map calls a ++ flat_map (fun kw => calls (snd kw)) kws
  | EBinOp l _ r | ECompare l _ r => calls l ++ calls r
  | ETuple es | EList es => flat_map calls es
  | EDict items => flat_map (fun kv => calls (fst kv) ++ calls (snd kv)) items
  end.

Definition all_calls (nb : notebook) : list call_site :=
  flat_map calls (flat_map stmt_exprs (all_statements nb)).

(** The root variable of an attribute/subscript chain such as
    [flex.load_at_node[1, 200]]. *)
Fixpoint root (e : expr) : option string :=
  match e with
  | EName x => Some x
  | EAttr v _ | ESubscript v _ => root v
  | _ => None
  end.

Definition mem (x : string) (l : list string) : bool :=
  existsb (String.eqb x) l.

(** Names a notebook imports from a module with [from module import ...]. *)
Definition imported_from (module : string) (nb : notebook) : list string :=
  flat_map (fun s => match s with
                     | ImportFrom m ns => if String.eqb m module then ns else []
                     | _ => []
                     end) (all_statements nb).

(** The method name of a call [obj.m(...)]. *)
Definition method_name (c : call_site) : option string :=
  match func c with EAttr _ m => Some m | _ => None end.

(** The called name of a call [f(...)]. *)
Definition callee (c : call_site) : option string :=
  match func c with EName f => Some f | _ => None end.

(** ** Use cases *)

Inductive use_case :=
| SedimentTransport
| LithosphericFlexure
| BoundaryConditionSetup
| NormalFaultUplift.

Definition constructs (cls : string) (nb : notebook) : bool :=
  existsb (fun c => match callee c with Some f => String.eqb f cls | None => false end)
    (all_calls nb).

(** A store into [<grid>.status_at_node[...]]. *)
Definition sets_node_status (nb : notebook) : bool :=
  existsb (fun s => match s with
                    | Assign (ESubscript (EAttr _ "status_at_node") _) _ => true
                    | _ => false
                    end) (all_statements nb).

(** The use cases a notebook demonstrates, by the library feature it
    drives. *)
Definition demonstrates (nb : notebook) : list use_case :=
  (if constructs "NetworkSedimentTransporter" nb then [SedimentTransport] else [])
  ++ (if constructs "Flexure1D" nb then [LithosphericFlexure] else [])
  ++ (if sets_node_status nb then [BoundaryConditionSetup] else [])
  ++ (if constructs "NormalFault" nb then [NormalFaultUplift] else []).

(** [contains needle hay]: [needle] occurs in [hay]. *)
Fixpoint contains (needle hay : string) : bool :=
  String.prefix needle hay
  || match hay with
     | EmptyString => false
     | String _ rest => contains needle rest
     end.

(** The words by which a notebook's main heading announces a use case. *)
Definition keyword (u : use_case) : string :=
  match u with
  | SedimentTransport => "NetworkSedimentTransporter"
  | LithosphericFlexure => "flexure"
  | BoundaryConditionSetup => "Boundary Conditions"
  | NormalFaultUplift => "NormalFault"
  end.

Definition headline (nb : notebook) : string := hd "" (headings nb).

(** A notebook document: format 4, a Python kernel, and at least one
    code cell. *)
Definition is_jupyter_notebook (nb : notebook) : bool :=
  Nat.eqb (nbformat nb) 4
  && String.eqb (kernel_language nb) "python"
  && negb (Nat.eqb (List.length (code_cells nb)) 0).

(** ** Phases of a notebook *)

Inductive phase :=
| ImportLibrary
| BuildGrid
| AttachFields
| ConstructComponent
| TimestepLoop
| Visualize.

Definition phase_eqb (p q : phase) : bool :=
  match p, q with
  | ImportLibrary, ImportLibrary | BuildGrid, BuildGrid | AttachFields, AttachFields
  | ConstructComponent, ConstructComponent | TimestepLoop, TimestepLoop
  | Visualize, Visualize => true
  | _, _ => false
  end.

(** Library entry points that return a grid. *)
Definition grid_constructors : list string :=
  ["RasterModelGrid"; "HexModelGrid"; "read_shapefile"].

(** Landlab's own plotting helpers, by the name the notebooks call. *)
Definition plot_helpers : list string :=
  ["imshow_grid"; "imshow_grid_at_node"; "plot_network_and_parcels"; "plot_graph"].

(** Methods that advance or re-solve a component. *)
Definition step_methods : list string :=
  ["run_one_step"; "update"; "calc_soil_prod_rate"].

Definition is_plot_call (c : call_site) : bool :=
  match func c with
  | EName f => mem f plot_helpers
  | EAttr (EName "plt") _ => true
  | EAttr (EName "graph") f => mem f plot_helpers
  | _ => false
  end.

Definition is_step_call (c : call_site) : bool :=
  match method_name c with Some m => mem m step_methods | None => false end.

Definition outer_call (e : expr) : option call_site :=
  match e with
  | ECall f a kws => Some {| func := f; args := a; keywords := kws |}
  | _ => None
  end.

Definition calls_of_stmt (s : stmt) : list call_site :=
  flat_map calls (flat_map stmt_exprs (flatten s)).

(** The phase a top-level statement belongs to, if any.  [components]
    are the classes the notebook imports from [landlab.components]. *)
Definition phase_of (components : list string) (s : stmt) : option phase :=
  match s with
  | Import _ _ | ImportFrom _ _ => Some ImportLibrary
  | For _ _ _ =>
      if existsb is_step_call (calls_of_stmt s) then Some TimestepLoop else None
  | Assign (ESubscript (EAttr _ "at_node") _) _
  | Assign (ESubscript (EAttr _ "at_link") _) _ => Some AttachFields
  | Expr v | Assign (EName _) v =>
      match outer_call v with
      | Some c =>
          if is_plot_call c then Some Visualize
          else match func c with
               | EName f =>
                   if mem f grid_constructors then Some BuildGrid
                   else if mem f components then Some ConstructComponent
                   else None
               | EAttr _ "add_zeros" => Some AttachFields
               | _ => None
               end
      | None => None
      end
  | _ => None
  end.

Definition phase_trace (nb : notebook) : list phase :=
  flat_map (fun s => match phase_of (imported_from "landlab.components" nb) s with
                     | Some p => [p]
                     | None => []
                     end) (statements nb).

(** [subsequence ps trace]: the phases [ps] occur in [trace] in this
    order (other statements may lie between them). *)
Fixpoint subsequence (ps trace : list phase) : bool :=
  match ps, trace with
  | [], _ => true
  | _ :: _, [] => false
  | p :: ps', q :: trace' =>
      if phase_eqb p q then subsequence ps' trace' else subsequence ps trace'
  end.

Definition pipeline : list phase :=
  [ImportLibrary; BuildGrid; AttachFields; ConstructComponent; TimestepLoop; Visualize].

Definition follows_pipeline (nb : notebook) : bool :=
  subsequence pipeline (phase_trace nb).

Definition has_phase (p : phase) (nb : notebook) : bool :=
  existsb (phase_eqb p) (phase_trace nb).

(** ** Error handling *)

(** A statement that can intercept an exception: a [try] statement, or
    a [with] block (whose context manager may swallow what its body
    raises), at any depth. *)
Fixpoint handles_errors (s : stmt) : bool :=
  match s with
  | Try _ _ _ | With _ _ => true
  | For _ _ body | While _ body | FunctionDef _ _ body | ClassDef _ body =>
      existsb handles_errors body
  | If _ body orelse => existsb handles_errors body || existsb handles_errors orelse
  | _ => false
  end.

Definition no_error_handling (src : list stmt) : bool :=
  forallb (fun s => negb (handles_errors s)) src.

(** Execution of a cell, as far as failures are concerned.  Every
    evaluation the interpreter performs (a simple statement, the header
    of a loop, a test) is one step; steps are numbered in execution
    order.  What the library does is the environment: which step raises
    which exception, how often a loop entered at a step iterates, which
    way a test goes, and whether a context manager swallows. *)
Section Execution.

Variable exn : Type.

Record environment := {
  raises : nat -> option exn;
  trips : nat -> nat;
  taken : nat -> bool;
  swallows : nat -> bool
}.

Inductive outcome :=
| Completed
| Raised (e : exn).

Variable env : environment.

Definition step (k : nat) : outcome * nat :=
  (match raises env k with Some e => Raised e | None => Completed end, S k).

(** Run [body] (given as its execution function) [n] times. *)
Fixpoint repeat_body (run : nat -> outcome * nat) (n k : nat) : outcome * nat :=
  match n with
  | O => (Completed, k)
  | S n' =>
      match run k with
      | (Completed, k') => repeat_body run n' k'
      | raised => raised
      end
  end.

(** [while]: the test is evaluated before each iteration and once
    more when the loop ends. *)
Fixpoint repeat_while (run : nat -> outcome * nat) (n k : nat) : outcome * nat :=
  match step k with
  | (Completed, k1) =>
      match n with
      | O => (Completed, k1)
      | S n' =>
          match run k1 with
          | (Completed, k2) => repeat_while run n' k2
          | raised => raised
          end
      end
  | raised => raised
  end.

Fixpoint exec (s : stmt) (k : nat) {struct s} : outcome * nat :=
  let block :=
    fix block (ss : list stmt) (k : nat) {struct ss} : outcome * nat :=
      match ss with
      | [] => (Completed, k)
      | s :: rest =>
          match exec s k with
          | (Completed, k') => block rest k'
          | raised => raised
          end
      end in
  match s with
  | Import _ _ | ImportFrom _ _ | Magic _ | Expr _ | Assign _ _ | AugAssign _ _ _
  | FunctionDef _ _ _ => step k
  | For _ _ body =>
      match step k with
      | (Completed, k1) => repeat_body (block body) (trips env k) k1
      | raised => raised
      end
  | While _ body => repeat_while (block body) (trips env k) k
  | If _ body orelse =>
      match step k with
      | (Completed, k1) => if taken env k then block body k1 else block orelse k1
      | raised => raised
      end
  | ClassDef _ body =>
      match step k with
      | (Completed, k1) => block body k1
      | raised => raised
      end
  | With _ body =>
      match step k with
      | (Completed, k1) =>
          match block body k1 with
          | (Raised e, k2) => if swallows env k then (Completed, k2) else (Raised e, k2)
          | done => done
          end
      | raised => raised
      end
  | Try body handlers finalbody =>
      match block body k with
      | (Completed, k1) => block finalbody k1
      | (Raised e, k1) =>
          match handlers with
          | handler :: _ =>
              match block handler k1 with
              | (Completed, k2) => block finalbody k2
              | (Raised e', k2) =>
                  match block finalbody k2 with
                  | (Completed, k3) => (Raised e', k3)
                  | raised => raised
                  end
              end
          | [] =>
              match block finalbody k1 with
              | (Completed, k2) => (Raised e, k2)
              | raised => raised
              end
          end
      end
  end.

Fixpoint exec_block (ss : list stmt) (k : nat) : outcome * nat :=
  match ss with
  | [] => (Completed, k)
  | s :: rest =>
      match exec s k with
      | (Completed, k') => exec_block rest k'
      | raised => raised
      end
  end.

(** No step in [[k, k')] raises. *)
Definition quiet (k k' : nat) : Prop :=
  forall j, k <= j -> j < k' -> raises env j = None.

(** The result [r] of running from step [k] is the first failure of
    the library, unchanged: either no step raised and the run
    completed, or the run stopped at the first raising step with
    exactly the exception raised there. *)
Definition propagates (k : nat) (r : outcome * nat) : Prop :=
  match r with
  | (Completed, k') => k <= k' /\ quiet k k'
  | (Raised e, k') =>
      exists j, k' = S j /\ k <= j /\ quiet k j /\ raises env j = Some e
  end.

End Execution.

Arguments Completed {exn}.
Arguments Raised {exn} e.
Arguments exec {exn} env s k.
Arguments exec_block {exn} env ss k.
Arguments propagates {exn} env k r.
Arguments quiet {exn} env k k'.
Arguments step {exn} env k.
Arguments repeat_body {exn} run n k.
Arguments repeat_while {exn} env run n k.

(** ** Control structure *)

(** Statements without a body, whatever they are: imports, IPython
    magics, expression statements (calls and bare expressions alike) and
    assignments. *)
Definition is_plain (s : stmt) : bool :=
  match s with
  | Import _ _ | ImportFrom _ _ | Magic _ | Expr _ | Assign _ _ | AugAssign _ _ _ => true
  | _ => false
  end.

(** A cell made of statements without a body: it contains no control
    structure of its own, whatever its statements compute. *)
Definition no_own_logic (src : list stmt) : bool := forallb is_plain src.

(** What a statement of a notebook is.  An expression statement is a
    call, or a display: a bare attribute or variable (or a tuple of
    them) that the notebook shows as the value of the cell, such as
    [grid.number_of_links] or [grid.dy, grid.dx].  An assignment is
    plain, to a subscript or an attribute, or augmented. *)
Inductive statement_kind :=
| AnImport
| AMagic
| ACall
| ADisplay
| AnAssignment
| ALoop.

Definition statement_kind_eqb (a b : statement_kind) : bool :=
  match a, b with
  | AnImport, AnImport | AMagic, AMagic | ACall, ACall | ADisplay, ADisplay
  | AnAssignment, AnAssignment | ALoop, ALoop => true
  | _, _ => false
  end.

Definition is_value_read (e : expr) : bool :=
  match e with
  | EName _ | EAttr _ _ => true
  | _ => false
  end.

(** The kind of a statement without a body; any other expression
    statement has none. *)
Definition simple_kind (s : stmt) : option statement_kind :=
  match s with
  | Import _ _ | ImportFrom _ _ => Some AnImport
  | Magic _ => Some AMagic
  | Expr (ECall _ _ _) => Some ACall
  | Expr (ETuple es) => if forallb is_value_read es then Some ADisplay else None
  | Expr e => if is_value_read e then Some ADisplay else None
  | Assign _ _ | AugAssign _ _ _ => Some AnAssignment
  | _ => None
  end.

Definition is_call_or_assignment (s : stmt) : bool :=
  match simple_kind s with
  | Some ACall | Some AnAssignment => true
  | _ => false
  end.

(** A loop is [for <name> in range(...)] over calls and assignments;
    no other compound statement has a kind. *)
Definition kind_of (s : stmt) : option statement_kind :=
  match s with
  | For (EName _) (ECall (EName "range") _ []) body =>
      if forallb is_call_or_assignment body then Some ALoop else None
  | _ => simple_kind s
  end.

Definition has_kind (k : statement_kind) (s : stmt) : bool :=
  match kind_of s with
  | Some k' => statement_kind_eqb k k'
  | None => false
  end.

Definition classified (s : stmt) : bool :=
  match kind_of s with Some _ => true | None => false end.

(** How many statements of kind [k] the cells of a notebook hold. *)
Definition count_kind (k : statement_kind) (nb : notebook) : nat :=
  List.length (filter (has_kind k) (statements nb)).

(** The lines of the IPython magics of a notebook. *)
Definition magics (nb : notebook) : list string :=
  flat_map (fun s => match s with Magic l => [l] | _ => [] end) (statements nb).

(** The expressions a notebook displays. *)
Definition displays (nb : notebook) : list expr :=
  flat_map (fun s => match s with Expr e => if has_kind ADisplay s then [e] else [] | _ => [] end)
    (statements nb).

(** The body of a loop. *)
Definition loop_body (s : stmt) : list stmt :=
  match s with
  | For _ _ body | While _ body => body
  | _ => []
  end.

Definition is_loop (s : stmt) : bool :=
  match s with For _ _ _ | While _ _ => true | _ => false end.

(** Definitions and branching: [def], [class], [if], [while], [try],
    [with]. *)
Definition defines_or_branches (s : stmt) : bool :=
  match s with
  | While _ _ | If _ _ _ | Try _ _ _ | With _ _ | FunctionDef _ _ _ | ClassDef _ _ => true
  | _ => false
  end.

(** A store into an existing object: an assignment or augmented
    assignment whose target is a subscript or an attribute, or an
    augmented assignment to a name. *)
Definition store_target (s : stmt) : option expr :=
  match s with
  | Assign (ESubscript _ _ as t) _ | Assign (EAttr _ _ as t) _ => Some t
  | AugAssign t _ _ => Some t
  | _ => None
  end.

(** Arithmetic or comparison written in the notebook itself, at the top
    of an expression. *)
Definition is_arithmetic (e : expr) : bool :=
  match e with
  | EBinOp _ _ _ | ECompare _ _ _ => true
  | _ => false
  end.

(** An in-place array update computed by the notebook: an augmented
    assignment, or a store of an arithmetic expression. *)
Definition own_update (s : stmt) : bool :=
  match s with
  | AugAssign _ _ _ => true
  | Assign (ESubscript _ _) v => is_arithmetic v
  | _ => false
  end.

(** The loops of a notebook, nested ones included. *)
Definition loops (nb : notebook) : list stmt := filter is_loop (all_statements nb).

(** A loop whose body updates an array in place with arithmetic of the
    notebook's own, and a loop whose body is calls and nothing else. *)
Definition updates_in_place (s : stmt) : bool := existsb own_update (loop_body s).

Definition only_calls (s : stmt) : bool := forallb (has_kind ACall) (loop_body s).

(** The functions and methods that the statements of a loop body call,
    by name, one per expression statement. *)
Definition called_in_body (s : stmt) : list string :=
  flat_map (fun b => match b with
                     | Expr (ECall (EName f) _ _) | Expr (ECall (EAttr _ f) _ _) => [f]
                     | _ => []
                     end) (loop_body s).

(** ** Mutation and sharing *)

(** Which object each variable belongs to.  A variable bound to a part
    of an existing object (an attribute, an element, the field array
    that [add_zeros] stores in the grid and returns, or the object
    itself) belongs to that object; a variable bound to anything else
    is an object of its own. *)
Definition aliases := list (string * string).

Fixpoint owner (env : aliases) (x : string) : string :=
  match env with
  | [] => x
  | (y, o) :: env' => if String.eqb x y then o else owner env' x
  end.

Definition view_of (e : expr) : option string :=
  match e with
  | EName x => Some x
  | EAttr _ _ | ESubscript _ _ => root e
  | ECall (EAttr obj "add_zeros") _ _ => root obj
  | _ => None
  end.

Definition bind (env : aliases) (x : string) (v : expr) : aliases :=
  (x, match view_of v with Some r => owner env r | None => x end) :: env.

Record mutation := {
  in_cell : nat;
  object : string;
  target : expr
}.

(** The stores of a statement, each attributed to the object that owns
    the root of its target, with the aliases in force after it. *)
Fixpoint scan (cell : nat) (s : stmt) (env : aliases) : aliases * list mutation :=
  let block :=
    fix block (ss : list stmt) (env : aliases) : aliases * list mutation :=
      match ss with
      | [] => (env, [])
      | s' :: rest =>
          let '(env1, ms1) := scan cell s' env in
          let '(env2, ms2) := block rest env1 in
          (env2, ms1 ++ ms2)
      end in
  match s with
  | Assign (EName x) v => (bind env x v, [])
  | For (EName x) _ body => block body ((x, x) :: env)
  | For _ _ body | While _ body | With _ body | FunctionDef _ _ body | ClassDef _ body =>
      block body env
  | If _ body orelse =>
      let '(env1, ms1) := block body env in
      let '(env2, ms2) := block orelse env1 in
      (env2, ms1 ++ ms2)
  | Try body _ finalbody =>
      let '(env1, ms1) := block body env in
      let '(env2, ms2) := block finalbody env1 in
      (env2, ms1 ++ ms2)
  | _ =>
      (env,
       match store_target s with
       | Some t =>
           match root t with
           | Some r => [{| in_cell := cell; object := owner env r; target := t |}]
           | None => []
           end
       | None => []
       end)
  end.

Fixpoint scan_block (cell : nat) (ss : list stmt) (env : aliases) : aliases * list mutation :=
  match ss with
  | [] => (env, [])
  | s :: rest =>
      let '(env1, ms1) := scan cell s env in
      let '(env2, ms2) := scan_block cell rest env1 in
      (env2, ms1 ++ ms2)
  end.

Fixpoint scan_cells (cell : nat) (srcs : list (list stmt)) (env : aliases) : list mutation :=
  match srcs with
  | [] => []
  | src :: rest =>
      let '(env1, ms) := scan_block cell src env in
      ms ++ scan_cells (S cell) rest env1
  end.

(** Every store written in the notebook; cells are numbered among the
    code cells, from 0. *)
Definition mutations (nb : notebook) : list mutation :=
  scan_cells 0 (code_cells nb) [].

(** The names a code cell mentions. *)
Definition cell_names (src : list stmt) : list string :=
  flat_map names (flat_map stmt_exprs (flat_map flatten src)).

(** The code cells, by number, that mention [x]. *)
Definition cells_mentioning (nb : notebook) (x : string) : list nat :=
  flat_map (fun '(i, src) => if mem x (cell_names src) then [i] else [])
    (combine (seq 0 (List.length (code_cells nb))) (code_cells nb)).

(** An object is shared across cells if a cell other than the one that
    stores into it mentions it. *)
Definition shared (nb : notebook) (m : mutation) : bool :=
  existsb (fun i => negb (Nat.eqb i (in_cell m))) (cells_mentioning nb (object m)).

(** The variables bound to a grid. *)
Definition grid_names (nb : notebook) : list string :=
  flat_map (fun s => match s with
                     | Assign (EName x) (ECall (EName f) _ _) =>
                         if mem f grid_constructors then [x] else []
                     | _ => []
                     end) (all_statements nb).

Definition is_grid (nb : notebook) (m : mutation) : bool :=
  mem (object m) (grid_names nb).

(** Every store that another cell can observe goes through the grid. *)
Definition only_grid_is_shared (nb : notebook) : bool :=
  forallb (fun m => is_grid nb m || negb (shared nb m)) (mutations nb).

Fixpoint dedup (l : list string) : list string :=
  match l with
  | [] => []
  | x :: rest => if mem x rest then dedup rest else x :: dedup rest
  end.

(** The objects other than the grid that are stored into and shared. *)
Definition shared_mutated_objects (nb : notebook) : list string :=
  dedup (map object
           (filter (fun m => negb (is_grid nb m) && shared nb m) (mutations nb))).

(** The attribute of the object that a store goes to, as in
    [flex.eet] or [flex.load_at_node[...]]. *)
Definition stored_attribute (m : mutation) : list string :=
  match target m with
  | EAttr _ a | ESubscript (EAttr _ a) _ => [a]
  | _ => []
  end.

(** The stores into [obj] that are written through the variable [x]. *)
Definition stores_through (x obj : string) (nb : notebook) : list mutation :=
  filter (fun m => String.eqb (object m) obj
                   && match root (target m) with
                      | Some r => String.eqb r x
                      | None => false
                      end) (mutations nb).

(** The stored-into objects that no other cell mentions. *)
Definition local_mutated_objects (nb : notebook) : list string :=
  dedup (map object (filter (fun m => negb (shared nb m)) (mutations nb))).

(** ** Arguments of calls *)

(** An expression written with literals only. *)
Fixpoint literal (e : expr) : bool :=
  match e with
  | ENum _ | EStr _ | EBool _ => true
  | EUSub v => literal v
  | EBinOp l _ r => literal l && literal r
  | ETuple es | EList es => forallb literal es
  | EDict items => forallb (fun kv => literal (fst kv) && literal (snd kv)) items
  | _ => false
  end.

Definition arguments (c : call_site) : list expr :=
  args c ++ map snd (keywords c).

Definition literal_arguments (c : call_site) : bool :=
  forallb literal (arguments c).

(** Names available without any binding in the notebook. *)
Definition builtins : list string := ["range"; "print"; "int"; "bool"].

(** Variables that earlier code computed: bound by an assignment whose
    right-hand side is not a literal. *)
Definition computed_names (ss : list stmt) : list string :=
  flat_map (fun s => match s with
                     | Assign (EName x) v => if literal v then [] else [x]
                     | _ => []
                     end) (flat_map flatten ss).

(** The names a statement reads, outside its body. *)
Definition uses (s : stmt) : list string :=
  match s with
  | Assign (EName _) v => names v
  | For (EName _) it _ => names it
  | _ => flat_map names (stmt_exprs s)
  end.

(** The names a statement binds. *)
Definition binds (s : stmt) : list string :=
  match s with
  | Import m None => [m]
  | Import _ (Some a) => [a]
  | ImportFrom _ ns => ns
  | Assign (EName x) _ | For (EName x) _ _ => [x]
  | FunctionDef f _ _ => [f]
  | ClassDef c _ => [c]
  | _ => []
  end.

(** [scoped s bound]: every name [s] reads is in [bound] when it is
    read; the result is the names bound after [s]. *)
Fixpoint scoped (s : stmt) (bound : list string) : option (list string) :=
  let block :=
    fix block (ss : list stmt) (bound : list string) : option (list string) :=
      match ss with
      | [] => Some bound
      | s' :: rest =>
          match scoped s' bound with
          | Some bound' => block rest bound'
          | None => None
          end
      end in
  if forallb (fun x => mem x bound) (uses s) then
    match s with
    | For _ _ body | While _ body | With _ body => block body (binds s ++ bound)
    | If _ body orelse =>
        match block body bound with
        | Some bound' => block orelse bound'
        | None => None
        end
    | Try body _ finalbody =>
        match block body bound with
        | Some bound' => block finalbody bound'
        | None => None
        end
    | _ => Some (binds s ++ bound)
    end
  else None.

Fixpoint scoped_block (ss : list stmt) (bound : list string) : option (list string) :=
  match ss with
  | [] => Some bound
  | s :: rest =>
      match scoped s bound with
      | Some bound' => scoped_block rest bound'
      | None => None
      end
  end.

(** Every name the notebook reads was bound by an earlier statement of
    the notebook (an import, an assignment, a loop variable) or is a
    builtin. *)
Definition reads_only_bound_names (nb : notebook) : bool :=
  match scoped_block (statements nb) builtins with
  | Some _ => true
  | None => false
  end.

Definition calls_to (f : string) (nb : notebook) : list call_site :=
  filter (fun c => match callee c with Some g => String.eqb f g | None => false end)
    (all_calls nb).

(** ** Step calls and plotting helpers *)

Definition step_calls (nb : notebook) : list call_site :=
  filter is_step_call (all_calls nb).

(** Landlab's plotting helpers (not matplotlib's own functions). *)
Definition is_helper_call (c : call_site) : bool :=
  match func c with
  | EName f => mem f plot_helpers
  | EAttr (EName "graph") f => mem f plot_helpers
  | _ => false
  end.

Definition helper_calls (nb : notebook) : list call_site :=
  filter is_helper_call (all_calls nb).

(** The call passes at least one argument. *)
Definition takes_timestep (c : call_site) : bool :=
  negb (Nat.eqb (List.length (arguments c)) 0).

Definition is_string (e : expr) : bool :=
  match e with EStr _ => true | _ => false end.

Definition first_is_grid (nb : notebook) (c : call_site) : bool :=
  match args c with
  | EName g :: _ => mem g (grid_names nb)
  | _ => false
  end.

(** The call passes a grid first and then at least one field name. *)
Definition takes_grid_and_fields (nb : notebook) (c : call_site) : bool :=
  first_is_grid nb c && existsb is_string (tl (args c)).

Definition interfaces_as_described (nb : notebook) : bool :=
  forallb takes_timestep (step_calls nb)
  && forallb (takes_grid_and_fields nb) (helper_calls nb).

(** The receiver and the arguments of a step call are of one of two
    shapes: [obj.step(dt)] or [obj.step()]. *)
Definition receiver (c : call_site) : option string :=
  match func c with EAttr obj _ => root obj | _ => None end.

Definition step_call_shape (c : call_site) : bool :=
  match receiver c, args c, keywords c with
  | Some r, [EName "dt"], [] => mem r ["nf"; "fs"; "dd"; "nst"]
  | Some r, [], [] => mem r ["fr"; "fd"; "flex"; "ew"]
  | _, _, _ => false
  end.

(** What a plotting helper is given to draw, after the grid. *)
Inductive drawn := FieldName | Value | Nothing.

Definition drawn_by (c : call_site) : drawn :=
  match tl (args c) with
  | EStr _ :: _ => FieldName
  | _ :: _ => Value
  | _ => Nothing
  end.

Definition count_drawn (d : drawn) (nb : notebook) : nat :=
  List.length
    (filter (fun c => match drawn_by c, d with
                      | FieldName, FieldName | Value, Value | Nothing, Nothing => true
                      | _, _ => false
                      end) (helper_calls nb)).

(** A component constructor is given the grid as its first argument. *)
Definition constructs_on_grid (nb : notebook) (c : call_site) : bool :=
  match callee c with
  | Some f => negb (mem f (imported_from "landlab.components" nb)) || first_is_grid nb c
  | None => true
  end.

(** The call passes the variable [x]. *)
Definition passes (x : string) (c : call_site) : bool :=
  mem x (flat_map names (arguments c)).

(** ** Parameters *)

(** The literal number most recently assigned to [x] by the statements
    [ss]. *)
Definition parameter (ss : list stmt) (x : string) : option Q :=
  fold_left (fun acc s => match s with
                          | Assign (EName y) (ENum q) => if String.eqb x y then Some q else acc
                          | _ => acc
                          end) ss None.

(** The value of parameter [x] when code cell number [cell] starts. *)
Definition parameter_at (nb : notebook) (cell : nat) (x : string) : option Q :=
  parameter (List.concat (firstn cell (code_cells nb))) x.

(** ** Array arithmetic of the final NormalFault loop *)

(** The element type of the field arrays.  The loop only compares and
    adds; what it needs from the numbers is that comparison is reflexive
    and that adding the same increment keeps the order.  Exact rationals
    satisfy this, and so do floating-point numbers other than NaN, since
    rounding is monotone. *)
Class Scalar (num : Type) := {
  leb : num -> num -> bool;
  add : num -> num -> num;
  mul : num -> num -> num;
  leb_refl : forall x, leb x x = true;
  add_mono : forall x y c, leb x y = true -> leb (add x c) (add y c) = true
}.

#[export] Instance Q_scalar : Scalar Q := {|
  leb := Qle_bool;
  add := Qplus;
  mul := Qmult;
  leb_refl := fun x => proj2 (Qle_bool_iff x x) (Qle_refl x);
  add_mono := fun x y c H =>
    proj2 (Qle_bool_iff (x + c) (y + c))
      (proj2 (Qplus_le_l x y c) (proj1 (Qle_bool_iff x y) H))
|}.

Section NormalFaultLoop.

Context {num : Type} `{Scalar num}.

(** The node fields of the grid that the loop touches.  The notebook's
    variables [z] and [b] are the arrays stored in the grid under
    these names, not copies: a store through [z] or [b] is a store
    into the grid. *)
Record at_node := {
  topographic__elevation : list num;
  soil__depth : list num;
  bedrock__elevation : list num
}.

(** [np.minimum(a, b)]: element by element; arrays of different
    length do not combine. *)
Fixpoint minimum_elements (a b : list num) : list num :=
  match a, b with
  | x :: a', y :: b' => (if leb x y then x else y) :: minimum_elements a' b'
  | _, _ => []
  end.

Definition np_minimum (a b : list num) : option (list num) :=
  if Nat.eqb (List.length a) (List.length b) then Some (minimum_elements a b) else None.

(** [a[i] = v] on a list; out of range is decided by the callers. *)
Fixpoint write (i : nat) (v : num) (a : list num) : list num :=
  match a, i with
  | [], _ => []
  | _ :: a', O => v :: a'
  | x :: a', S i' => x :: write i' v a'
  end.

(** [a[idx]]: an index out of range is an error. *)
Fixpoint gather (a : list num) (idx : list nat) : option (list num) :=
  match idx with
  | [] => Some []
  | i :: idx' =>
      match nth_error a i, gather a idx' with
      | Some x, Some xs => Some (x :: xs)
      | _, _ => None
      end
  end.

(** [a[idx] = vals]. *)
Fixpoint scatter (idx : list nat) (vals : list num) (a : list num) : list num :=
  match idx, vals with
  | i :: idx', v :: vals' => scatter idx' vals' (write i v a)
  | _, _ => a
  end.

(** [a[idx] += c], that is [a[idx] = a[idx] + c]: the right-hand side
    is computed from the array as it was. *)
Definition iadd_at (a : list num) (idx : list nat) (c : num) : option (list num) :=
  match gather a idx with
  | Some vals => Some (scatter idx (map (fun x => add x c) vals) a)
  | None => None
  end.

(** The library, as far as the loop is concerned: each call may change
    the fields in any way, or fail. *)
Variable nf_run_one_step : num -> at_node -> option at_node.
Variable fr_run_one_step : at_node -> option at_node.
Variable fs_run_one_step : num -> at_node -> option at_node.
Variable ew_calc_soil_prod_rate : at_node -> option at_node.
Variable dd_run_one_step : num -> at_node -> option at_node.

Variable core_nodes : list nat.
Variables U dt : num.

Definition and_then (r : option at_node) (f : at_node -> option at_node) : option at_node :=
  match r with
  | Some g => f g
  | None => None
  end.

Notation "r >>= f" := (and_then r f) (at level 50, left associativity).

(** [nf.run_one_step(dt); fr.run_one_step(); fs.run_one_step(dt)] *)
Definition fault_route_erode (g : at_node) : option at_node :=
  nf_run_one_step dt g >>= fr_run_one_step >>= fs_run_one_step dt.

(** [b = grid.at_node["bedrock__elevation"]]
    [b[:] = np.minimum(b, grid.at_node["topographic__elevation"])] *)
Definition reset (g : at_node) : option at_node :=
  match np_minimum (bedrock__elevation g) (topographic__elevation g) with
  | Some b =>
      Some {| topographic__elevation := topographic__elevation g;
              soil__depth := soil__depth g;
              bedrock__elevation := b |}
  | None => None
  end.

(** [ew.calc_soil_prod_rate(); dd.run_one_step(dt)] *)
Definition weather_diffuse (g : at_node) : option at_node :=
  ew_calc_soil_prod_rate g >>= dd_run_one_step dt.

(** [z[grid.core_nodes] += U * dt]
    [b[grid.core_nodes] += U * dt] *)
Definition uplift (g : at_node) : option at_node :=
  match iadd_at (topographic__elevation g) core_nodes (mul U dt) with
  | Some z =>
      match iadd_at (bedrock__elevation g) core_nodes (mul U dt) with
      | Some b =>
          Some {| topographic__elevation := z;
                  soil__depth := soil__depth g;
                  bedrock__elevation := b |}
      | None => None
      end
  | None => None
  end.

Definition iteration (g : at_node) : option at_node :=
  fault_route_erode g >>= reset >>= weather_diffuse >>= uplift.

(** [for i in range(n): ...] *)
Fixpoint loop (n : nat) (g : at_node) : option at_node :=
  match n with
  | O => Some g
  | S n' => loop n' g >>= iteration
  end.

(** Bedrock is nowhere above the topography. *)
Definition bedrock_below_surface (g : at_node) : Prop :=
  forall i b z,
    nth_error (bedrock__elevation g) i = Some b ->
    nth_error (topographic__elevation g) i = Some z ->
    leb b z = true.

(** Both fields have one value per node. *)
Definition well_shaped (n_nodes : nat) (g : at_node) : Prop :=
  List.length (topographic__elevation g) = n_nodes
  /\ List.length (bedrock__elevation g) = n_nodes.

End NormalFaultLoop.

Arguments at_node num : clear implicits.

(** ** The interior rectangle of the boundary-condition notebook *)

Module InteriorRectangle.

(** Node status codes of a Landlab grid. *)
Definition BC_NODE_IS_CORE : nat := 0.
Definition BC_NODE_IS_FIXED_VALUE : nat := 1.
Definition BC_NODE_IS_CLOSED : nat := 4.

(** [RasterModelGrid((rows, cols))]: unit spacing, nodes numbered row
    by row from the lower left corner, so that node [i] lies at
    column [i mod cols] and row [i / cols]; the nodes of the outer
    rows and columns are open boundaries with a fixed value, all
    others are core nodes. *)
Definition number_of_nodes (rows cols : nat) : nat := rows * cols.

Definition x_of_node (rows cols : nat) : list Q :=
  map (fun i => inject_Z (Z.of_nat (i mod cols))) (seq 0 (number_of_nodes rows cols)).

Definition y_of_node (rows cols : nat) : list Q :=
  map (fun i => inject_Z (Z.of_nat (i / cols))) (seq 0 (number_of_nodes rows cols)).

Definition is_perimeter (rows cols i : nat) : bool :=
  Nat.eqb (i mod cols) 0 || Nat.eqb (i mod cols) (cols - 1)
  || Nat.eqb (i / cols) 0 || Nat.eqb (i / cols) (rows - 1).

Definition status_at_node (rows cols : nat) : list nat :=
  map (fun i => if is_perimeter rows cols i then BC_NODE_IS_FIXED_VALUE
                else BC_NODE_IS_CORE)
    (seq 0 (number_of_nodes rows cols)).

(** [a < c] and [a > c] for an array and a number. *)
Definition Qltb (x y : Q) : bool := negb (Qle_bool y x).
Definition less (a : list Q) (c : Q) : list bool := map (fun x => Qltb x c) a.
Definition greater (a : list Q) (c : Q) : list bool := map (fun x => Qltb c x) a.

Fixpoint np_logical_and (a b : list bool) : list bool :=
  match a, b with
  | x :: a', y :: b' => (x && y) :: np_logical_and a' b'
  | _, _ => []
  end.

(** [a[mask] = v] *)
Fixpoint assign_where (mask : list bool) (v : nat) (a : list nat) : list nat :=
  match mask, a with
  | m :: mask', x :: a' => (if m then v else x) :: assign_where mask' v a'
  | _, _ => a
  end.

(** The cells of the notebook. *)
Definition mg_rows : nat := 10.
Definition mg_cols : nat := 10.

Definition min_x : Q := 2.5.
Definition max_x : Q := 5.0.
Definition min_y : Q := 3.5.
Definition max_y : Q := 7.5.

Definition x_condition : list bool :=
  np_logical_and (less (x_of_node mg_rows mg_cols) max_x)
    (greater (x_of_node mg_rows mg_cols) min_x).

Definition y_condition : list bool :=
  np_logical_and (less (y_of_node mg_rows mg_cols) max_y)
    (greater (y_of_node mg_rows mg_cols) min_y).

Definition my_nodes : list bool := np_logical_and x_condition y_condition.

(** [mg.status_at_node[my_nodes] = mg.BC_NODE_IS_CLOSED] *)
Definition close_rectangle (status : list nat) : list nat :=
  assign_where my_nodes BC_NODE_IS_CLOSED status.

(** The nodes a mask selects. *)
Definition selected (mask : list bool) : list nat :=
  flat_map (fun '(i, m) => if (m : bool) then [i] else [])
    (combine (seq 0 (List.length mask)) mask).

(** The nodes at which two status arrays differ. *)
Definition changed (before after : list nat) : list nat :=
  flat_map (fun '(i, (s, s')) => if Nat.eqb s s' then [] else [i])
    (combine (seq 0 (List.length before)) (combine before after)).

End InteriorRectangle.

(** ** The cumulative throw of the NormalFault notebook *)

Module CumulativeThrow.

(** The integers below which numpy's 64-bit integers and its double
    precision numbers both hold every integer exactly. *)
Definition largest_exact_integer : Z := 2 ^ 53.

(** [np.arange(start, stop, step)] on Python integers with [step > 0]
    that numpy holds as 64-bit integers.  Beyond them, and for a
    fractional [step], numpy computes the samples otherwise; such
    arguments are outside this model. *)
Definition np_arange (start stop step : Z) : list Z :=
  map (fun i => (start + Z.of_nat i * step)%Z)
    (seq 0 (Z.to_nat ((stop - start + step - 1) / step))).

(** [np.interp(x, xp, fp)]: piecewise linear through the points
    [(xp, fp)], constant outside them. *)
Fixpoint interp_from (x0 y0 : Q) (xp fp : list Q) (x : Q) : Q :=
  match xp, fp with
  | x1 :: xp', y1 :: fp' =>
      if Qle_bool x x1 then (y0 + (x - x0) * ((y1 - y0) / (x1 - x0)))%Q
      else interp_from x1 y1 xp' fp' x
  | _, _ => y0
  end.

Definition interp_at (xp fp : list Q) (x : Q) : Q :=
  match xp, fp with
  | x0 :: xp', y0 :: fp' => if Qle_bool x x0 then y0 else interp_from x0 y0 xp' fp' x
  | _, _ => 0%Q
  end.

Definition np_interp (x xp fp : list Q) : list Q := map (interp_at xp fp) x.

(** [np.cumsum(a)] *)
Fixpoint cumsum_from (acc : Q) (a : list Q) : list Q :=
  match a with
  | [] => []
  | x :: a' => (acc + x)%Q :: cumsum_from (acc + x)%Q a'
  end.

Definition np_cumsum (a : list Q) : list Q := cumsum_from 0%Q a.

Definition scale (a : list Q) (c : Q) : list Q := map (fun x => (x * c)%Q) a.

(** The cell, for an integer time step [dt] (the notebook sets
    [dt = 1000], later [dt = 100]) with [300 * dt] no larger than
    [largest_exact_integer]. *)
Section Cell.

Variable dt : Z.

Definition t : list Z := np_arange 0 (300 * dt) dt.

Definition rate_constant : list Q :=
  np_interp (map inject_Z t) [0%Q; inject_Z (300 * dt)] [0.001%Q; 0.001%Q].

Definition cumulative_rock_uplift_constant : list Q :=
  scale (np_cumsum rate_constant) (inject_Z dt).

End Cell.

End CumulativeThrow.

(** ** Sample inputs *)

(** A library in which step 20 raises and every loop runs 300 times. *)
Definition failing_library : environment string := {|
  raises := fun k => if Nat.eqb k 20 then Some "ValueError" else None;
  trips := fun _ => 300;
  taken := fun _ => true;
  swallows := fun _ => false
|}.

(** The last model cell of the NormalFault notebook. *)
Definition final_model_cell : list stmt := nth 13 (code_cells normal_fault) [].

(** A grid of four nodes, the two middle ones core nodes, with bedrock
    at the surface. *)
Definition sample_fields : at_node Q := {|
  topographic__elevation := [0; 100; 101; 0]%Q;
  soil__depth := [0; 0; 0; 0]%Q;
  bedrock__elevation := [0; 100; 101; 0]%Q
|}.

Definition sample_core_nodes : list nat := [1; 2].

(** A stand-in for the eroder: it lowers the surface by one metre
    everywhere, below the bedrock. *)
Definition sample_eroder (_ : Q) (g : at_node Q) : option (at_node Q) :=
  Some {| topographic__elevation := map (fun z => z - 1)%Q (topographic__elevation g);
          soil__depth := soil__depth g;
          bedrock__elevation := bedrock__elevation g |}.

Definition sample_idle (g : at_node Q) : option (at_node Q) := Some g.

(** A stand-in for a component that leaves the fields alone. *)
Definition sample_still (_ : Q) (g : at_node Q) : option (at_node Q) := Some g.

(** Fields in which the bedrock lies above the surface at node 1. *)
Definition sample_eroded : at_node Q := {|
  topographic__elevation := [0; 98; 101; 0]%Q;
  soil__depth := [0; 0; 0; 0]%Q;
  bedrock__elevation := [0; 100; 101; 0]%Q
|}.

(** ** The rectangle cell for any grid and any bounds *)

(** The cells of the boundary-condition notebook as they are written:
    in terms of the variables [mg], [min_x], [max_x], [min_y] and
    [max_y], which the notebook sets in earlier cells and which a
    reader is meant to change. *)
Module RectangleCell.

Section Cell.

Variables rows cols : nat.
Variables min_x max_x min_y max_y : Q.

(** [x_condition = np.logical_and(mg.x_of_node < max_x, mg.x_of_node > min_x)] *)
Definition x_condition : list bool :=
  InteriorRectangle.np_logical_and
    (InteriorRectangle.less (InteriorRectangle.x_of_node rows cols) max_x)
    (InteriorRectangle.greater (InteriorRectangle.x_of_node rows cols) min_x).

(** [y_condition = np.logical_and(mg.y_of_node < max_y, mg.y_of_node > min_y)] *)
Definition y_condition : list bool :=
  InteriorRectangle.np_logical_and
    (InteriorRectangle.less (InteriorRectangle.y_of_node rows cols) max_y)
    (InteriorRectangle.greater (InteriorRectangle.y_of_node rows cols) min_y).

(** [my_nodes = np.logical_and(x_condition, y_condition)] *)
Definition my_nodes : list bool :=
  InteriorRectangle.np_logical_and x_condition y_condition.

(** [mg.status_at_node[my_nodes] = mg.BC_NODE_IS_CLOSED]; a boolean
    index whose length is not that of the array is an error. *)
Definition close_rectangle (status : list nat) : option (list nat) :=
  if Nat.eqb (List.length my_nodes) (List.length status)
  then Some (InteriorRectangle.assign_where my_nodes
               InteriorRectangle.BC_NODE_IS_CLOSED status)
  else None.

End Cell.

End RectangleCell.

(** ** The set-up of the final NormalFault model *)

(** The statements of the final model cell that come before the loop,
    as far as they compute fields.  The draw of [np.random.randn] is an
    argument. *)
Module ModelSetup.

(** [grid.add_zeros(name, at="node")] *)
Definition add_zeros (n_nodes : nat) : list Q := repeat 0%Q n_nodes.

(** [a + b] and [a - b] on arrays of one shape. *)
Fixpoint combine_with (f : Q -> Q -> Q) (a b : list Q) : list Q :=
  match a, b with
  | x :: a', y :: b' => f x y :: combine_with f a' b'
  | _, _ => []
  end.

Definition elementwise (f : Q -> Q -> Q) (a b : list Q) : option (list Q) :=
  if Nat.eqb (List.length a) (List.length b) then Some (combine_with f a b) else None.

(** [a[idx] += vals]: one value per index, computed from the array as
    it was. *)
Definition iadd_values_at (a : list Q) (idx : list nat) (vals : list Q) : option (list Q) :=
  match gather a idx with
  | Some old =>
      match elementwise Qplus old vals with
      | Some new => Some (scatter idx new a)
      | None => None
      end
  | None => None
  end.

(** [b[:] = v] *)
Definition assign_all (b v : list Q) : option (list Q) :=
  if Nat.eqb (List.length v) (List.length b) then Some v else None.

(** [z = grid.add_zeros("topographic__elevation", at="node")]
    [z[grid.core_nodes] += 100.0 + np.random.randn(grid.core_nodes.size)]
    [d = grid.add_zeros("soil__depth", at="node")]
    [b = grid.add_zeros("bedrock__elevation", at="node")]
    [b[:] = z - d] *)
Definition setup (n_nodes : nat) (core_nodes : list nat) (randn : list Q)
  : option (at_node Q) :=
  match iadd_values_at (add_zeros n_nodes) core_nodes
          (map (fun e => 100.0 + e)%Q randn) with
  | Some z =>
      let d := add_zeros n_nodes in
      match elementwise Qminus z d with
      | Some z_minus_d =>
          match assign_all (add_zeros n_nodes) z_minus_d with
          | Some b =>
              Some {| topographic__elevation := z;
                      soil__depth := d;
                      bedrock__elevation := b |}
          | None => None
          end
      | None => None
      end
  | None => None
  end.

End ModelSetup.

(** ** The sediment-transport notebook: the time loop *)

Module ModelRun.


Section Run.

(** What the component keeps between steps, and its step; the step may
    fail. *)
Variable state : Type.
Variable nst_run_one_step : Z -> state -> option state.




End Run.

End ModelRun.

(** ** The sediment-transport notebook: the parcel arrays *)

Module ParcelArrays.

(** [np.arange(n)] *)
Definition np_arange (n : nat) : list Z := map Z.of_nat (seq 0 n).

(** [np.repeat(a, repeats)]: every element [repeats] times, in order. *)
Definition np_repeat {A : Type} (a : list A) (repeats : nat) : list A :=
  flat_map (fun x => repeat x repeats) a.

(** [np.expand_dims(a, axis=1)]: a column, one row per element. *)
Definition np_expand_dims {A : Type} (a : list A) : list (list A) :=
  map (fun x => [x]) a.

(** [np.size(m)]: the number of elements. *)
Definition np_size {A : Type} (m : list (list A)) : nat := List.length (List.concat m).

(** [np.ones(np.shape(m))]: ones in the shape of [m]. *)
Definition ones_in_shape_of {A : Type} (m : list (list A)) : list (list Q) :=
  map (map (fun _ => 1%Q)) m.

(** [np.ones(n)] *)
Definition np_ones (n : nat) : list Q := repeat 1%Q n.

Section Cell.

Variable number_of_links : nat.

(** [element_id = np.repeat(np.arange(grid.number_of_links), 50)]
    [element_id = np.expand_dims(element_id, axis=1)] *)
Definition element_id : list (list Z) :=
  np_expand_dims (np_repeat (np_arange number_of_links) 50).

(** [volume = 1 * np.ones(np.shape(element_id))] *)
Definition volume : list (list Q) :=
  map (map (fun o => 1 * o)%Q) (ones_in_shape_of element_id).

(** [active_layer = np.ones(np.shape(element_id))] *)
Definition active_layer : list (list Q) := ones_in_shape_of element_id.

(** [density = 2650 * np.ones(np.size(element_id))] *)
Definition density : list Q := map (fun o => 2650 * o)%Q (np_ones (np_size element_id)).

(** [abrasion_rate = 0 * np.ones(np.size(element_id))] *)
Definition abrasion_rate : list Q := map (fun o => 0 * o)%Q (np_ones (np_size element_id)).

(** [lithology = ["quartzite"] * np.size(element_id)] *)
Definition lithology : list string :=
  List.concat (repeat ["quartzite"] (np_size element_id)).

End Cell.

(** The parcels that start on a link: [element_id[:, 0] == link]. *)
Definition starts_on (link : Z) (row : list Z) : bool :=
  match row with
  | l :: _ => (l =? link)%Z
  | [] => false
  end.

(** A sum over all elements. *)
Definition total (m : list (list Q)) : Q :=
  fold_right Qplus 0%Q (List.concat m).

End ParcelArrays.

(** ** The flexure notebook: the loads *)

Module Loading.

(** The bounds of [row[lo:hi]] in a row of length [n]; no [hi] is the
    end of the row.  Bounds count from the front, as those of the
    notebook do. *)
Definition slice_start (lo n : nat) : nat := Nat.min lo n.

Definition slice_stop (lo : nat) (hi : option nat) (n : nat) : nat :=
  Nat.max (Nat.min lo n)
    (match hi with
     | Some h => Nat.min h n
     | None => n
     end).

(** [row[lo:hi] = v] for a number [v]. *)
Definition fill_slice (lo : nat) (hi : option nat) (v : Q) (row : list Q) : list Q :=
  let n := List.length row in
  firstn (slice_start lo n) row
  ++ repeat v (slice_stop lo hi n - slice_start lo n)
  ++ skipn (slice_stop lo hi n) row.

(** [row[lo:hi] = vals] for an array [vals]: as many values as the
    slice is long, or a single one for all of it; anything else is an
    error. *)
Definition store_slice (lo : nat) (hi : option nat) (vals row : list Q)
  : option (list Q) :=
  let n := List.length row in
  if Nat.eqb (List.length vals) (slice_stop lo hi n - slice_start lo n)
  then Some (firstn (slice_start lo n) row ++ vals ++ skipn (slice_stop lo hi n) row)
  else if Nat.eqb (List.length vals) 1
       then Some (fill_slice lo hi (hd 0%Q vals) row)
       else None.

(** [row[j] = v]: an index past the end is an error. *)
Definition store_at (j : nat) (v : Q) (row : list Q) : option (list Q) :=
  if Nat.ltb j (List.length row) then Some (write j v row) else None.

(** [a[r, ...] = ...]: the store goes to row [r]; a row that is not
    there is an error. *)
Definition in_row (r : nat) (f : list Q -> option (list Q)) (a : list (list Q))
  : option (list (list Q)) :=
  match nth_error a r with
  | Some row =>
      match f row with
      | Some row' => Some (firstn r a ++ row' :: skipn (S r) a)
      | None => None
      end
  | None => None
  end.

(** [flex.load_at_node[1, 200] = 1e6] *)
Definition add_point_load (load_at_node : list (list Q)) : option (list (list Q)) :=
  in_row 1 (store_at 200 1e6%Q) load_at_node.

(** [flex.dz_at_node[:] = 0.0] *)
Definition clear_deflection (dz_at_node : list (list Q)) : list (list Q) :=
  map (map (fun _ => 0.0%Q)) dz_at_node.

(** [np.arange(200) * 1e6 / 200.0] *)
Definition ramp : list Q :=
  map (fun k => (inject_Z (Z.of_nat k) * 1e6 / 200.0)%Q) (seq 0 200).

(** [flex.load_at_node[1, :100] = 0.0]
    [flex.load_at_node[1, 100:300] = np.arange(200) * 1e6 / 200.0]
    [flex.load_at_node[1, 300:] = 1e6] *)
Definition add_some_loading (load_at_node : list (list Q)) : option (list (list Q)) :=
  match in_row 1 (fun row => Some (fill_slice 0 (Some 100) 0.0%Q row)) load_at_node with
  | Some load1 =>
      match in_row 1 (store_slice 100 (Some 300) ramp) load1 with
      | Some load2 => in_row 1 (fun row => Some (fill_slice 300 None 1e6%Q row)) load2
      | None => None
      end
  | None => None
  end.

(** The load along row 1 after the loading cell, for a row of [n]
    columns. *)
Definition shelf (n : nat) : list Q :=
  repeat 0.0%Q 100 ++ ramp ++ repeat 1e6%Q (n - 300).

End Loading.

(** ** The sediment-transport notebook: filters over parcels and time *)

Module ParcelTables.

(** An array of two dimensions, items by time: one row per parcel, one
    column per time.  Indices count from the front, as those of the
    notebook do. *)
Record table (A : Type) := {
  n_columns : nat;
  rows : list (list A)
}.

Arguments n_columns {A} t.
Arguments rows {A} t.

Definition rectangular {A : Type} (m : table A) : Prop :=
  Forall (fun row => List.length row = n_columns m) (rows m).

Definition same_shape {A B : Type} (m : table A) (m' : table B) : bool :=
  Nat.eqb (n_columns m) (n_columns m')
  && Nat.eqb (List.length (rows m)) (List.length (rows m')).

Fixpoint all_some {A : Type} (l : list (option A)) : option (list A) :=
  match l with
  | [] => Some []
  | Some x :: l' =>
      match all_some l' with
      | Some xs => Some (x :: xs)
      | None => None
      end
  | None :: _ => None
  end.

(** [m[:, c]]: a column that is not there is an error. *)
Definition column {A : Type} (c : nat) (m : table A) : option (list A) :=
  if Nat.ltb c (n_columns m)
  then all_some (map (fun row => nth_error row c) (rows m))
  else None.

Fixpoint put_column {A : Type} (c : nat) (vals : list A) (rs : list (list A))
  : list (list A) :=
  match rs, vals with
  | row :: rs', v :: vals' => write c v row :: put_column c vals' rs'
  | _, _ => rs
  end.

(** [m[:, c] = vals]: one value per row, or a single value for all
    rows. *)
Definition set_column {A : Type} (c : nat) (vals : list A) (m : table A)
  : option (table A) :=
  if Nat.ltb c (n_columns m) then
    if Nat.eqb (List.length vals) (List.length (rows m))
    then Some {| n_columns := n_columns m; rows := put_column c vals (rows m) |}
    else match vals with
         | [v] => Some {| n_columns := n_columns m;
                          rows := map (write c v) (rows m) |}
         | _ => None
         end
  else None.

(** [np.zeros_like(m, dtype=bool)] *)
Definition zeros_like_bool {A : Type} (m : table A) : table bool :=
  {| n_columns := n_columns m; rows := map (map (fun _ => false)) (rows m) |}.

(** [parcelfilter = np.zeros_like(parcels.dataset.element_id, dtype=bool)]
    [parcelfilter[:, timestep_of_interest] =
       (parcels.dataset.element_id[:, 0] == originating_link)] *)
Definition parcelfilter (element_id : table Z) (timestep_of_interest : nat)
    (originating_link : Z) : option (table bool) :=
  match column 0 element_id with
  | Some first =>
      set_column timestep_of_interest
        (map (fun e => (e =? originating_link)%Z) first)
        (zeros_like_bool element_id)
  | None => None
  end.

(** The entry of a table at a row and a column. *)
Definition entry {A : Type} (m : table A) (i j : nat) : option A :=
  match nth_error (rows m) i with
  | Some row => nth_error row j
  | None => None
  end.

(** How many entries of a filter are set. *)
Definition count_set (m : table bool) : nat :=
  List.length (filter (fun b : bool => b) (List.concat (rows m))).

Fixpoint zip_with {A B C : Type} (f : A -> B -> C) (a : list A) (b : list B) : list C :=
  match a, b with
  | x :: a', y :: b' => f x y :: zip_with f a' b'
  | _, _ => []
  end.

(** [a[m == v] = 0]: a mask of another shape is an error. *)
Definition zero_where (v : Z) (m : table Z) (a : table Q) : option (table Q) :=
  if same_shape m a
  then Some {| n_columns := n_columns a;
               rows := zip_with (zip_with (fun e x => if (e =? v)%Z then 0%Q else x))
                         (rows m) (rows a) |}
  else None.

(** [np.sum(a, axis=0)]: the sum of every column. *)
Definition sum_axis0 (a : table Q) : list Q :=
  fold_right (zip_with Qplus) (repeat 0%Q (n_columns a)) (rows a).

(** [parcel_vol_on_grid = parcels.dataset["volume"].values]
    [parcel_vol_on_grid[parcels.dataset["element_id"].values == -2] = 0]
    The array is the one of the record, so the store changes the
    record. *)
Definition parcel_vol_on_grid (volume : table Q) (element_id : table Z)
  : option (table Q) :=
  zero_where (-2) element_id volume.

(** [np.sum(parcel_vol_on_grid, axis=0)], the curve that is plotted. *)
Definition volume_on_grid (volume : table Q) (element_id : table Z) : option (list Q) :=
  match parcel_vol_on_grid volume element_id with
  | Some v => Some (sum_axis0 v)
  | None => None
  end.

End ParcelTables.

(** ** The intermittent throw history of the NormalFault notebook *)

Module VariableThrow.

(** The list inside [np.array([...])] of the cell that defines [time]. *)
Definition breakpoints : list Q :=
  [0.0; 7.99; 8.00; 8.99; 9.0; 17.99; 18.0; 18.99; 19.0; 27.99; 28.00; 28.99; 29.0]%Q.

(** [rate = np.array([0, 0, 0.01, 0.01, 0, 0, 0.01, 0.01, 0, 0, 0.01, 0.01, 0])] *)
Definition rate : list Q :=
  [0; 0; 0.01; 0.01; 0; 0; 0.01; 0.01; 0; 0; 0.01; 0.01; 0]%Q.

Section Cell.

Variable dt : Z.

(** [time = np.array([...]) * 10 * dt] *)
Definition time : list Q := map (fun c => (c * 10 * inject_Z dt)%Q) breakpoints.

(** [rate_variable = np.interp(t, time, rate)] *)
Definition rate_variable : list Q :=
  CumulativeThrow.np_interp (map inject_Z (CumulativeThrow.t dt)) time rate.

(** [cumulative_rock_uplift_variable = np.cumsum(rate_variable) * dt] *)
Definition cumulative_rock_uplift_variable : list Q :=
  CumulativeThrow.scale (CumulativeThrow.np_cumsum rate_variable) (inject_Z dt).

End Cell.

(** The fault is active in the samples 80 to 89, 180 to 189 and 280 to
    289. *)
Definition active (k : nat) : bool :=
  (Nat.leb 80 k && Nat.ltb k 90) || (Nat.leb 180 k && Nat.ltb k 190)
  || (Nat.leb 280 k && Nat.ltb k 290).

End VariableThrow.

(** ** More sample inputs *)

(** Three parcels over two times; the second parcel has left the
    network at the second time. *)
Definition sample_element_id : ParcelTables.table Z :=
  {| ParcelTables.n_columns := 2;
     ParcelTables.rows := [[0; 1]; [1; -2]; [1; 1]]%Z |}.

Definition sample_volume : ParcelTables.table Q :=
  {| ParcelTables.n_columns := 2;
     ParcelTables.rows := [[1; 1]; [1; 1]; [1; 1]]%Q |}.

(** * Properties *)

(** ** Induction on statements *)

(** Structural induction with the hypothesis available for every
    statement of a body.  The bodies of [try] and [with] are left out:
    the results below are about code without them. *)
Section StmtInduction.

Variable P : stmt -> Prop.

Hypothesis P_import : forall m a, P (Import m a).
Hypothesis P_import_from : forall m ns, P (ImportFrom m ns).
Hypothesis P_magic : forall l, P (Magic l).
Hypothesis P_expr : forall v, P (Expr v).
Hypothesis P_assign : forall t v, P (Assign t v).
Hypothesis P_aug_assign : forall t op v, P (AugAssign t op v).
Hypothesis P_for : forall t i body, Forall P body -> P (For t i body).
Hypothesis P_while : forall c body, Forall P body -> P (While c body).
Hypothesis P_if : forall c body orelse,
    Forall P body -> Forall P orelse -> P (If c body orelse).
Hypothesis P_try : forall body handlers finalbody, P (Try body handlers finalbody).
Hypothesis P_with : forall item body, P (With item body).
Hypothesis P_function_def : forall f ps body, Forall P body -> P (FunctionDef f ps body).
Hypothesis P_class_def : forall c body, Forall P body -> P (ClassDef c body).

Fixpoint stmt_body_ind (s : stmt) : P s :=
  let all :=
    fix all (ss : list stmt) : Forall P ss :=
      match ss with
      | [] => Forall_nil P
      | s' :: rest => Forall_cons s' (stmt_body_ind s') (all rest)
      end in
  match s with
  | Import m a => P_import m a
  | ImportFrom m ns => P_import_from m ns
  | Magic l => P_magic l
  | Expr v => P_expr v
  | Assign t v => P_assign t v
  | AugAssign t op v => P_aug_assign t op v
  | For t i body => P_for t i body (all body)
  | While c body => P_while c body (all body)
  | If c body orelse => P_if c body orelse (all body) (all orelse)
  | Try body handlers finalbody => P_try body handlers finalbody
  | With item body => P_with item body
  | FunctionDef f ps body => P_function_def f ps body (all body)
  | ClassDef c body => P_class_def c body (all body)
  end.

End StmtInduction.

(** ** Failures propagate through code without handlers *)

Section Propagation.

Context {exn : Type} (env : environment exn).

Lemma exec_For t i body k :
  exec env (For t i body) k =
  match step env k with
  | (Completed, k1) => repeat_body (exec_block env body) (trips exn env k) k1
  | raised => raised
  end.
Proof. reflexivity. Qed.

Lemma exec_While c body k :
  exec env (While c body) k = repeat_while env (exec_block env body) (trips exn env k) k.
Proof. reflexivity. Qed.

Lemma exec_If c body orelse k :
  exec env (If c body orelse) k =
  match step env k with
  | (Completed, k1) =>
      if taken exn env k then exec_block env body k1 else exec_block env orelse k1
  | raised => raised
  end.
Proof. reflexivity. Qed.

Lemma exec_ClassDef c body k :
  exec env (ClassDef c body) k =
  match step env k with
  | (Completed, k1) => exec_block env body k1
  | raised => raised
  end.
Proof. reflexivity. Qed.

Lemma quiet_trans k1 k2 k3 :
  quiet env k1 k2 -> quiet env k2 k3 -> quiet env k1 k3.
Proof.
  intros H12 H23 j Hlo Hhi.
  destruct (Nat.lt_ge_cases j k2) as [Hlt | Hge].
  - now apply H12.
  - now apply H23.
Qed.

Lemma step_propagates k : propagates env k (step env k).
Proof.
  unfold step, propagates.
  destruct (raises exn env k) as [e |] eqn:Hk.
  - exists k. repeat split; auto. intros j Hlo Hhi. lia.
  - split; [lia |]. intros j Hlo Hhi.
    assert (j = k) by lia. now subst.
Qed.

(** A run that completed, followed by a run that propagates, is a run
    that propagates. *)
Lemma propagates_after k k1 r :
  propagates env k (Completed, k1) -> propagates env k1 r -> propagates env k r.
Proof.
  intros [Hle Hq] Hr. destruct r as [[| e] k2]; simpl in *.
  - destruct Hr as [Hle' Hq']. split; [lia |]. eapply quiet_trans; eauto.
  - destruct Hr as (j & -> & Hj & Hq' & He).
    exists j. repeat split; auto; [lia |]. eapply quiet_trans; eauto.
Qed.

Lemma propagates_then (run : nat -> outcome exn * nat) (next : nat -> outcome exn * nat) k :
  propagates env k (run k) ->
  (forall k1, propagates env k1 (next k1)) ->
  propagates env k
    (match run k with
     | (Completed, k1) => next k1
     | raised => raised
     end).
Proof.
  intros Hrun Hnext. destruct (run k) as [[| e] k1] eqn:Hr.
  - eapply propagates_after; eauto.
  - exact Hrun.
Qed.

Lemma repeat_body_propagates run n :
  (forall k, propagates env k (run k)) ->
  forall k, propagates env k (repeat_body run n k).
Proof.
  intros Hrun. induction n as [| n IH]; intros k; simpl.
  - split; [lia |]. intros j Hlo Hhi. lia.
  - apply (propagates_then run (repeat_body run n)); auto.
Qed.

Lemma repeat_while_propagates run n :
  (forall k, propagates env k (run k)) ->
  forall k, propagates env k (repeat_while env run n k).
Proof.
  intros Hrun. induction n as [| n IH]; intros k; simpl.
  - apply (propagates_then (step env) (fun k1 => (Completed, k1))).
    + apply step_propagates.
    + intros k1. split; [lia |]. intros j Hlo Hhi. lia.
  - apply (propagates_then (step env)
             (fun k1 => match run k1 with
                        | (Completed, k2) => repeat_while env run n k2
                        | raised => raised
                        end)).
    + apply step_propagates.
    + intros k1. apply (propagates_then run (repeat_while env run n)); auto.
Qed.

Lemma exec_block_propagates_from ss :
  Forall (fun s => handles_errors s = false -> forall k, propagates env k (exec env s k)) ss ->
  no_error_handling ss = true ->
  forall k, propagates env k (exec_block env ss k).
Proof.
  induction 1 as [| s rest Hs _ IH]; intros Hno k; simpl.
  - split; [lia |]. intros j Hlo Hhi. lia.
  - unfold no_error_handling in Hno. simpl in Hno.
    apply andb_prop in Hno as [Hs' Hrest].
    apply negb_true_iff in Hs'.
    apply (propagates_then (exec env s) (exec_block env rest)); auto.
Qed.

Lemma existsb_false_no_error_handling body :
  existsb handles_errors body = false -> no_error_handling body = true.
Proof.
  unfold no_error_handling. induction body as [| s rest IH]; simpl; auto.
  intros H. apply orb_false_elim in H as [Hs Hrest].
  rewrite Hs. simpl. auto.
Qed.

Lemma exec_propagates s :
  handles_errors s = false -> forall k, propagates env k (exec env s k).
Proof.
  induction s as [m a | m ns | l | v | t v | t op v | t i body IH | c body IH
                 | c body orelse IH1 IH2 | body handlers finalbody | item body
                 | f ps body IH | c body IH] using stmt_body_ind;
    intros Hno k; try (apply step_propagates); try discriminate.
  - rewrite exec_For. simpl in Hno.
    apply (propagates_then (step env)
             (repeat_body (exec_block env body) (trips exn env k))).
    + apply step_propagates.
    + apply repeat_body_propagates. apply exec_block_propagates_from; auto.
      now apply existsb_false_no_error_handling.
  - rewrite exec_While. simpl in Hno.
    apply repeat_while_propagates. apply exec_block_propagates_from; auto.
    now apply existsb_false_no_error_handling.
  - rewrite exec_If. simpl in Hno.
    apply orb_false_elim in Hno as [Hb Ho].
    apply (propagates_then (step env)
             (fun k1 => if taken exn env k then exec_block env body k1
                        else exec_block env orelse k1)).
    + apply step_propagates.
    + intros k1. destruct (taken exn env k).
      * apply exec_block_propagates_from; auto.
        now apply existsb_false_no_error_handling.
      * apply exec_block_propagates_from; auto.
        now apply existsb_false_no_error_handling.
  - rewrite exec_ClassDef. simpl in Hno.
    apply (propagates_then (step env) (exec_block env body)).
    + apply step_propagates.
    + apply exec_block_propagates_from; auto.
      now apply existsb_false_no_error_handling.
Qed.

(** A block without [try] and [with] reports the first exception the
    library raises, unchanged, and stops there. *)
Lemma exec_block_propagates ss :
  no_error_handling ss = true -> forall k, propagates env k (exec_block env ss k).
Proof.
  intros Hno. apply exec_block_propagates_from; auto.
  apply Forall_forall. intros s _. apply exec_propagates.
Qed.

End Propagation.

(** ** Arrays *)

Section ArrayFacts.

Context {num : Type} `{Scalar num}.

Lemma nth_error_minimum_elements (a b : list num) i x y :
  nth_error a i = Some x ->
  nth_error b i = Some y ->
  nth_error (minimum_elements a b) i = Some (if leb x y then x else y).
Proof.
  revert b i. induction a as [| x0 a IH]; intros [| y0 b] [| i] Ha Hb;
    simpl in *; try discriminate.
  - now inversion Ha; inversion Hb.
  - now apply IH.
Qed.

Lemma minimum_elements_inv (a b : list num) i m :
  nth_error (minimum_elements a b) i = Some m ->
  exists x y, nth_error a i = Some x /\ nth_error b i = Some y
              /\ m = if leb x y then x else y.
Proof.
  revert b i. induction a as [| x0 a IH]; intros [| y0 b] [| i] Hm;
    simpl in *; try discriminate.
  - inversion Hm. now exists x0, y0.
  - now apply IH.
Qed.

Lemma length_minimum_elements (a b : list num) :
  List.length a = List.length b ->
  List.length (minimum_elements a b) = List.length a.
Proof.
  revert b. induction a as [| x a IH]; intros [| y b] Hl; simpl in *; try discriminate; auto.
Qed.

Lemma length_write i v (a : list num) : List.length (write i v a) = List.length a.
Proof.
  revert i. induction a as [| x a IH]; intros [| i]; simpl; auto.
Qed.

Lemma nth_error_write_same i v (a : list num) :
  i < List.length a -> nth_error (write i v a) i = Some v.
Proof.
  revert i. induction a as [| x a IH]; intros [| i] Hi; simpl in *; try lia; auto.
  apply IH. lia.
Qed.

Lemma nth_error_write_other i j v (a : list num) :
  i <> j -> nth_error (write i v a) j = nth_error a j.
Proof.
  revert i j. induction a as [| x a IH]; intros [| i] [| j] Hij; simpl; auto;
    try congruence.
Qed.

Lemma length_scatter idx vals (a : list num) :
  List.length (scatter idx vals a) = List.length a.
Proof.
  revert vals a. induction idx as [| i idx IH]; intros [| v vals] a; simpl; auto.
  rewrite IH. apply length_write.
Qed.

(** Scattering values gathered from [a0] and incremented by [c] into an
    array that already holds the increment at the nodes [touched]. *)
Lemma scatter_incremented c idx :
  forall vals (a0 acc : list num) (touched : nat -> bool),
    gather a0 idx = Some vals ->
    List.length acc = List.length a0 ->
    (forall i x, nth_error a0 i = Some x ->
                 nth_error acc i = Some (if touched i then add x c else x)) ->
    forall i x, nth_error a0 i = Some x ->
      nth_error (scatter idx (map (fun v => add v c) vals) acc) i
      = Some (if touched i || existsb (Nat.eqb i) idx then add x c else x).
Proof.
  induction idx as [| i0 idx IH]; intros vals a0 acc touched Hg Hlen Hacc i x Hi.
  - simpl in *. inversion Hg; subst. simpl. rewrite orb_false_r. now apply Hacc.
  - simpl in Hg.
    destruct (nth_error a0 i0) as [x0 |] eqn:Hx0; try discriminate.
    destruct (gather a0 idx) as [vals' |] eqn:Hg'; try discriminate.
    inversion Hg; subst vals. simpl.
    rewrite (IH vals' a0 (write i0 (add x0 c) acc)
               (fun j => touched j || Nat.eqb j i0) Hg') with (x := x); auto.
    + now rewrite orb_assoc.
    + now rewrite length_write.
    + intros j y Hj. destruct (Nat.eqb_spec j i0) as [-> | Hne].
      * rewrite orb_true_r.
        rewrite nth_error_write_same.
        -- congruence.
        -- rewrite Hlen. apply nth_error_Some. congruence.
      * rewrite orb_false_r. rewrite nth_error_write_other by congruence.
        now apply Hacc.
Qed.

Lemma iadd_at_spec (a a' : list num) idx c :
  iadd_at a idx c = Some a' ->
  List.length a' = List.length a
  /\ forall i x, nth_error a i = Some x ->
       nth_error a' i = Some (if existsb (Nat.eqb i) idx then add x c else x).
Proof.
  unfold iadd_at. destruct (gather a idx) as [vals |] eqn:Hg; try discriminate.
  intros Ha'. inversion Ha'; subst a'. split.
  - apply length_scatter.
  - intros i x Hi.
    rewrite (scatter_incremented c idx vals a a (fun _ => false) Hg eq_refl) with (x := x);
      auto.
Qed.

Lemma gather_total (a : list num) idx :
  Forall (fun i => i < List.length a) idx -> exists vals, gather a idx = Some vals.
Proof.
  induction 1 as [| i idx Hi _ [vals IH]]; simpl.
  - now exists [].
  - apply nth_error_Some in Hi.
    destruct (nth_error a i) as [x |]; try congruence.
    rewrite IH. now exists (x :: vals).
Qed.

Lemma iadd_at_total (a : list num) idx c :
  Forall (fun i => i < List.length a) idx -> exists a', iadd_at a idx c = Some a'.
Proof.
  intros Hidx. unfold iadd_at.
  destruct (gather_total a idx Hidx) as [vals ->]. eauto.
Qed.

Variable core_nodes : list nat.
Variables U dt : num.

(** The reset succeeds on fields of one shape, leaves the topography
    alone and takes the smaller value at every node. *)
Lemma reset_spec n_nodes (g : at_node num) :
  well_shaped n_nodes g ->
  exists g', reset g = Some g'
    /\ topographic__elevation g' = topographic__elevation g
    /\ soil__depth g' = soil__depth g
    /\ List.length (bedrock__elevation g') = n_nodes
    /\ forall i b z,
         nth_error (bedrock__elevation g) i = Some b ->
         nth_error (topographic__elevation g) i = Some z ->
         nth_error (bedrock__elevation g') i = Some (if leb b z then b else z).
Proof.
  intros [Hz Hb]. unfold reset, np_minimum.
  rewrite Hz, Hb, Nat.eqb_refl. eexists. split; [reflexivity |]. simpl.
  repeat split.
  - rewrite length_minimum_elements; congruence.
  - intros i b z Hbi Hzi. now apply nth_error_minimum_elements.
Qed.

(** Adding the same increment to both fields at the same nodes keeps
    bedrock below the surface. *)
Lemma uplift_keeps_order (g g' : at_node num) :
  uplift core_nodes U dt g = Some g' ->
  bedrock_below_surface g ->
  bedrock_below_surface g'.
Proof.
  unfold uplift.
  destruct (iadd_at (topographic__elevation g) core_nodes (mul U dt)) as [z' |] eqn:Hz;
    try discriminate.
  destruct (iadd_at (bedrock__elevation g) core_nodes (mul U dt)) as [b' |] eqn:Hb;
    try discriminate.
  intros Hg' Hbelow. inversion Hg'; subst g'. clear Hg'.
  apply iadd_at_spec in Hz as [Hlz Hz]. apply iadd_at_spec in Hb as [Hlb Hb].
  intros i b z Hbi Hzi. simpl in Hbi, Hzi.
  assert (Hib : i < List.length (bedrock__elevation g)).
  { rewrite <- Hlb. apply nth_error_Some. congruence. }
  assert (Hiz : i < List.length (topographic__elevation g)).
  { rewrite <- Hlz. apply nth_error_Some. congruence. }
  apply nth_error_Some in Hib, Hiz.
  destruct (nth_error (bedrock__elevation g) i) as [b0 |] eqn:Hb0; try congruence.
  destruct (nth_error (topographic__elevation g) i) as [z0 |] eqn:Hz0; try congruence.
  rewrite (Hb i b0 Hb0) in Hbi. rewrite (Hz i z0 Hz0) in Hzi.
  inversion Hbi; inversion Hzi; subst.
  pose proof (Hbelow i b0 z0 Hb0 Hz0) as Hle.
  destruct (existsb (Nat.eqb i) core_nodes); auto.
  now apply add_mono.
Qed.

Lemma uplift_total n_nodes (g : at_node num) :
  well_shaped n_nodes g ->
  Forall (fun i => i < n_nodes) core_nodes ->
  exists g', uplift core_nodes U dt g = Some g' /\ well_shaped n_nodes g'.
Proof.
  intros [Hz Hb] Hcore. unfold uplift.
  destruct (iadd_at_total (topographic__elevation g) core_nodes (mul U dt)) as [z' Hz'].
  { now rewrite Hz. }
  destruct (iadd_at_total (bedrock__elevation g) core_nodes (mul U dt)) as [b' Hb'].
  { now rewrite Hb. }
  rewrite Hz', Hb'. eexists. split; [reflexivity |].
  apply iadd_at_spec in Hz' as [Hlz _]. apply iadd_at_spec in Hb' as [Hlb _].
  split; simpl; congruence.
Qed.

End ArrayFacts.

(** ** The notebooks as a whole *)

Lemma in_repository_cases (P : notebook -> Prop) :
  P network_sediment_transporter_shapefile_network ->
  P set_BCs_interior_rectangle ->
  P flexure_1d ->
  P normal_fault ->
  forall nb, In nb repository -> P nb.
Proof.
  intros H1 H2 H3 H4 nb [<- | [<- | [<- | [<- | []]]]]; assumption.
Qed.

Lemma forallb_In {A : Type} (f : A -> bool) (l : list A) (x : A) :
  forallb f l = true -> In x l -> f x = true.
Proof.
  intros Hall Hx. rewrite forallb_forall in Hall. now apply Hall.
Qed.

(** C1, as stated, fails: the boundary-condition notebook has neither a
    component nor a timestep loop, so the six phases do not all occur
    in it. *)
Lemma pipeline_not_in_every_notebook :
  ~ (forall nb, In nb repository -> follows_pipeline nb = true).
Proof.
  intros Hall.
  assert (Hbc : follows_pipeline set_BCs_interior_rectangle = true).
  { apply Hall. right. left. reflexivity. }
  vm_compute in Hbc. discriminate.
Qed.

(** C1 (amended): every notebook starts with an import, ends with a
    plotting call, and imports, builds a grid, attaches a field and
    plots in this order.  The sediment-transport and NormalFault
    notebooks go through all six phases in the order of the pipeline.
    The flexure notebook constructs its component between field and
    plot but has no loop: it calls the component's [update] three times
    directly.  The boundary-condition notebook constructs no component
    and has no loop. *)
Theorem notebook_phases :
  Forall (fun nb =>
            hd_error (phase_trace nb) = Some ImportLibrary
            /\ last (phase_trace nb) ImportLibrary = Visualize
            /\ subsequence [ImportLibrary; BuildGrid; AttachFields; Visualize]
                 (phase_trace nb) = true)
    repository
  /\ follows_pipeline network_sediment_transporter_shapefile_network = true
  /\ follows_pipeline normal_fault = true
  /\ (subsequence [ImportLibrary; BuildGrid; AttachFields; ConstructComponent; Visualize]
        (phase_trace flexure_1d) = true
      /\ filter is_loop (all_statements flexure_1d) = []
      /\ List.length (step_calls flexure_1d) = 3)
  /\ (has_phase ConstructComponent set_BCs_interior_rectangle = false
      /\ filter is_loop (all_statements set_BCs_interior_rectangle) = []
      /\ step_calls set_BCs_interior_rectangle = []).
Proof.
  split.
  - apply Forall_forall. apply in_repository_cases; vm_compute; auto.
  - vm_compute. repeat split.
Qed.

(** C2: no cell of any notebook contains a [try] statement or a [with]
    block, at any depth; hence, whatever the library does, running a
    cell either completes with no step having raised, or stops at the
    first step that raises and reports exactly the exception raised
    there. *)
Theorem failures_reach_the_notebook :
  forall nb, In nb repository ->
  forall src, In src (code_cells nb) ->
    no_error_handling src = true
    /\ forall (exn : Type) (env : environment exn) (k : nat),
         propagates env k (exec_block env src k).
Proof.
  intros nb Hnb src Hsrc.
  assert (Hno : no_error_handling src = true).
  { revert nb Hnb src Hsrc.
    apply (in_repository_cases
             (fun nb => forall src, In src (code_cells nb) -> no_error_handling src = true));
      intros src Hsrc;
      refine (forallb_In no_error_handling _ src _ Hsrc); vm_compute; reflexivity. }
  split; [exact Hno |].
  intros exn env k. now apply exec_block_propagates.
Qed.

(** The theorem on the last model cell of the NormalFault notebook,
    with a library that fails at step 20. *)
Lemma failures_reach_the_notebook_witness :
  In normal_fault repository
  /\ In final_model_cell (code_cells normal_fault)
  /\ no_error_handling final_model_cell = true
  /\ propagates failing_library 0 (exec_block failing_library final_model_cell 0).
Proof.
  assert (Hnb : In normal_fault repository).
  { right. right. right. left. reflexivity. }
  assert (Hcell : In final_model_cell (code_cells normal_fault)).
  { do 13 right. left. reflexivity. }
  destruct (failures_reach_the_notebook normal_fault Hnb final_model_cell Hcell)
    as [Hno Hprop].
  repeat split; auto.
Defined.

(** The one place where a notebook touches diagnostics is the call
    [warnings.filterwarnings("ignore")], an expression statement like
    any other: it silences warnings and intercepts no exception. *)
Example warnings_are_only_filtered :
  flat_map (fun nb => map (fun c => (method_name c, args c, keywords c))
                        (filter (fun c => match receiver c with
                                          | Some r => String.eqb r "warnings"
                                          | None => false
                                          end) (all_calls nb)))
    repository
  = [(Some "filterwarnings", [EStr "ignore"], [])].
Proof. vm_compute. reflexivity. Qed.

(** The run of that cell stops at step 20 with the library's exception. *)
Example final_model_cell_fails :
  exec_block failing_library final_model_cell 0 = (Raised "ValueError", 21).
Proof. vm_compute. reflexivity. Qed.

(** With a handler the same failure would not reach the notebook. *)
Example handler_intercepts :
  exec_block failing_library [Try final_model_cell [[Expr $"pass"]] []] 0
  = (Completed, 22).
Proof. vm_compute. reflexivity. Qed.

(** C3, as stated, fails: the flexure notebook stores into the
    component instance [flex], which is not the grid and which other
    cells use. *)
Lemma grid_not_the_only_shared_state :
  ~ (forall nb, In nb repository -> only_grid_is_shared nb = true).
Proof.
  intros Hall.
  assert (Hflex : only_grid_is_shared flexure_1d = true).
  { apply Hall. right. right. left. reflexivity. }
  vm_compute in Hflex. discriminate.
Qed.

(** C3 (amended): in the boundary-condition and NormalFault notebooks
    every store that another cell can observe goes through the grid
    object.  The flexure notebook also stores into the component
    instance [flex] (among others [flex.eet *= 2.0]), and the
    sediment-transport notebook stores into the value array of the
    data record [parcels]; both objects are used by other cells.  The
    only other object stored into, [parcelfilter], is created and used
    within one cell. *)
Theorem stores_shared_between_cells :
  only_grid_is_shared set_BCs_interior_rectangle = true
  /\ only_grid_is_shared normal_fault = true
  /\ shared_mutated_objects flexure_1d = ["flex"]
  /\ In {| in_cell := 13; object := "flex"; target := EAttr $"flex" "eet" |}
       (mutations flexure_1d)
  /\ dedup (flat_map stored_attribute (mutations flexure_1d))
     = ["eet"; "load_at_node"; "dz_at_node"]
  /\ List.length
       (stores_through "parcel_vol_on_grid" "parcels"
          network_sediment_transporter_shapefile_network) = 1
  /\ shared_mutated_objects network_sediment_transporter_shapefile_network = ["parcels"]
  /\ local_mutated_objects network_sediment_transporter_shapefile_network = ["parcelfilter"]
  /\ map (fun nb => dedup (grid_names nb)) repository = [["grid"]; ["mg"]; ["grid"]; ["grid"]].
Proof.
  repeat split; try (vm_compute; reflexivity).
  do 2 right. left. reflexivity.
Qed.

(** C4, as stated, fails: calls pass values that earlier code of the
    notebook computed, the grid first of all. *)
Lemma calls_pass_computed_values :
  ~ (forall nb, In nb repository -> forallb literal_arguments (all_calls nb) = true).
Proof.
  intros Hall.
  assert (Hnf : forallb literal_arguments (all_calls normal_fault) = true).
  { apply Hall. right. right. right. left. reflexivity. }
  vm_compute in Hnf. discriminate.
Qed.

(** C4 (amended): every name a notebook reads, in the arguments of a
    call or elsewhere, was bound by an earlier statement of the same
    notebook (an import, an assignment, a loop variable) or is a
    builtin.  The grid constructions with [RasterModelGrid] are written
    with literal arguments only.  Every component constructor receives
    the grid variable as its first argument, and the third NormalFault
    model is constructed from the arrays [time] and [rate] that an
    earlier cell computed. *)
Theorem call_arguments :
  Forall (fun nb =>
            reads_only_bound_names nb = true
            /\ forallb literal_arguments (calls_to "RasterModelGrid" nb) = true
            /\ forallb (constructs_on_grid nb) (all_calls nb) = true)
    repository
  /\ existsb (fun c => passes "time" c && passes "rate" c) (calls_to "NormalFault" normal_fault)
     = true
  /\ mem "time" (computed_names (statements normal_fault)) = true
  /\ mem "rate" (computed_names (statements normal_fault)) = true.
Proof.
  split.
  - apply Forall_forall. apply in_repository_cases; vm_compute; auto.
  - vm_compute. auto.
Qed.

(** C5, as stated, fails: [fr.run_one_step()] and [flex.update()] take
    no argument, and [imshow_grid(grid, z)] is given an array, not a
    field name. *)
Lemma interfaces_not_as_described :
  ~ (forall nb, In nb repository -> interfaces_as_described nb = true).
Proof.
  intros Hall.
  assert (Hnf : interfaces_as_described normal_fault = true).
  { apply Hall. right. right. right. left. reflexivity. }
  vm_compute in Hnf. discriminate.
Qed.

(** C5 (amended): a step call is either [obj.step(dt)], on [nf], [fs],
    [dd] and [nst], or [obj.step()] without argument, on [fr], [fd],
    [flex] and [ew].  Every call of a Landlab plotting helper passes the
    grid first; what follows is a field name in three calls (all in the
    NormalFault notebook), a variable or an expression in nine, and
    nothing in one. *)
Theorem step_and_plot_calls :
  Forall (fun nb =>
            forallb step_call_shape (step_calls nb) = true
            /\ forallb (first_is_grid nb) (helper_calls nb) = true)
    repository
  /\ map (count_drawn FieldName) repository = [0; 0; 0; 3]
  /\ map (count_drawn Value) repository = [1; 1; 0; 7]
  /\ map (count_drawn Nothing) repository = [1; 0; 0; 0].
Proof.
  split.
  - apply Forall_forall. apply in_repository_cases; vm_compute; auto.
  - vm_compute. auto.
Qed.

(** C6, as stated, fails: cells of the sediment-transport and
    NormalFault notebooks contain loops of their own. *)
Lemma cells_contain_loops :
  ~ (forall nb, In nb repository -> forallb no_own_logic (code_cells nb) = true).
Proof.
  intros Hall.
  assert (Hnf : forallb no_own_logic (code_cells normal_fault) = true).
  { apply Hall. right. right. right. left. reflexivity. }
  vm_compute in Hnf. discriminate.
Qed.

(** C6 (amended): no notebook defines a function or a class, branches,
    or uses [while], [try] or [with].  Every statement of a cell is an
    import, an IPython magic, a call, the display of an attribute (or
    of a tuple of attributes), an assignment (plain, to a subscript or
    an attribute, or augmented), or a [for] loop over [range(...)]
    whose body consists of calls and assignments.  The magics are
    [%matplotlib inline] in three notebooks and [?ExponentialWeatherer];
    the displays are [grid.number_of_links], [grid.number_of_nodes],
    [grid.dy, grid.dx], [Flexure1D.input_var_names] and
    [Flexure1D.output_var_names].  There are five loops, none nested.
    The one of the sediment-transport notebook only calls
    [run_one_step] and [print]; each of the four of the NormalFault
    notebook also updates an array in place with arithmetic written in
    the notebook, as in [z[grid.core_nodes] += U * dt]. *)
Theorem cells_are_calls_and_flat_loops :
  Forall (fun nb =>
            forallb (fun s => negb (defines_or_branches s)) (all_statements nb) = true
            /\ forallb classified (statements nb) = true)
    repository
  /\ map magics repository
     = [["%matplotlib inline"]; ["%matplotlib inline"]; [];
        ["%matplotlib inline"; "?ExponentialWeatherer"]]
  /\ map displays repository
     = [[EAttr $"grid" "number_of_links"; EAttr $"grid" "number_of_nodes"];
        [];
        [ETuple [EAttr $"grid" "dy"; EAttr $"grid" "dx"];
         EAttr $"Flexure1D" "input_var_names"; EAttr $"Flexure1D" "output_var_names"];
        []]
  /\ map (count_kind ALoop) repository = [1; 0; 0; 4]
  /\ map (fun nb => List.length (loops nb)) repository = [1; 0; 0; 4]
  /\ (forallb only_calls (loops network_sediment_transporter_shapefile_network) = true
      /\ map called_in_body (loops network_sediment_transporter_shapefile_network)
         = [["run_one_step"; "print"]]
      /\ existsb updates_in_place (loops network_sediment_transporter_shapefile_network)
         = false)
  /\ forallb updates_in_place (loops normal_fault) = true.
Proof.
  split.
  - apply Forall_forall. apply in_repository_cases; vm_compute; auto.
  - vm_compute. repeat split.
Qed.

(** C7: every document of the repository is a Jupyter notebook with a
    Python kernel, each demonstrates exactly one use case, named in its
    main heading, and the four notebooks cover the four use cases:
    sediment transport in a river network, lithospheric flexure,
    boundary-condition setup and normal-fault uplift. *)
Theorem repository_is_four_tutorials :
  forallb is_jupyter_notebook repository = true
  /\ map demonstrates repository
     = [[SedimentTransport]; [BoundaryConditionSetup]; [LithosphericFlexure];
        [NormalFaultUplift]]
  /\ forallb (fun nb => forallb (fun u => contains (keyword u) (headline nb)) (demonstrates nb))
       repository = true
  /\ (forall u : use_case, exists nb, In nb repository /\ demonstrates nb = [u]).
Proof.
  repeat split; try (vm_compute; reflexivity).
  intros [| | |].
  - exists network_sediment_transporter_shapefile_network. split; [| vm_compute; reflexivity].
    left. reflexivity.
  - exists flexure_1d. split; [| vm_compute; reflexivity].
    right. right. left. reflexivity.
  - exists set_BCs_interior_rectangle. split; [| vm_compute; reflexivity].
    right. left. reflexivity.
  - exists normal_fault. split; [| vm_compute; reflexivity].
    right. right. right. left. reflexivity.
Qed.

(** ** The arithmetic written in the notebooks *)

(** The final model cell runs with [dt = 100] and [U = 0.0001], set by
    the parameter cell before it. *)
Example final_model_parameters :
  parameter_at normal_fault 13 "dt" = Some 100%Q
  /\ parameter_at normal_fault 13 "U" = Some 0.0001%Q.
Proof. vm_compute. auto. Qed.

(** The loop of that cell runs 300 times; its body calls, in this
    order, the fault, the flow router and the eroder, resets the
    bedrock with [np.minimum], calls the weatherer and the diffuser,
    and stores into [b], [z] and [b]. *)
Example final_model_loop :
  match final_model_cell with
  | [_; _; _; _; _; _; _; _; _; _; _; For _ it body; _] =>
      it = call $"range" [ENum 300]
      /\ map (fun c => (receiver c, method_name c)) (flat_map calls_of_stmt body)
         = [(Some "nf", Some "run_one_step"); (Some "fr", Some "run_one_step");
            (Some "fs", Some "run_one_step"); (Some "np", Some "minimum");
            (Some "ew", Some "calc_soil_prod_rate"); (Some "dd", Some "run_one_step")]
      /\ flat_map (fun s => match store_target s with
                            | Some t => match root t with Some r => [r] | None => [] end
                            | None => []
                            end) body
         = ["b"; "z"; "b"]
  | _ => False
  end.
Proof. vm_compute. auto. Qed.

(** C8: in every iteration of the final NormalFault loop, whatever the
    components did before, the reset [b[:] = np.minimum(b, z)] succeeds
    and leaves bedrock at or below the topography at every node; it
    does not touch the topography, nor the bedrock of a node that was
    already at or below it; and the uplift of both fields by [U * dt]
    on the core nodes succeeds and keeps bedrock at or below the
    topography wherever that held before. *)
Theorem bedrock_stays_below_surface :
  forall (num : Type) (S : Scalar num)
         (nf_run_one_step : num -> at_node num -> option (at_node num))
         (fr_run_one_step : at_node num -> option (at_node num))
         (fs_run_one_step : num -> at_node num -> option (at_node num))
         (ew_calc_soil_prod_rate : at_node num -> option (at_node num))
         (dd_run_one_step : num -> at_node num -> option (at_node num))
         (core_nodes : list nat) (U dt : num) (n_nodes k : nat)
         (g0 g g1 : at_node num),
    k < 300 ->
    loop nf_run_one_step fr_run_one_step fs_run_one_step ew_calc_soil_prod_rate
      dd_run_one_step core_nodes U dt k g0 = Some g ->
    fault_route_erode nf_run_one_step fr_run_one_step fs_run_one_step dt g = Some g1 ->
    well_shaped n_nodes g1 ->
    exists g2,
      reset g1 = Some g2
      /\ bedrock_below_surface g2
      /\ topographic__elevation g2 = topographic__elevation g1
      /\ (forall i b z,
            nth_error (bedrock__elevation g1) i = Some b ->
            nth_error (topographic__elevation g1) i = Some z ->
            leb b z = true ->
            nth_error (bedrock__elevation g2) i = Some b)
      /\ (forall g3,
            well_shaped n_nodes g3 ->
            Forall (fun i => i < n_nodes) core_nodes ->
            bedrock_below_surface g3 ->
            exists g4,
              uplift core_nodes U dt g3 = Some g4 /\ bedrock_below_surface g4).
Proof.
  intros num S nf fr fs ew dd core U dt n_nodes k g0 g g1 _ _ _ Hshape.
  destruct (reset_spec n_nodes g1 Hshape) as (g2 & Hreset & Hz & _ & _ & Hmin).
  exists g2. repeat split; auto.
  - intros i b z Hb Hzi. rewrite Hz in Hzi.
    pose proof Hreset as Hr. unfold reset, np_minimum in Hr.
    destruct (Nat.eqb _ _); try discriminate. inversion Hr; subst g2. simpl in *.
    apply minimum_elements_inv in Hb as (b1 & z1 & Hb1 & Hz1 & ->).
    assert (z1 = z) by congruence. subst z1.
    destruct (leb b1 z) eqn:Hle; auto. apply leb_refl.
  - intros i b z Hb Hzi Hle. rewrite (Hmin i b z Hb Hzi). now rewrite Hle.
  - intros g3 Hshape3 Hcore Hbelow.
    destruct (uplift_total core U dt n_nodes g3 Hshape3 Hcore) as (g4 & Hup & _).
    exists g4. split; auto. eapply uplift_keeps_order; eauto.
Qed.

(** The theorem on the sample grid, in the second iteration. *)
Lemma bedrock_stays_below_surface_witness :
  exists g g1 : at_node Q,
    1 < 300
    /\ loop sample_eroder sample_idle sample_eroder sample_idle sample_eroder
         sample_core_nodes 0.0001%Q 100%Q 1 sample_fields = Some g
    /\ fault_route_erode sample_eroder sample_idle sample_eroder 100%Q g = Some g1
    /\ well_shaped 4 g1
    /\ exists g2,
         reset g1 = Some g2
         /\ bedrock_below_surface g2
         /\ topographic__elevation g2 = topographic__elevation g1
         /\ (forall i b z,
               nth_error (bedrock__elevation g1) i = Some b ->
               nth_error (topographic__elevation g1) i = Some z ->
               leb b z = true ->
               nth_error (bedrock__elevation g2) i = Some b)
         /\ (forall g3,
               well_shaped 4 g3 ->
               Forall (fun i => i < 4) sample_core_nodes ->
               bedrock_below_surface g3 ->
               exists g4,
                 uplift sample_core_nodes 0.0001%Q 100%Q g3 = Some g4
                 /\ bedrock_below_surface g4).
Proof.
  eexists. eexists.
  assert (Hk : 1 < 300) by lia.
  split; [exact Hk |].
  split; [vm_compute; reflexivity |].
  split; [vm_compute; reflexivity |].
  split; [split; reflexivity |].
  eapply (bedrock_stays_below_surface Q Q_scalar
            sample_eroder sample_idle sample_eroder sample_idle sample_eroder
            sample_core_nodes 0.0001%Q 100%Q 4 1 sample_fields _ _ Hk).
  - vm_compute. reflexivity.
  - vm_compute. reflexivity.
  - split; reflexivity.
Defined.

(** In the sample run the reset does lower the bedrock. *)
Example sample_reset_lowers_bedrock :
  match fault_route_erode sample_eroder sample_idle sample_eroder 100%Q sample_fields with
  | Some g1 =>
      match reset g1 with
      | Some g2 =>
          map Qred (bedrock__elevation g1) = [0; 100; 101; 0]%Q
          /\ map Qred (bedrock__elevation g2) = [-2; 98; 99; -2]%Q
      | None => False
      end
  | None => False
  end.
Proof. vm_compute. auto. Qed.

Lemma nth_error_assign_where (mask : list bool) (v : nat) (a : list nat) (i : nat) :
  nth_error (InteriorRectangle.assign_where mask v a) i
  = if nth i mask false then option_map (fun _ => v) (nth_error a i) else nth_error a i.
Proof.
  revert a i. induction mask as [| m mask IH]; intros [| x a] [| i]; simpl; auto;
    try (now destruct m); now destruct (nth i mask false).
Qed.

(** C9: on the 10 by 10 grid with unit spacing the mask built from
    [2.5 < x < 5.0] and [3.5 < y < 7.5] selects exactly the eight nodes
    with x in {3, 4} and y in {4, 5, 6, 7}; none of them is on the
    perimeter; assigning [BC_NODE_IS_CLOSED] under the mask changes the
    status of exactly these eight nodes, closes them, and leaves every
    other node, in particular every perimeter node, as it was. *)
Theorem interior_rectangle_closes_eight_nodes :
  (parameter (statements set_BCs_interior_rectangle) "min_x" = Some InteriorRectangle.min_x
   /\ parameter (statements set_BCs_interior_rectangle) "max_x" = Some InteriorRectangle.max_x
   /\ parameter (statements set_BCs_interior_rectangle) "min_y" = Some InteriorRectangle.min_y
   /\ parameter (statements set_BCs_interior_rectangle) "max_y" = Some InteriorRectangle.max_y)
  /\ map args (calls_to "RasterModelGrid" set_BCs_interior_rectangle)
     = [[ETuple [ENum 10; ENum 10]]]
  /\ List.length InteriorRectangle.my_nodes = 100
  /\ InteriorRectangle.selected InteriorRectangle.my_nodes = [43; 44; 53; 54; 63; 64; 73; 74]
  /\ map (fun i => (nth i (InteriorRectangle.x_of_node 10 10) 0%Q,
                    nth i (InteriorRectangle.y_of_node 10 10) 0%Q))
       (InteriorRectangle.selected InteriorRectangle.my_nodes)
     = [(3, 4); (4, 4); (3, 5); (4, 5); (3, 6); (4, 6); (3, 7); (4, 7)]%Q
  /\ forallb (fun i => negb (InteriorRectangle.is_perimeter 10 10 i))
       (InteriorRectangle.selected InteriorRectangle.my_nodes) = true
  /\ InteriorRectangle.changed (InteriorRectangle.status_at_node 10 10)
       (InteriorRectangle.close_rectangle (InteriorRectangle.status_at_node 10 10))
     = InteriorRectangle.selected InteriorRectangle.my_nodes
  /\ (forall i,
        nth_error (InteriorRectangle.close_rectangle (InteriorRectangle.status_at_node 10 10)) i
        = if nth i InteriorRectangle.my_nodes false
          then option_map (fun _ => InteriorRectangle.BC_NODE_IS_CLOSED)
                 (nth_error (InteriorRectangle.status_at_node 10 10) i)
          else nth_error (InteriorRectangle.status_at_node 10 10) i)
  /\ (forall i,
        InteriorRectangle.is_perimeter 10 10 i = true ->
        nth_error (InteriorRectangle.close_rectangle (InteriorRectangle.status_at_node 10 10)) i
        = nth_error (InteriorRectangle.status_at_node 10 10) i).
Proof.
  split; [vm_compute; auto |].
  split; [vm_compute; reflexivity |].
  split; [vm_compute; reflexivity |].
  split; [vm_compute; reflexivity |].
  split; [vm_compute; reflexivity |].
  split; [vm_compute; reflexivity |].
  split; [vm_compute; reflexivity |].
  split.
  - intros i. apply nth_error_assign_where.
  - intros i Hper. unfold InteriorRectangle.close_rectangle.
    rewrite nth_error_assign_where.
    destruct (nth i InteriorRectangle.my_nodes false) eqn:Hsel; auto.
    assert (Hi : In i (InteriorRectangle.selected InteriorRectangle.my_nodes)).
    { destruct (Nat.lt_ge_cases i 100) as [Hlt | Hge].
      - do 100 (destruct i as [| i]; [try discriminate Hsel; vm_compute; tauto |]).
        exfalso. lia.
      - rewrite nth_overflow in Hsel; [discriminate | exact Hge]. }
    assert (Hint : negb (InteriorRectangle.is_perimeter 10 10 i) = true).
    { refine (forallb_In (fun i => negb (InteriorRectangle.is_perimeter 10 10 i)) _ i _ Hi).
      vm_compute. reflexivity. }
    rewrite Hper in Hint. discriminate.
Qed.

(** Interpolation between two points of equal height is constant. *)
Lemma interp_at_constant (x1 c x : Q) :
  (CumulativeThrow.interp_at [0; x1] [c; c] x == c)%Q.
Proof.
  unfold CumulativeThrow.interp_at.
  destruct (Qle_bool x 0); [reflexivity |].
  simpl. destruct (Qle_bool x x1); [| reflexivity].
  unfold Qdiv. ring.
Qed.

Lemma np_interp_constant (xs : list Q) (x1 c : Q) :
  Forall (fun r => (r == c)%Q) (CumulativeThrow.np_interp xs [0%Q; x1] [c; c]).
Proof.
  unfold CumulativeThrow.np_interp. apply Forall_forall. intros r Hr.
  apply in_map_iff in Hr as (x & <- & _). apply interp_at_constant.
Qed.

(** The running sum of [n] values equal to [c] ends at [n * c]. *)
Lemma last_cumsum_constant (c : Q) (a : list Q) :
  Forall (fun r => (r == c)%Q) a ->
  a <> [] ->
  forall acc d,
    (last (CumulativeThrow.cumsum_from acc a) d
     == acc + inject_Z (Z.of_nat (List.length a)) * c)%Q.
Proof.
  induction 1 as [| x a Hx Ha IH]; intros Hne acc d; [congruence |].
  destruct a as [| y a].
  - simpl. rewrite Hx. ring.
  - change (last (CumulativeThrow.cumsum_from acc (x :: y :: a)) d)
      with (last (CumulativeThrow.cumsum_from (acc + x) (y :: a)) d).
    rewrite IH by discriminate.
    change (List.length (x :: y :: a)) with (S (List.length (y :: a))).
    rewrite Nat2Z.inj_succ. unfold Z.succ. rewrite inject_Z_plus, Hx. ring.
Qed.

Lemma last_scale (a : list Q) (c d : Q) :
  a <> [] ->
  last (CumulativeThrow.scale a c) d = (last a d * c)%Q.
Proof.
  induction a as [| x a IH]; intros Hne; [congruence |].
  destruct a as [| y a]; [reflexivity |].
  change (last (CumulativeThrow.scale (x :: y :: a) c) d)
    with (last (CumulativeThrow.scale (y :: a) c) d).
  rewrite IH by discriminate. reflexivity.
Qed.

Lemma cumsum_from_nonempty (acc : Q) (a : list Q) :
  a <> [] -> CumulativeThrow.cumsum_from acc a <> [].
Proof. destruct a; simpl; congruence. Qed.

Lemma length_cumsum_from (acc : Q) (a : list Q) :
  List.length (CumulativeThrow.cumsum_from acc a) = List.length a.
Proof.
  revert acc. induction a as [| x a IH]; intros acc; simpl; auto.
Qed.

(** C10: when the cumulative throw is computed the time step is
    [dt = 1000]; there are 300 sample times, the rate interpolated at
    each of them is 0.001, and in exact arithmetic the last element of
    [np.cumsum(rate_constant) * dt] is 300. *)
Theorem constant_rate_accumulates_300_m :
  parameter_at normal_fault 9 "dt" = Some (inject_Z 1000)
  /\ In (Assign $"cumulative_rock_uplift_constant"
           (EBinOp (np "cumsum" [$"rate_constant"]) Mult $"dt"))
       (nth 9 (code_cells normal_fault) [])
  /\ List.length (CumulativeThrow.t 1000) = 300
  /\ Forall (fun r => (r == 0.001)%Q) (CumulativeThrow.rate_constant 1000)
  /\ List.length (CumulativeThrow.cumulative_rock_uplift_constant 1000) = 300
  /\ (last (CumulativeThrow.cumulative_rock_uplift_constant 1000) 0 == 300)%Q.
Proof.
  assert (Hlen : List.length (CumulativeThrow.rate_constant 1000) = 300).
  { unfold CumulativeThrow.rate_constant, CumulativeThrow.np_interp.
    rewrite !length_map. vm_compute. reflexivity. }
  assert (Hne : CumulativeThrow.rate_constant 1000 <> []).
  { intros Hnil. rewrite Hnil in Hlen. discriminate. }
  assert (Hrate : Forall (fun r => (r == 0.001)%Q) (CumulativeThrow.rate_constant 1000)).
  { apply np_interp_constant. }
  split; [vm_compute; reflexivity |].
  split; [do 3 right; left; reflexivity |].
  split; [vm_compute; reflexivity |].
  split; [exact Hrate |].
  split.
  - unfold CumulativeThrow.cumulative_rock_uplift_constant, CumulativeThrow.scale,
      CumulativeThrow.np_cumsum.
    now rewrite length_map, length_cumsum_from.
  - unfold CumulativeThrow.cumulative_rock_uplift_constant, CumulativeThrow.np_cumsum.
    rewrite last_scale by now apply cumsum_from_nonempty.
    rewrite (last_cumsum_constant 0.001%Q) by assumption.
    rewrite Hlen. vm_compute. reflexivity.
Qed.

(** * Further properties of the code in the cells *)

(** ** The rectangle cell *)

Lemma nth_np_logical_and (a b : list bool) (i : nat) :
  nth i (InteriorRectangle.np_logical_and a b) false = nth i a false && nth i b false.
Proof.
  revert b i. induction a as [| x a IH]; intros [| y b] [| i]; simpl; auto.
  - now rewrite andb_false_r.
  - now rewrite andb_false_r.
Qed.

Lemma length_np_logical_and (a b : list bool) :
  List.length (InteriorRectangle.np_logical_and a b)
  = Nat.min (List.length a) (List.length b).
Proof.
  revert b. induction a as [| x a IH]; intros [| y b]; simpl; auto.
Qed.

Lemma nth_map_seq {A : Type} (f : nat -> A) (n i : nat) (d : A) :
  i < n -> nth i (map f (seq 0 n)) d = f i.
Proof.
  intros Hi. rewrite (nth_indep _ d (f 0)) by now rewrite length_map, length_seq.
  rewrite map_nth. now rewrite seq_nth.
Qed.

Lemma length_my_nodes rows cols min_x max_x min_y max_y :
  List.length (RectangleCell.my_nodes rows cols min_x max_x min_y max_y) = rows * cols.
Proof.
  unfold RectangleCell.my_nodes, RectangleCell.x_condition, RectangleCell.y_condition,
    InteriorRectangle.less, InteriorRectangle.greater,
    InteriorRectangle.x_of_node, InteriorRectangle.y_of_node,
    InteriorRectangle.number_of_nodes.
  rewrite !length_np_logical_and, !length_map, !length_seq. lia.
Qed.

(** The mask at a node of the grid, in terms of the node's column and
    row. *)
Lemma my_nodes_at rows cols min_x max_x min_y max_y i :
  i < rows * cols ->
  nth i (RectangleCell.my_nodes rows cols min_x max_x min_y max_y) false
  = (InteriorRectangle.Qltb (inject_Z (Z.of_nat (i mod cols))) max_x
     && InteriorRectangle.Qltb min_x (inject_Z (Z.of_nat (i mod cols))))
    && (InteriorRectangle.Qltb (inject_Z (Z.of_nat (i / cols))) max_y
        && InteriorRectangle.Qltb min_y (inject_Z (Z.of_nat (i / cols)))).
Proof.
  intros Hi.
  unfold RectangleCell.my_nodes, RectangleCell.x_condition, RectangleCell.y_condition,
    InteriorRectangle.less, InteriorRectangle.greater,
    InteriorRectangle.x_of_node, InteriorRectangle.y_of_node,
    InteriorRectangle.number_of_nodes.
  rewrite !nth_np_logical_and, !map_map.
  now rewrite !(nth_map_seq _ (rows * cols) i false Hi).
Qed.

Lemma my_nodes_outside rows cols min_x max_x min_y max_y i :
  rows * cols <= i ->
  nth i (RectangleCell.my_nodes rows cols min_x max_x min_y max_y) false = false.
Proof.
  intros Hi. apply nth_overflow. now rewrite length_my_nodes.
Qed.

Lemma Qltb_lt (x y : Q) : InteriorRectangle.Qltb x y = true <-> (x < y)%Q.
Proof.
  unfold InteriorRectangle.Qltb. rewrite negb_true_iff.
  split.
  - intros Hle. apply Qnot_le_lt. intros Hyx.
    apply Qle_bool_iff in Hyx. congruence.
  - intros Hlt. destruct (Qle_bool y x) eqn:Hle; auto.
    apply Qle_bool_iff in Hle. exfalso. eapply Qlt_not_le; eauto.
Qed.

(** The instance of the notebook is the cell at its own parameters. *)
Example my_nodes_of_the_notebook :
  InteriorRectangle.my_nodes
  = RectangleCell.my_nodes 10 10 InteriorRectangle.min_x InteriorRectangle.max_x
      InteriorRectangle.min_y InteriorRectangle.max_y.
Proof. reflexivity. Qed.

Lemma length_assign_where (mask : list bool) (v : nat) (a : list nat) :
  List.length (InteriorRectangle.assign_where mask v a) = List.length a.
Proof.
  revert a. induction mask as [| m mask IH]; intros [| x a]; simpl; auto.
Qed.

Lemma assign_where_twice (mask : list bool) (v : nat) (a : list nat) :
  InteriorRectangle.assign_where mask v (InteriorRectangle.assign_where mask v a)
  = InteriorRectangle.assign_where mask v a.
Proof.
  revert a. induction mask as [| m mask IH]; intros [| x a]; simpl; auto.
  rewrite IH. now destruct m.
Qed.

Lemma assign_where_nowhere (mask : list bool) (v : nat) (a : list nat) :
  (forall i, nth i mask false = false) ->
  InteriorRectangle.assign_where mask v a = a.
Proof.
  revert a. induction mask as [| m mask IH]; intros [| x a] Hmask; simpl; auto.
  pose proof (Hmask 0) as H0. simpl in H0. subst m.
  f_equal. apply IH. intros i. exact (Hmask (S i)).
Qed.

(** A selected node lies strictly inside the rectangle. *)
Lemma selected_is_inside (rows cols : nat) (min_x max_x min_y max_y : Q) (i : nat) :
  nth i (RectangleCell.my_nodes rows cols min_x max_x min_y max_y) false = true ->
  i < rows * cols
  /\ (min_x < inject_Z (Z.of_nat (i mod cols)))%Q
  /\ (inject_Z (Z.of_nat (i mod cols)) < max_x)%Q
  /\ (min_y < inject_Z (Z.of_nat (i / cols)))%Q
  /\ (inject_Z (Z.of_nat (i / cols)) < max_y)%Q.
Proof.
  destruct (Nat.lt_ge_cases i (rows * cols)) as [Hi | Hi].
  - rewrite my_nodes_at by exact Hi.
    rewrite !andb_true_iff, !Qltb_lt. tauto.
  - rewrite my_nodes_outside by exact Hi. discriminate.
Qed.

(** X1: a node is selected exactly if it is a node of the grid and
    its coordinates lie strictly inside the rectangle; a node on an
    edge of the rectangle is not selected. *)
Theorem rectangle_selects_strict_interior :
  forall (rows cols : nat) (min_x max_x min_y max_y : Q) (i : nat),
    nth i (RectangleCell.my_nodes rows cols min_x max_x min_y max_y) false = true
    <-> i < rows * cols
        /\ (min_x < inject_Z (Z.of_nat (i mod cols)))%Q
        /\ (inject_Z (Z.of_nat (i mod cols)) < max_x)%Q
        /\ (min_y < inject_Z (Z.of_nat (i / cols)))%Q
        /\ (inject_Z (Z.of_nat (i / cols)) < max_y)%Q.
Proof.
  intros rows cols min_x max_x min_y max_y i.
  destruct (Nat.lt_ge_cases i (rows * cols)) as [Hi | Hi].
  - rewrite my_nodes_at by exact Hi.
    rewrite !andb_true_iff, !Qltb_lt. tauto.
  - rewrite my_nodes_outside by exact Hi. split; [discriminate | lia].
Qed.

(** X2: a rectangle that does not reach beyond the outer rows and
    columns of the grid closes no perimeter node: the status of every
    perimeter node is what it was, whatever it was. *)
Theorem rectangle_within_grid_spares_perimeter :
  forall (rows cols : nat) (min_x max_x min_y max_y : Q) (status status' : list nat),
    (0 <= min_x)%Q ->
    (max_x <= inject_Z (Z.of_nat (cols - 1)))%Q ->
    (0 <= min_y)%Q ->
    (max_y <= inject_Z (Z.of_nat (rows - 1)))%Q ->
    RectangleCell.close_rectangle rows cols min_x max_x min_y max_y status = Some status' ->
    forall i,
      InteriorRectangle.is_perimeter rows cols i = true ->
      nth_error status' i = nth_error status i.
Proof.
  intros rows cols min_x max_x min_y max_y status status' Hx0 Hx1 Hy0 Hy1 Hclose i Hper.
  unfold RectangleCell.close_rectangle in Hclose.
  destruct (Nat.eqb _ _); try discriminate.
  inversion Hclose; subst status'. clear Hclose.
  rewrite nth_error_assign_where.
  destruct (nth i (RectangleCell.my_nodes rows cols min_x max_x min_y max_y) false)
    eqn:Hsel; auto.
  exfalso.
  apply selected_is_inside in Hsel as (_ & Hxl & Hxr & Hyl & Hyr).
  unfold InteriorRectangle.is_perimeter in Hper.
  rewrite !orb_true_iff, !Nat.eqb_eq in Hper.
  destruct Hper as [[[Hp | Hp] | Hp] | Hp]; rewrite Hp in *.
  - exact (Qlt_irrefl 0 (Qle_lt_trans _ _ _ Hx0 Hxl)).
  - exact (Qlt_irrefl max_x (Qle_lt_trans _ _ _ Hx1 Hxr)).
  - exact (Qlt_irrefl 0 (Qle_lt_trans _ _ _ Hy0 Hyl)).
  - exact (Qlt_irrefl max_y (Qle_lt_trans _ _ _ Hy1 Hyr)).
Qed.

(** The rectangle of the notebook on its grid, at the corner node 9. *)
Lemma rectangle_within_grid_spares_perimeter_witness :
  (0 <= 2.5)%Q
  /\ (5.0 <= inject_Z (Z.of_nat (10 - 1)))%Q
  /\ (0 <= 3.5)%Q
  /\ (7.5 <= inject_Z (Z.of_nat (10 - 1)))%Q
  /\ RectangleCell.close_rectangle 10 10 2.5 5.0 3.5 7.5
       (InteriorRectangle.status_at_node 10 10)
     = Some (InteriorRectangle.close_rectangle (InteriorRectangle.status_at_node 10 10))
  /\ InteriorRectangle.is_perimeter 10 10 9 = true
  /\ nth_error (InteriorRectangle.close_rectangle (InteriorRectangle.status_at_node 10 10)) 9
     = nth_error (InteriorRectangle.status_at_node 10 10) 9.
Proof.
  assert (Hx0 : (0 <= 2.5)%Q) by (intros H; discriminate H).
  assert (Hx1 : (5.0 <= inject_Z (Z.of_nat (10 - 1)))%Q) by (intros H; discriminate H).
  assert (Hy0 : (0 <= 3.5)%Q) by (intros H; discriminate H).
  assert (Hy1 : (7.5 <= inject_Z (Z.of_nat (10 - 1)))%Q) by (intros H; discriminate H).
  assert (Hclose : RectangleCell.close_rectangle 10 10 2.5 5.0 3.5 7.5
                     (InteriorRectangle.status_at_node 10 10)
                   = Some (InteriorRectangle.close_rectangle
                             (InteriorRectangle.status_at_node 10 10)))
    by reflexivity.
  assert (Hper : InteriorRectangle.is_perimeter 10 10 9 = true) by reflexivity.
  repeat (split; [assumption |]).
  exact (rectangle_within_grid_spares_perimeter 10 10 2.5 5.0 3.5 7.5 _ _
           Hx0 Hx1 Hy0 Hy1 Hclose 9 Hper).
Defined.

(** X3: on a status array with one entry per node the assignment
    succeeds, closes the selected nodes, leaves every other node as it
    was, keeps the length of the array, and doing it again changes
    nothing; on an array of any other length it is an error. *)
Theorem close_rectangle_effect :
  forall (rows cols : nat) (min_x max_x min_y max_y : Q) (status : list nat),
    (List.length status = rows * cols ->
     exists status',
       RectangleCell.close_rectangle rows cols min_x max_x min_y max_y status = Some status'
       /\ List.length status' = rows * cols
       /\ (forall i s,
             nth_error status i = Some s ->
             nth_error status' i
             = Some (if nth i (RectangleCell.my_nodes rows cols min_x max_x min_y max_y) false
                     then InteriorRectangle.BC_NODE_IS_CLOSED else s))
       /\ RectangleCell.close_rectangle rows cols min_x max_x min_y max_y status'
          = Some status')
    /\ (List.length status <> rows * cols ->
        RectangleCell.close_rectangle rows cols min_x max_x min_y max_y status = None).
Proof.
  intros rows cols min_x max_x min_y max_y status.
  unfold RectangleCell.close_rectangle. rewrite length_my_nodes. split.
  - intros Hlen. rewrite Hlen, Nat.eqb_refl.
    eexists. split; [reflexivity |].
    rewrite length_assign_where, Hlen, Nat.eqb_refl, assign_where_twice.
    repeat split; auto.
    intros i s Hs. rewrite nth_error_assign_where, Hs.
    now destruct (nth i _ false).
  - intros Hlen. destruct (Nat.eqb_spec (rows * cols) (List.length status)); congruence.
Qed.

(** X4: a rectangle with [max_x <= min_x] or [max_y <= min_y] is
    empty: no node is selected and the status array is left as it
    is. *)
Theorem empty_rectangle_changes_nothing :
  forall (rows cols : nat) (min_x max_x min_y max_y : Q) (status : list nat),
    (max_x <= min_x)%Q \/ (max_y <= min_y)%Q ->
    List.length status = rows * cols ->
    InteriorRectangle.selected (RectangleCell.my_nodes rows cols min_x max_x min_y max_y) = []
    /\ RectangleCell.close_rectangle rows cols min_x max_x min_y max_y status = Some status.
Proof.
  intros rows cols min_x max_x min_y max_y status Hempty Hlen.
  assert (Hnone : forall i,
             nth i (RectangleCell.my_nodes rows cols min_x max_x min_y max_y) false = false).
  { intros i.
    destruct (nth i _ false) eqn:Hsel; auto. exfalso.
    apply selected_is_inside in Hsel as (_ & Hxl & Hxr & Hyl & Hyr).
    destruct Hempty as [Hle | Hle].
    - apply (Qlt_irrefl min_x).
      eapply Qlt_le_trans; [| exact Hle]. eapply Qlt_trans; eauto.
    - apply (Qlt_irrefl min_y).
      eapply Qlt_le_trans; [| exact Hle]. eapply Qlt_trans; eauto. }
  split.
  - unfold InteriorRectangle.selected.
    generalize 0 at 1.
    induction (RectangleCell.my_nodes rows cols min_x max_x min_y max_y) as [| m mask IH].
    + reflexivity.
    + intros n. pose proof (Hnone 0) as H0. simpl in H0. subst m. simpl.
      apply IH. intros i. exact (Hnone (S i)).
  - unfold RectangleCell.close_rectangle.
    rewrite length_my_nodes, Hlen, Nat.eqb_refl.
    now rewrite assign_where_nowhere.
Qed.

(** A rectangle turned inside out on the grid of the notebook. *)
Lemma empty_rectangle_changes_nothing_witness :
  ((2.5 <= 5.0)%Q \/ (7.5 <= 3.5)%Q)
  /\ List.length (InteriorRectangle.status_at_node 10 10) = 10 * 10
  /\ RectangleCell.close_rectangle 10 10 5.0 2.5 3.5 7.5
       (InteriorRectangle.status_at_node 10 10)
     = Some (InteriorRectangle.status_at_node 10 10).
Proof.
  assert (Hempty : (2.5 <= 5.0)%Q \/ (7.5 <= 3.5)%Q).
  { left. intros H. discriminate H. }
  assert (Hlen : List.length (InteriorRectangle.status_at_node 10 10) = 10 * 10)
    by reflexivity.
  split; [exact Hempty |]. split; [exact Hlen |].
  exact (proj2 (empty_rectangle_changes_nothing 10 10 5.0 2.5 3.5 7.5 _ Hempty Hlen)).
Defined.

(** ** The final NormalFault loop *)

Section LoopFacts.

Context {num : Type} `{Scalar num}.

Lemma gather_fails (a : list num) idx :
  gather a idx = None <-> exists i, In i idx /\ List.length a <= i.
Proof.
  induction idx as [| i idx IH]; simpl.
  - split; [discriminate | intros (i & [] & _)].
  - destruct (nth_error a i) as [x |] eqn:Hx.
    + destruct (gather a idx) as [xs |].
      * split; [discriminate |].
        intros (j & [<- | Hj] & Hlen).
        -- apply nth_error_None in Hlen. congruence.
        -- assert (Hnone : @None (list num) = None) by reflexivity.
           destruct IH as [_ IH]. discriminate IH. eauto.
      * split; [| reflexivity]. intros _.
        destruct IH as [IH _]. destruct (IH eq_refl) as (j & Hj & Hlen). eauto.
    + split; [| reflexivity]. intros _. exists i. split; auto.
      now apply nth_error_None.
Qed.

Lemma iadd_at_fails (a : list num) idx c :
  iadd_at a idx c = None <-> exists i, In i idx /\ List.length a <= i.
Proof.
  unfold iadd_at. rewrite <- gather_fails.
  destruct (gather a idx); split; congruence.
Qed.

Lemma in_existsb_eqb (i : nat) (idx : list nat) :
  existsb (Nat.eqb i) idx = true <-> In i idx.
Proof.
  rewrite existsb_exists. split.
  - intros (j & Hj & Heq). apply Nat.eqb_eq in Heq. now subst.
  - intros Hi. exists i. split; auto. apply Nat.eqb_refl.
Qed.

Lemma minimum_elements_fixed (b z : list num) :
  List.length b = List.length z ->
  (forall i x y, nth_error b i = Some x -> nth_error z i = Some y -> leb x y = true) ->
  minimum_elements b z = b.
Proof.
  revert z. induction b as [| x b IH]; intros [| y z] Hlen Hle; simpl in *;
    try discriminate; auto.
  rewrite (Hle 0 x y eq_refl eq_refl). f_equal.
  apply IH; [congruence |]. intros i. exact (Hle (S i)).
Qed.

Lemma reset_orders (g g' : at_node num) :
  reset g = Some g' -> bedrock_below_surface g'.
Proof.
  unfold reset, np_minimum. destruct (Nat.eqb _ _); try discriminate.
  intros Hg'. inversion Hg'; subst g'. intros i b z Hb Hz. simpl in *.
  apply minimum_elements_inv in Hb as (b1 & z1 & Hb1 & Hz1 & ->).
  assert (z1 = z) by congruence. subst z1.
  destruct (leb b1 z) eqn:Hle; auto. apply leb_refl.
Qed.

Variable nf_run_one_step : num -> at_node num -> option (at_node num).
Variable fr_run_one_step : at_node num -> option (at_node num).
Variable fs_run_one_step : num -> at_node num -> option (at_node num).
Variable ew_calc_soil_prod_rate : at_node num -> option (at_node num).
Variable dd_run_one_step : num -> at_node num -> option (at_node num).
Variable core_nodes : list nat.
Variables U dt : num.

(** One iteration that runs to its end leaves bedrock below the
    surface, if weathering and diffusion keep it there. *)
Lemma iteration_orders (g g' : at_node num) :
  (forall g1 g2,
      bedrock_below_surface g1 ->
      weather_diffuse ew_calc_soil_prod_rate dd_run_one_step dt g1 = Some g2 ->
      bedrock_below_surface g2) ->
  iteration nf_run_one_step fr_run_one_step fs_run_one_step ew_calc_soil_prod_rate
    dd_run_one_step core_nodes U dt g = Some g' ->
  bedrock_below_surface g'.
Proof.
  intros Hlib. unfold iteration, and_then.
  destruct (fault_route_erode _ _ _ _ g) as [g1 |]; try discriminate.
  destruct (reset g1) as [g2 |] eqn:Hreset; try discriminate.
  destruct (weather_diffuse _ _ _ g2) as [g3 |] eqn:Hwd; try discriminate.
  intros Hup. eapply uplift_keeps_order; eauto.
  eapply Hlib; eauto. eapply reset_orders; eauto.
Qed.

End LoopFacts.

(** X5: the uplift adds [U * dt] to both fields at the core nodes,
    once per node however often the node is listed, leaves every other
    node and the soil depth as they were, and keeps the length of the
    fields. *)
Theorem uplift_moves_core_nodes_only :
  forall (num : Type) (S : Scalar num) (core_nodes : list nat) (U dt : num)
         (g g' : at_node num),
    uplift core_nodes U dt g = Some g' ->
    soil__depth g' = soil__depth g
    /\ List.length (topographic__elevation g') = List.length (topographic__elevation g)
    /\ List.length (bedrock__elevation g') = List.length (bedrock__elevation g)
    /\ (forall i z,
          nth_error (topographic__elevation g) i = Some z ->
          (In i core_nodes ->
           nth_error (topographic__elevation g') i = Some (add z (mul U dt)))
          /\ (~ In i core_nodes -> nth_error (topographic__elevation g') i = Some z))
    /\ (forall i b,
          nth_error (bedrock__elevation g) i = Some b ->
          (In i core_nodes ->
           nth_error (bedrock__elevation g') i = Some (add b (mul U dt)))
          /\ (~ In i core_nodes -> nth_error (bedrock__elevation g') i = Some b)).
Proof.
  intros num S core U dt g g'. unfold uplift.
  destruct (iadd_at (topographic__elevation g) core (mul U dt)) as [z' |] eqn:Hz;
    try discriminate.
  destruct (iadd_at (bedrock__elevation g) core (mul U dt)) as [b' |] eqn:Hb;
    try discriminate.
  intros Hg'. inversion Hg'; subst g'. clear Hg'. simpl.
  apply iadd_at_spec in Hz as [Hlz Hz]. apply iadd_at_spec in Hb as [Hlb Hb].
  repeat split; auto.
  - intros Hin. rewrite (Hz i z H).
    apply in_existsb_eqb in Hin. now rewrite Hin.
  - intros Hout. rewrite (Hz i z H).
    destruct (existsb (Nat.eqb i) core) eqn:Hex; auto.
    apply in_existsb_eqb in Hex. contradiction.
  - intros Hin. rewrite (Hb i b H).
    apply in_existsb_eqb in Hin. now rewrite Hin.
  - intros Hout. rewrite (Hb i b H).
    destruct (existsb (Nat.eqb i) core) eqn:Hex; auto.
    apply in_existsb_eqb in Hex. contradiction.
Qed.

(** The uplift of the sample grid. *)
Lemma uplift_moves_core_nodes_only_witness :
  uplift sample_core_nodes 0.0001%Q 100%Q sample_fields
  = Some {| topographic__elevation := [0; 100 + 0.0001 * 100; 101 + 0.0001 * 100; 0]%Q;
            soil__depth := [0; 0; 0; 0]%Q;
            bedrock__elevation := [0; 100 + 0.0001 * 100; 101 + 0.0001 * 100; 0]%Q |}
  /\ nth_error [0; 100 + 0.0001 * 100; 101 + 0.0001 * 100; 0]%Q 3 = Some 0%Q.
Proof.
  assert (Hup : uplift sample_core_nodes 0.0001%Q 100%Q sample_fields
                = Some {| topographic__elevation :=
                            [0; 100 + 0.0001 * 100; 101 + 0.0001 * 100; 0]%Q;
                          soil__depth := [0; 0; 0; 0]%Q;
                          bedrock__elevation :=
                            [0; 100 + 0.0001 * 100; 101 + 0.0001 * 100; 0]%Q |})
    by reflexivity.
  split; [exact Hup |].
  destruct (uplift_moves_core_nodes_only Q Q_scalar sample_core_nodes 0.0001%Q 100%Q
              sample_fields _ Hup) as (_ & _ & _ & Hz & _).
  destruct (Hz 3 0%Q eq_refl) as [_ Hout].
  apply Hout. unfold sample_core_nodes. simpl. intros [H | [H | []]]; discriminate.
Defined.

(** X6: the uplift is an error exactly if a core node is not a node
    of one of the two fields. *)
Theorem uplift_fails_on_missing_node :
  forall (num : Type) (S : Scalar num) (core_nodes : list nat) (U dt : num)
         (g : at_node num),
    uplift core_nodes U dt g = None
    <-> exists i,
          In i core_nodes
          /\ (List.length (topographic__elevation g) <= i
              \/ List.length (bedrock__elevation g) <= i).
Proof.
  intros num S core U dt g. unfold uplift.
  destruct (iadd_at (topographic__elevation g) core (mul U dt)) as [z' |] eqn:Hz.
  - destruct (iadd_at (bedrock__elevation g) core (mul U dt)) as [b' |] eqn:Hb.
    + split; [discriminate |].
      intros (i & Hi & [Hlen | Hlen]).
      * assert (Hnone : iadd_at (topographic__elevation g) core (mul U dt) = None)
          by (apply iadd_at_fails; eauto).
        congruence.
      * assert (Hnone : iadd_at (bedrock__elevation g) core (mul U dt) = None)
          by (apply iadd_at_fails; eauto).
        congruence.
    + split; [| reflexivity]. intros _.
      apply iadd_at_fails in Hb as (i & Hi & Hlen). eauto.
  - split; [| reflexivity]. intros _.
    apply iadd_at_fails in Hz as (i & Hi & Hlen). eauto.
Qed.

(** X7: resetting the bedrock a second time changes nothing. *)
Theorem reset_is_idempotent :
  forall (num : Type) (S : Scalar num) (g g' : at_node num),
    reset g = Some g' -> reset g' = Some g'.
Proof.
  intros num S g g' Hreset.
  pose proof (reset_orders g g' Hreset) as Hbelow.
  unfold reset, np_minimum in *.
  destruct (Nat.eqb_spec (List.length (bedrock__elevation g))
              (List.length (topographic__elevation g))) as [Hlen |]; try discriminate.
  inversion Hreset; subst g'. simpl in *.
  rewrite length_minimum_elements by exact Hlen.
  rewrite Hlen, Nat.eqb_refl.
  rewrite minimum_elements_fixed; auto.
  rewrite length_minimum_elements; auto.
Qed.

(** The reset of eroded sample fields, done twice. *)
Lemma reset_is_idempotent_witness :
  reset sample_eroded
  = Some {| topographic__elevation := [0; 98; 101; 0]%Q;
            soil__depth := [0; 0; 0; 0]%Q;
            bedrock__elevation := [0; 98; 101; 0]%Q |}
  /\ reset {| topographic__elevation := [0; 98; 101; 0]%Q;
              soil__depth := [0; 0; 0; 0]%Q;
              bedrock__elevation := [0; 98; 101; 0]%Q |}
     = Some {| topographic__elevation := [0; 98; 101; 0]%Q;
               soil__depth := [0; 0; 0; 0]%Q;
               bedrock__elevation := [0; 98; 101; 0]%Q |}.
Proof.
  assert (Hreset : reset sample_eroded
                   = Some {| topographic__elevation := [0; 98; 101; 0]%Q;
                             soil__depth := [0; 0; 0; 0]%Q;
                             bedrock__elevation := [0; 98; 101; 0]%Q |})
    by reflexivity.
  split; [exact Hreset |].
  exact (reset_is_idempotent Q Q_scalar sample_eroded _ Hreset).
Defined.

(** X8: where bedrock is nowhere above the surface, the reset changes
    nothing at all. *)
Theorem reset_leaves_ordered_fields :
  forall (num : Type) (S : Scalar num) (n_nodes : nat) (g : at_node num),
    well_shaped n_nodes g ->
    bedrock_below_surface g ->
    reset g = Some g.
Proof.
  intros num S n_nodes [z d b] [Hz Hb] Hbelow. simpl in *.
  unfold reset, np_minimum. simpl.
  rewrite Hz, Hb, Nat.eqb_refl.
  rewrite minimum_elements_fixed; auto. congruence.
Qed.

(** The reset of the sample fields, whose bedrock is at the surface. *)
Lemma reset_leaves_ordered_fields_witness :
  well_shaped 4 sample_fields
  /\ bedrock_below_surface sample_fields
  /\ reset sample_fields = Some sample_fields.
Proof.
  assert (Hshape : well_shaped 4 sample_fields) by (split; reflexivity).
  assert (Hbelow : bedrock_below_surface sample_fields).
  { intros i b z Hb Hz.
    do 4 (destruct i as [| i];
          [simpl in Hb, Hz; inversion Hb; inversion Hz; reflexivity |]).
    destruct i; discriminate. }
  split; [exact Hshape |]. split; [exact Hbelow |].
  exact (reset_leaves_ordered_fields Q Q_scalar 4 sample_fields Hshape Hbelow).
Defined.

(** X9: if weathering and diffusion keep bedrock at or below the
    surface, then so does the whole loop: after every iteration that
    runs to its end, bedrock is at or below the surface at every node,
    whatever the fault, the flow router and the eroder did and whatever
    the fields were at the start. *)
Theorem loop_keeps_bedrock_below_surface :
  forall (num : Type) (S : Scalar num)
         (nf_run_one_step : num -> at_node num -> option (at_node num))
         (fr_run_one_step : at_node num -> option (at_node num))
         (fs_run_one_step : num -> at_node num -> option (at_node num))
         (ew_calc_soil_prod_rate : at_node num -> option (at_node num))
         (dd_run_one_step : num -> at_node num -> option (at_node num))
         (core_nodes : list nat) (U dt : num) (n : nat) (g0 g : at_node num),
    (forall g1 g2,
        bedrock_below_surface g1 ->
        weather_diffuse ew_calc_soil_prod_rate dd_run_one_step dt g1 = Some g2 ->
        bedrock_below_surface g2) ->
    loop nf_run_one_step fr_run_one_step fs_run_one_step ew_calc_soil_prod_rate
      dd_run_one_step core_nodes U dt (Datatypes.S n) g0 = Some g ->
    bedrock_below_surface g.
Proof.
  intros num S nf fr fs ew dd core U dt n g0 g Hlib Hloop.
  simpl in Hloop. unfold and_then at 1 in Hloop.
  destruct (loop nf fr fs ew dd core U dt n g0) as [g' |]; try discriminate.
  eapply iteration_orders; eauto.
Qed.

(** Two iterations on the sample grid, with an eroder that cuts below
    the bedrock and a diffuser that leaves the fields alone. *)
Lemma loop_keeps_bedrock_below_surface_witness :
  exists g : at_node Q,
    (forall g1 g2,
        bedrock_below_surface g1 ->
        weather_diffuse sample_idle sample_still 100%Q g1 = Some g2 ->
        bedrock_below_surface g2)
    /\ loop sample_still sample_idle sample_eroder sample_idle sample_still
         sample_core_nodes 0.0001%Q 100%Q 2 sample_fields = Some g
    /\ bedrock_below_surface g.
Proof.
  eexists.
  assert (Hlib : forall g1 g2 : at_node Q,
             bedrock_below_surface g1 ->
             weather_diffuse sample_idle sample_still 100%Q g1 = Some g2 ->
             bedrock_below_surface g2).
  { intros g1 g2 Hbelow Hwd. inversion Hwd. now subst. }
  split; [exact Hlib |].
  assert (Hloop : loop sample_still sample_idle sample_eroder sample_idle sample_still
                    sample_core_nodes 0.0001%Q 100%Q 2 sample_fields
                  = Some (match loop sample_still sample_idle sample_eroder sample_idle
                                  sample_still sample_core_nodes 0.0001%Q 100%Q 2
                                  sample_fields with
                          | Some g => g
                          | None => sample_fields
                          end)).
  { vm_compute. reflexivity. }
  split; [exact Hloop |].
  exact (loop_keeps_bedrock_below_surface Q Q_scalar sample_still sample_idle sample_eroder
           sample_idle sample_still sample_core_nodes 0.0001%Q 100%Q 1 sample_fields _
           Hlib Hloop).
Defined.

(** ** The set-up before the loop *)

Lemma scatter_untouched {num : Type} (idx : list nat) (vals a : list num) (i : nat) :
  ~ In i idx -> nth_error (scatter idx vals a) i = nth_error a i.
Proof.
  revert vals a. induction idx as [| j idx IH]; intros [| v vals] a Hout; simpl; auto.
  rewrite IH by (intros Hin; apply Hout; now right).
  apply nth_error_write_other. intros ->. apply Hout. now left.
Qed.

Lemma length_gather {num : Type} (a : list num) (idx : list nat) (vals : list num) :
  gather a idx = Some vals -> List.length vals = List.length idx.
Proof.
  revert vals. induction idx as [| i idx IH]; intros vals; simpl.
  - intros Hv. now inversion Hv.
  - destruct (nth_error a i); try discriminate.
    destruct (gather a idx) as [xs |]; try discriminate.
    intros Hv. inversion Hv. simpl. f_equal. now apply IH.
Qed.

Lemma length_combine_with (f : Q -> Q -> Q) (a b : list Q) :
  List.length a = List.length b ->
  List.length (ModelSetup.combine_with f a b) = List.length a.
Proof.
  revert b. induction a as [| x a IH]; intros [| y b] Hlen; simpl in *;
    try discriminate; auto.
Qed.

Lemma nth_error_combine_with (f : Q -> Q -> Q) (a b : list Q) (i : nat) (v : Q) :
  nth_error (ModelSetup.combine_with f a b) i = Some v ->
  exists x y, nth_error a i = Some x /\ nth_error b i = Some y /\ v = f x y.
Proof.
  revert b i. induction a as [| x a IH]; intros [| y b] [| i] Hv; simpl in *;
    try discriminate.
  - inversion Hv. now exists x, y.
  - now apply IH.
Qed.

Lemma minus_zeros_same (z : list Q) :
  Forall2 Qeq (ModelSetup.combine_with Qminus z (repeat 0%Q (List.length z))) z.
Proof.
  induction z as [| x z IH]; simpl; constructor; auto.
  unfold Qminus. ring.
Qed.

(** X10: with the core nodes among the nodes of the grid and one
    random number per core node, the set-up succeeds; both elevation
    fields have one value per node, the soil depth is zero, the bedrock
    equals the topography, so that bedrock is nowhere above the surface
    when the loop starts, and every node that is not a core node is at
    elevation zero. *)
Theorem setup_starts_with_bedrock_at_surface :
  forall (n_nodes : nat) (core_nodes : list nat) (randn : list Q),
    Forall (fun i => i < n_nodes) core_nodes ->
    List.length randn = List.length core_nodes ->
    exists g,
      ModelSetup.setup n_nodes core_nodes randn = Some g
      /\ well_shaped n_nodes g
      /\ soil__depth g = repeat 0%Q n_nodes
      /\ Forall2 Qeq (bedrock__elevation g) (topographic__elevation g)
      /\ bedrock_below_surface g
      /\ (forall i, i < n_nodes -> ~ In i core_nodes ->
                    nth_error (topographic__elevation g) i = Some 0%Q).
Proof.
  intros n core randn Hcore Hlen.
  unfold ModelSetup.setup, ModelSetup.iadd_values_at, ModelSetup.add_zeros.
  destruct (gather_total (repeat 0%Q n) core) as [old Hold].
  { now rewrite repeat_length. }
  rewrite Hold.
  pose proof (length_gather _ _ _ Hold) as Hlold.
  unfold ModelSetup.elementwise at 1.
  rewrite length_map, Hlold, Hlen, Nat.eqb_refl.
  set (z := scatter core _ (repeat 0%Q n)).
  assert (Hlz : List.length z = n).
  { unfold z. now rewrite length_scatter, repeat_length. }
  unfold ModelSetup.elementwise, ModelSetup.assign_all.
  rewrite Hlz, !repeat_length, Nat.eqb_refl.
  assert (Hlb : List.length (ModelSetup.combine_with Qminus z (repeat 0%Q n)) = n).
  { rewrite length_combine_with; now rewrite ?Hlz, ?repeat_length. }
  rewrite Hlb, Nat.eqb_refl.
  eexists. split; [reflexivity |]. simpl.
  split.
  { split; auto. }
  split; [reflexivity |].
  split.
  { rewrite <- Hlz at 1. apply minus_zeros_same. }
  split.
  - intros i b zv Hb Hz. simpl in Hb, Hz.
    apply nth_error_combine_with in Hb as (x & y & Hx & Hy & ->).
    assert (x = zv) by congruence. subst x.
    apply nth_error_In, repeat_spec in Hy. subst y.
    apply Qle_bool_iff. unfold Qminus. rewrite Qplus_0_r. apply Qle_refl.
  - intros i Hi Hout. unfold z.
    rewrite scatter_untouched by exact Hout.
    now apply nth_error_repeat.
Qed.

(** The set-up of a grid of four nodes with two core nodes. *)
Lemma setup_starts_with_bedrock_at_surface_witness :
  Forall (fun i => i < 4) sample_core_nodes
  /\ List.length [0.5; -0.25]%Q = List.length sample_core_nodes
  /\ exists g,
       ModelSetup.setup 4 sample_core_nodes [0.5; -0.25]%Q = Some g
       /\ well_shaped 4 g
       /\ soil__depth g = repeat 0%Q 4
       /\ Forall2 Qeq (bedrock__elevation g) (topographic__elevation g)
       /\ bedrock_below_surface g
       /\ (forall i, i < 4 -> ~ In i sample_core_nodes ->
                     nth_error (topographic__elevation g) i = Some 0%Q).
Proof.
  assert (Hcore : Forall (fun i => i < 4) sample_core_nodes).
  { repeat constructor. }
  assert (Hlen : List.length [0.5; -0.25]%Q = List.length sample_core_nodes)
    by reflexivity.
  split; [exact Hcore |]. split; [exact Hlen |].
  exact (setup_starts_with_bedrock_at_surface 4 sample_core_nodes [0.5; -0.25]%Q
           Hcore Hlen).
Defined.

(** ** The cumulative throw for any time step *)

Lemma length_t (dt : Z) : (0 < dt)%Z -> List.length (CumulativeThrow.t dt) = 300.
Proof.
  intros Hdt. unfold CumulativeThrow.t, CumulativeThrow.np_arange.
  rewrite length_map, length_seq.
  replace ((300 * dt - 0 + dt - 1) / dt)%Z with 300%Z; [reflexivity |].
  apply (Z.div_unique _ _ 300 (dt - 1)); lia.
Qed.

Lemma nth_t (dt : Z) (k : nat) :
  (0 < dt)%Z -> k < 300 -> nth k (CumulativeThrow.t dt) 0%Z = (Z.of_nat k * dt)%Z.
Proof.
  intros Hdt Hk. pose proof (length_t dt Hdt) as Hlen.
  unfold CumulativeThrow.t, CumulativeThrow.np_arange in *.
  rewrite length_map, length_seq in Hlen. rewrite Hlen.
  now rewrite (nth_map_seq _ 300 k 0%Z Hk).
Qed.

(** The running sum of values equal to [c], at every position. *)
Lemma nth_cumsum_constant (c : Q) (a : list Q) :
  Forall (fun r => (r == c)%Q) a ->
  forall k acc d,
    k < List.length a ->
    (nth k (CumulativeThrow.cumsum_from acc a) d
     == acc + inject_Z (Z.of_nat (S k)) * c)%Q.
Proof.
  induction 1 as [| x a Hx Ha IH]; intros k acc d Hk; simpl in Hk; [lia |].
  destruct k as [| k]; simpl nth.
  - rewrite Hx. change (inject_Z (Z.of_nat 1)) with 1%Q. ring.
  - rewrite IH by lia. rewrite Hx.
    rewrite (Nat2Z.inj_succ (S k)). unfold Z.succ. rewrite inject_Z_plus.
    change (inject_Z 1) with 1%Q. ring.
Qed.

Lemma nth_scale (a : list Q) (c d : Q) (k : nat) :
  k < List.length a ->
  nth k (CumulativeThrow.scale a c) d = (nth k a d * c)%Q.
Proof.
  intros Hk. unfold CumulativeThrow.scale.
  rewrite (nth_indep _ d (d * c)%Q) by now rewrite length_map.
  apply (map_nth (fun x => (x * c)%Q)).
Qed.

(** The total of the constant history, for any positive time step. *)
Lemma length_rate_constant (dt : Z) :
  (0 < dt)%Z -> List.length (CumulativeThrow.rate_constant dt) = 300.
Proof.
  intros Hdt. unfold CumulativeThrow.rate_constant, CumulativeThrow.np_interp.
  rewrite !length_map. now apply length_t.
Qed.

Lemma last_cumulative_constant (dt : Z) :
  (0 < dt)%Z ->
  (last (CumulativeThrow.cumulative_rock_uplift_constant dt) 0 == 0.3 * inject_Z dt)%Q.
Proof.
  intros Hdt.
  assert (Hrate : Forall (fun r => (r == 0.001)%Q) (CumulativeThrow.rate_constant dt))
    by apply np_interp_constant.
  pose proof (length_rate_constant dt Hdt) as Hlen.
  assert (Hne : CumulativeThrow.rate_constant dt <> []).
  { intros Hnil. rewrite Hnil in Hlen. discriminate. }
  unfold CumulativeThrow.cumulative_rock_uplift_constant, CumulativeThrow.np_cumsum.
  rewrite last_scale by now apply cumsum_from_nonempty.
  rewrite (last_cumsum_constant 0.001%Q) by assumption.
  rewrite Hlen. change (inject_Z (Z.of_nat 300)) with 300%Q.
  setoid_replace (0 + 300 * 0.001)%Q with 0.3%Q by reflexivity.
  reflexivity.
Qed.

(** X11: for every positive integer time step [dt] with [300 * dt] no
    larger than [2 ^ 53] there are 300 sample times, the k-th is
    [k * dt], the constant rate is 0.001 at each of them, and in exact
    arithmetic the cumulative throw grows linearly: its k-th value is
    [(k + 1) * 0.001 * dt], so that the total is [0.3 * dt]. *)
Theorem cumulative_throw_is_linear :
  forall dt : Z,
    (0 < dt)%Z ->
    (300 * dt <= CumulativeThrow.largest_exact_integer)%Z ->
    List.length (CumulativeThrow.t dt) = 300
    /\ (forall k, k < 300 -> nth k (CumulativeThrow.t dt) 0%Z = (Z.of_nat k * dt)%Z)
    /\ Forall (fun r => (r == 0.001)%Q) (CumulativeThrow.rate_constant dt)
    /\ List.length (CumulativeThrow.cumulative_rock_uplift_constant dt) = 300
    /\ (forall k, k < 300 ->
          (nth k (CumulativeThrow.cumulative_rock_uplift_constant dt) 0
           == inject_Z (Z.of_nat (S k)) * 0.001 * inject_Z dt)%Q)
    /\ (last (CumulativeThrow.cumulative_rock_uplift_constant dt) 0
        == 0.3 * inject_Z dt)%Q.
Proof.
  intros dt Hdt _.
  assert (Hrate : Forall (fun r => (r == 0.001)%Q) (CumulativeThrow.rate_constant dt))
    by apply np_interp_constant.
  pose proof (length_rate_constant dt Hdt) as Hlen.
  split; [now apply length_t |].
  split; [intros k Hk; now apply nth_t |].
  split; [exact Hrate |].
  split.
  { unfold CumulativeThrow.cumulative_rock_uplift_constant, CumulativeThrow.scale,
      CumulativeThrow.np_cumsum.
    now rewrite length_map, length_cumsum_from. }
  split.
  - intros k Hk.
    unfold CumulativeThrow.cumulative_rock_uplift_constant, CumulativeThrow.np_cumsum.
    rewrite nth_scale by now rewrite length_cumsum_from, Hlen.
    rewrite (nth_cumsum_constant 0.001%Q) by (auto; now rewrite Hlen).
    ring.
  - now apply last_cumulative_constant.
Qed.

(** The cumulative throw with the time step of the final model. *)
Lemma cumulative_throw_is_linear_witness :
  (0 < 100)%Z
  /\ (300 * 100 <= CumulativeThrow.largest_exact_integer)%Z
  /\ (last (CumulativeThrow.cumulative_rock_uplift_constant 100) 0 == 0.3 * inject_Z 100)%Q.
Proof.
  assert (Hdt : (0 < 100)%Z) by reflexivity.
  assert (Hmax : (300 * 100 <= CumulativeThrow.largest_exact_integer)%Z)
    by (vm_compute; discriminate).
  split; [exact Hdt |]. split; [exact Hmax |].
  exact (proj2 (proj2 (proj2 (proj2 (proj2 (cumulative_throw_is_linear 100 Hdt Hmax)))))).
Defined.

(** ** The time loop of the sediment-transport notebook *)


Section RunFacts.

Variable state : Type.
Variable nst_run_one_step : Z -> state -> option state.


End RunFacts.


(** ** The parcel arrays *)

Lemma length_np_repeat {A : Type} (a : list A) (r : nat) :
  List.length (ParcelArrays.np_repeat a r) = r * List.length a.
Proof.
  unfold ParcelArrays.np_repeat. induction a as [| x a IH]; simpl.
  - lia.
  - rewrite length_app, repeat_length, IH. lia.
Qed.

Lemma length_element_id (n : nat) : List.length (ParcelArrays.element_id n) = 50 * n.
Proof.
  unfold ParcelArrays.element_id, ParcelArrays.np_expand_dims, ParcelArrays.np_arange.
  now rewrite length_map, length_np_repeat, length_map, length_seq.
Qed.

Lemma np_size_column {A : Type} (a : list A) :
  ParcelArrays.np_size (ParcelArrays.np_expand_dims a) = List.length a.
Proof.
  unfold ParcelArrays.np_size, ParcelArrays.np_expand_dims.
  induction a as [| x a IH]; simpl; auto.
Qed.

Lemma np_size_element_id (n : nat) : ParcelArrays.np_size (ParcelArrays.element_id n) = 50 * n.
Proof.
  unfold ParcelArrays.element_id. rewrite np_size_column, length_np_repeat.
  unfold ParcelArrays.np_arange. now rewrite length_map, length_seq.
Qed.

Lemma nth_repeated_seq (r s n k : nat) (d : Z) :
  0 < r -> k < r * n ->
  nth k (flat_map (fun x => repeat x r) (map Z.of_nat (seq s n))) d
  = Z.of_nat (s + k / r).
Proof.
  intros Hr. revert s k. induction n as [| n IH]; intros s k Hk; [lia |].
  simpl. destruct (Nat.lt_ge_cases k r) as [Hlt | Hge].
  - rewrite app_nth1 by now rewrite repeat_length.
    rewrite (nth_indep _ d (Z.of_nat s)) by now rewrite repeat_length.
    rewrite nth_repeat. rewrite Nat.div_small by exact Hlt. f_equal. lia.
  - rewrite app_nth2 by now rewrite repeat_length.
    rewrite repeat_length. rewrite IH by lia. f_equal.
    replace k with ((k - r) + 1 * r) at 2 by lia.
    rewrite Nat.div_add by lia. lia.
Qed.

Lemma count_repeated_seq (link : Z) (r s n : nat) :
  List.length
    (filter (ParcelArrays.starts_on link)
       (map (fun x => [x]) (flat_map (fun x => repeat x r) (map Z.of_nat (seq s n)))))
  = if (Z.of_nat s <=? link)%Z && (link <? Z.of_nat (s + n))%Z then r else 0.
Proof.
  revert s. induction n as [| n IH]; intros s.
  - simpl. replace (s + 0) with s by lia.
    destruct (Z.leb_spec (Z.of_nat s) link), (Z.ltb_spec link (Z.of_nat s)); auto; lia.
  - simpl. rewrite map_app, filter_app, length_app, IH.
    assert (Hhead : List.length
                      (filter (ParcelArrays.starts_on link)
                         (map (fun x => [x]) (repeat (Z.of_nat s) r)))
                    = if (Z.of_nat s =? link)%Z then r else 0).
    { clear IH. induction r as [| r IHr]; simpl.
      - now destruct (Z.of_nat s =? link)%Z.
      - destruct (Z.of_nat s =? link)%Z; simpl; rewrite IHr; auto. }
    rewrite Hhead.
    destruct (Z.eqb_spec (Z.of_nat s) link) as [Heq | Hne];
      destruct (Z.leb_spec (Z.of_nat s) link), (Z.leb_spec (Z.of_nat (S s)) link),
        (Z.ltb_spec link (Z.of_nat (S s + n))), (Z.ltb_spec link (Z.of_nat (s + S n)));
      simpl; lia.
Qed.

(** X13: for any number of links there are fifty parcels per link, in
    link order: the array has [50 * number_of_links] rows of one entry,
    row [k] holds link [k / 50], and every link of the grid is the
    starting link of exactly fifty parcels, any other number of none. *)
Theorem fifty_parcels_on_every_link :
  forall number_of_links : nat,
    List.length (ParcelArrays.element_id number_of_links) = 50 * number_of_links
    /\ (forall k, k < 50 * number_of_links ->
                  nth k (ParcelArrays.element_id number_of_links) [] = [Z.of_nat (k / 50)])
    /\ (forall link : Z,
          List.length (filter (ParcelArrays.starts_on link)
                         (ParcelArrays.element_id number_of_links))
          = if (0 <=? link)%Z && (link <? Z.of_nat number_of_links)%Z then 50 else 0).
Proof.
  intros n. split; [apply length_element_id |]. split.
  - intros k Hk.
    unfold ParcelArrays.element_id, ParcelArrays.np_expand_dims, ParcelArrays.np_repeat,
      ParcelArrays.np_arange.
    rewrite (nth_indep _ [] [0%Z]).
    + rewrite (map_nth (fun x => [x])). f_equal.
      apply (nth_repeated_seq 50 0 n k 0%Z); lia.
    + fold (ParcelArrays.np_arange n).
      fold (ParcelArrays.np_repeat (ParcelArrays.np_arange n) 50).
      fold (ParcelArrays.np_expand_dims
              (ParcelArrays.np_repeat (ParcelArrays.np_arange n) 50)).
      fold (ParcelArrays.element_id n). now rewrite length_element_id.
  - intros link.
    unfold ParcelArrays.element_id, ParcelArrays.np_expand_dims, ParcelArrays.np_repeat,
      ParcelArrays.np_arange.
    apply (count_repeated_seq link 50 0 n).
Qed.

(** X14: for any number of links all parcel variables agree in size:
    the volume and the active-layer flag have one row of one entry per
    parcel, all ones, density and abrasion rate have one entry per
    parcel, 2650 and 0, and so has the lithology list; the volume of
    all parcels together is [50 * number_of_links]. *)
Theorem parcel_variables_agree :
  forall number_of_links : nat,
    ParcelArrays.volume number_of_links = repeat [(1 * 1)%Q] (50 * number_of_links)
    /\ ParcelArrays.active_layer number_of_links = repeat [1%Q] (50 * number_of_links)
    /\ ParcelArrays.density number_of_links = repeat (2650 * 1)%Q (50 * number_of_links)
    /\ ParcelArrays.abrasion_rate number_of_links = repeat (0 * 1)%Q (50 * number_of_links)
    /\ ParcelArrays.lithology number_of_links = repeat "quartzite" (50 * number_of_links)
    /\ (ParcelArrays.total (ParcelArrays.volume number_of_links)
        == inject_Z (Z.of_nat (50 * number_of_links)))%Q.
Proof.
  intros n.
  assert (Hmap : forall (B : Type) (b : B) (l : list (list Z)),
             map (fun _ => b) l = repeat b (List.length l)).
  { intros B b l. induction l as [| x l IH]; simpl; congruence. }
  assert (Hvol : ParcelArrays.volume n = repeat [(1 * 1)%Q] (50 * n)).
  { unfold ParcelArrays.volume, ParcelArrays.ones_in_shape_of.
    rewrite map_map. rewrite <- length_element_id.
    unfold ParcelArrays.element_id, ParcelArrays.np_expand_dims.
    rewrite !map_map. simpl.
    generalize (ParcelArrays.np_repeat (ParcelArrays.np_arange n) 50).
    intros l. induction l as [| x l IH]; simpl; congruence. }
  split; [exact Hvol |].
  split.
  { unfold ParcelArrays.active_layer, ParcelArrays.ones_in_shape_of.
    rewrite <- length_element_id.
    unfold ParcelArrays.element_id, ParcelArrays.np_expand_dims.
    rewrite !map_map. simpl.
    generalize (ParcelArrays.np_repeat (ParcelArrays.np_arange n) 50).
    intros l. induction l as [| x l IH]; simpl; congruence. }
  split.
  { unfold ParcelArrays.density, ParcelArrays.np_ones.
    rewrite np_size_element_id. now rewrite map_repeat. }
  split.
  { unfold ParcelArrays.abrasion_rate, ParcelArrays.np_ones.
    rewrite np_size_element_id. now rewrite map_repeat. }
  split.
  { unfold ParcelArrays.lithology. rewrite np_size_element_id.
    generalize (50 * n). intros m.
    induction m as [| m IH]; simpl; congruence. }
  rewrite Hvol. unfold ParcelArrays.total.
  generalize (50 * n). intros m.
  induction m as [| m IH].
  - reflexivity.
  - rewrite Nat2Z.inj_succ. unfold Z.succ. rewrite inject_Z_plus.
    simpl repeat. simpl List.concat. simpl fold_right.
    rewrite IH. change (inject_Z 1) with 1%Q. ring.
Qed.

(** ** The loads of the flexure notebook *)

Lemma length_ramp : List.length Loading.ramp = 200.
Proof. unfold Loading.ramp. now rewrite length_map, length_seq. Qed.

Lemma length_fill_slice lo hi v row :
  List.length (Loading.fill_slice lo hi v row) = List.length row.
Proof.
  unfold Loading.fill_slice, Loading.slice_start, Loading.slice_stop.
  rewrite !length_app, repeat_length, length_firstn, length_skipn.
  destruct hi; lia.
Qed.

(** The three stores of the loading cell on one row of at least 300
    columns. *)
Lemma loading_of_row (row : list Q) :
  300 <= List.length row ->
  Loading.store_slice 100 (Some 300) Loading.ramp
    (Loading.fill_slice 0 (Some 100) 0.0%Q row)
  = Some (repeat 0.0%Q 100 ++ Loading.ramp ++ skipn 300 row)
  /\ Loading.fill_slice 300 None 1e6%Q (repeat 0.0%Q 100 ++ Loading.ramp ++ skipn 300 row)
     = Loading.shelf (List.length row).
Proof.
  intros Hn.
  assert (Hfill : Loading.fill_slice 0 (Some 100) 0.0%Q row
                  = repeat 0.0%Q 100 ++ skipn 100 row).
  { unfold Loading.fill_slice, Loading.slice_start, Loading.slice_stop.
    rewrite Nat.min_0_l, (Nat.min_l 100) by lia.
    rewrite Nat.max_r by lia. rewrite Nat.sub_0_r. reflexivity. }
  assert (Hlen1 : List.length (repeat 0.0%Q 100 ++ skipn 100 row) = List.length row).
  { rewrite length_app, repeat_length, length_skipn. lia. }
  split.
  - rewrite Hfill. unfold Loading.store_slice, Loading.slice_start, Loading.slice_stop.
    rewrite Hlen1, !Nat.min_l by lia. rewrite Nat.max_r by lia.
    rewrite length_ramp. change (300 - 100) with 200. rewrite Nat.eqb_refl.
    f_equal.
    rewrite firstn_app, repeat_length, Nat.sub_diag, firstn_O, app_nil_r.
    rewrite firstn_all2 by now rewrite repeat_length.
    f_equal. f_equal.
    rewrite skipn_app, repeat_length.
    rewrite (skipn_all2 (repeat 0.0%Q 100)) by (rewrite repeat_length; lia).
    change (300 - 100) with 200. rewrite skipn_skipn. reflexivity.
  - assert (Hlen2 : List.length (repeat 0.0%Q 100 ++ Loading.ramp ++ skipn 300 row)
                    = List.length row).
    { rewrite !length_app, repeat_length, length_ramp, length_skipn. lia. }
    unfold Loading.fill_slice, Loading.slice_start, Loading.slice_stop, Loading.shelf.
    rewrite Hlen2, Nat.min_l, Nat.max_r by lia.
    rewrite (app_assoc _ _ (skipn 300 row)).
    assert (Hhead : List.length (repeat 0.0%Q 100 ++ Loading.ramp) = 300).
    { now rewrite length_app, repeat_length, length_ramp. }
    rewrite firstn_app, Hhead, Nat.sub_diag, firstn_O, app_nil_r.
    rewrite firstn_all2 by (rewrite Hhead; lia).
    rewrite skipn_all2 by (rewrite length_app, Hhead, length_skipn; lia).
    now rewrite app_nil_r, <- app_assoc.
Qed.

Lemma in_row_one (f : list Q -> option (list Q)) (row0 row : list Q) rest :
  Loading.in_row 1 f (row0 :: row :: rest)
  = match f row with
    | Some row' => Some (row0 :: row' :: rest)
    | None => None
    end.
Proof. reflexivity. Qed.

(** The loading cell on a row 1 of at least 300 columns, and on a
    shorter one. *)
Lemma add_some_loading_wide_row (row0 row : list Q) (rest : list (list Q)) :
  300 <= List.length row ->
  Loading.add_some_loading (row0 :: row :: rest)
  = Some (row0 :: Loading.shelf (List.length row) :: rest).
Proof.
  intros Hn. destruct (loading_of_row row Hn) as [Hstore Hfill].
  unfold Loading.add_some_loading.
  rewrite in_row_one, in_row_one, Hstore, in_row_one, Hfill.
  reflexivity.
Qed.

Lemma add_some_loading_short_row (row0 row : list Q) (rest : list (list Q)) :
  List.length row < 300 ->
  Loading.add_some_loading (row0 :: row :: rest) = None.
Proof.
  intros Hlt.
  unfold Loading.add_some_loading. rewrite in_row_one, in_row_one.
  unfold Loading.store_slice.
  rewrite length_fill_slice, length_ramp.
  unfold Loading.slice_start, Loading.slice_stop.
  destruct (Nat.eqb_spec 200
              (Nat.max (Nat.min 100 (List.length row)) (Nat.min 300 (List.length row))
               - Nat.min 100 (List.length row))) as [Heq | _]; [lia |].
  reflexivity.
Qed.

(** X15: on a load array whose row 1 has at least 300 columns the
    loading cell succeeds and overwrites all of row 1: the new row is
    zero on the first 100 columns, the ramp on the next 200 and [1e6]
    from column 300 on, whatever the row held before; the other rows
    are left as they were. *)
Theorem loading_overwrites_row_one :
  forall (load_at_node : list (list Q)) (row : list Q),
    nth_error load_at_node 1 = Some row ->
    300 <= List.length row ->
    Loading.add_some_loading load_at_node
    = Some (firstn 1 load_at_node
            ++ Loading.shelf (List.length row) :: skipn 2 load_at_node).
Proof.
  intros [| row0 [| row1 rest]] row Hrow Hn; try discriminate.
  simpl in Hrow. inversion Hrow; subst row1. clear Hrow.
  destruct (loading_of_row row Hn) as [Hstore Hfill].
  unfold Loading.add_some_loading.
  rewrite in_row_one, in_row_one, Hstore, in_row_one, Hfill.
  reflexivity.
Qed.

(** The loading of a grid of three rows of 300 columns. *)
Lemma loading_overwrites_row_one_witness :
  nth_error [repeat 0%Q 300; repeat 7%Q 300; repeat 0%Q 300] 1 = Some (repeat 7%Q 300)
  /\ 300 <= List.length (repeat 7%Q 300)
  /\ Loading.add_some_loading [repeat 0%Q 300; repeat 7%Q 300; repeat 0%Q 300]
     = Some (firstn 1 [repeat 0%Q 300; repeat 7%Q 300; repeat 0%Q 300]
             ++ Loading.shelf (List.length (repeat 7%Q 300))
             :: skipn 2 [repeat 0%Q 300; repeat 7%Q 300; repeat 0%Q 300]).
Proof.
  assert (Hrow : nth_error [repeat 0%Q 300; repeat 7%Q 300; repeat 0%Q 300] 1
                 = Some (repeat 7%Q 300)) by reflexivity.
  assert (Hn : 300 <= List.length (repeat 7%Q 300)).
  { rewrite repeat_length. apply Nat.le_refl. }
  split; [exact Hrow |]. split; [exact Hn |].
  exact (loading_overwrites_row_one _ _ Hrow Hn).
Defined.

(** X16: the loading cell is an error exactly if the load array has
    no row 1 or row 1 has fewer than 300 columns, the ramp of 200
    values not fitting the columns 100 to 299. *)
Theorem loading_needs_300_columns :
  forall load_at_node : list (list Q),
    Loading.add_some_loading load_at_node = None
    <-> match nth_error load_at_node 1 with
        | Some row => List.length row < 300
        | None => True
        end.
Proof.
  intros [| row0 [| row rest]]; try (split; auto; reflexivity).
  cbn [nth_error].
  destruct (Nat.lt_ge_cases (List.length row) 300) as [Hlt | Hge].
  - split; auto. intros _.
    unfold Loading.add_some_loading. rewrite in_row_one, in_row_one.
    unfold Loading.store_slice.
    rewrite length_fill_slice, length_ramp.
    unfold Loading.slice_start, Loading.slice_stop.
    destruct (Nat.eqb_spec 200
                (Nat.max (Nat.min 100 (List.length row)) (Nat.min 300 (List.length row))
                 - Nat.min 100 (List.length row))) as [Heq | _]; [lia |].
    reflexivity.
  - rewrite (add_some_loading_wide_row row0 row rest Hge).
    split; [discriminate | lia].
Qed.

(** X17: a point load set before does not survive the loading cell:
    the cell gives the same load array with and without it. *)
Theorem point_load_does_not_survive :
  forall load_at_node with_point_load : list (list Q),
    Loading.add_point_load load_at_node = Some with_point_load ->
    Loading.add_some_loading with_point_load = Loading.add_some_loading load_at_node.
Proof.
  intros [| row0 [| row rest]] with_point_load; try discriminate.
  unfold Loading.add_point_load. rewrite in_row_one. unfold Loading.store_at.
  destruct (Nat.ltb 200 (List.length row)); try discriminate.
  intros Hpoint.
  assert (Hwith : with_point_load = row0 :: write 200 1e6%Q row :: rest) by congruence.
  subst with_point_load. clear Hpoint.
  destruct (Nat.lt_ge_cases (List.length row) 300) as [Hlt | Hge].
  - assert (Hnone : forall r, List.length r = List.length row ->
                              Loading.add_some_loading (row0 :: r :: rest) = None).
    { intros r Hr. apply add_some_loading_short_row. lia. }
    rewrite (Hnone row eq_refl). apply Hnone. apply length_write.
  - rewrite (add_some_loading_wide_row row0 row rest Hge).
    rewrite (add_some_loading_wide_row row0 (write 200 1e6%Q row) rest)
      by now rewrite length_write.
    now rewrite length_write.
Qed.

(** A point load on a grid of three rows of 300 columns, then the
    loading. *)
Lemma point_load_does_not_survive_witness :
  Loading.add_point_load [repeat 0%Q 300; repeat 0%Q 300; repeat 0%Q 300]
  = Some [repeat 0%Q 300; write 200 1e6%Q (repeat 0%Q 300); repeat 0%Q 300]
  /\ Loading.add_some_loading
       [repeat 0%Q 300; write 200 1e6%Q (repeat 0%Q 300); repeat 0%Q 300]
     = Loading.add_some_loading [repeat 0%Q 300; repeat 0%Q 300; repeat 0%Q 300].
Proof.
  assert (Hpoint : Loading.add_point_load [repeat 0%Q 300; repeat 0%Q 300; repeat 0%Q 300]
                   = Some [repeat 0%Q 300; write 200 1e6%Q (repeat 0%Q 300);
                           repeat 0%Q 300]) by reflexivity.
  split; [exact Hpoint |].
  exact (point_load_does_not_survive _ _ Hpoint).
Defined.

Lemma ramp_value (i : nat) :
  (inject_Z (Z.of_nat i) * 1e6 / 200.0 == inject_Z (5000 * Z.of_nat i))%Q.
Proof.
  unfold Qdiv. rewrite <- Qmult_assoc.
  setoid_replace (1e6 * / 200.0)%Q with (inject_Z 5000) by reflexivity.
  rewrite inject_Z_mult. ring.
Qed.

(** The load at a column of the shelf. *)
Lemma nth_shelf (n j : nat) :
  j < List.length (Loading.shelf n) ->
  nth j (Loading.shelf n) 0%Q
  = if Nat.ltb j 100 then 0.0%Q
    else if Nat.ltb j 300 then (inject_Z (Z.of_nat (j - 100)) * 1e6 / 200.0)%Q
         else 1e6%Q.
Proof.
  unfold Loading.shelf. rewrite !length_app, !repeat_length, length_ramp. intros Hj.
  destruct (Nat.ltb_spec j 100) as [H1 | H1].
  - rewrite app_nth1 by now rewrite repeat_length.
    rewrite (nth_indep _ 0%Q 0.0%Q) by now rewrite repeat_length.
    apply nth_repeat.
  - rewrite app_nth2 by now rewrite repeat_length.
    rewrite repeat_length.
    destruct (Nat.ltb_spec j 300) as [H3 | H3].
    + rewrite app_nth1 by (rewrite length_ramp; lia).
      unfold Loading.ramp.
      apply (nth_map_seq (fun k => (inject_Z (Z.of_nat k) * 1e6 / 200.0)%Q) 200
               (j - 100) 0%Q).
      lia.
    + rewrite app_nth2 by (rewrite length_ramp; lia).
      rewrite length_ramp.
      rewrite (nth_indep _ 0%Q 1e6%Q) by (rewrite repeat_length; lia).
      apply nth_repeat.
Qed.

Lemma shelf_as_integer (n j : nat) :
  j < List.length (Loading.shelf n) ->
  (nth j (Loading.shelf n) 0
   == inject_Z (if Nat.ltb j 100 then 0
                else if Nat.ltb j 300 then 5000 * Z.of_nat (j - 100)
                     else 1000000))%Q.
Proof.
  intros Hj. rewrite nth_shelf by exact Hj.
  destruct (Nat.ltb j 100); [reflexivity |].
  destruct (Nat.ltb j 300); [apply ramp_value | reflexivity].
Qed.

(** X18: along the row the load of the shelf never decreases, it
    starts at zero, rises by 5000 per column from column 100 on and
    nowhere exceeds [1e6]. *)
Theorem shelf_rises_to_full_load :
  forall n j k : nat,
    j <= k ->
    k < List.length (Loading.shelf n) ->
    (0 <= nth j (Loading.shelf n) 0)%Q
    /\ (nth j (Loading.shelf n) 0 <= nth k (Loading.shelf n) 0)%Q
    /\ (nth k (Loading.shelf n) 0 <= 1e6)%Q
    /\ (100 <= j -> j < 300 ->
        (nth j (Loading.shelf n) 0 == inject_Z (5000 * Z.of_nat (j - 100)))%Q).
Proof.
  intros n j k Hjk Hk.
  assert (Hj : j < List.length (Loading.shelf n)) by lia.
  rewrite (shelf_as_integer n j Hj), (shelf_as_integer n k Hk).
  setoid_replace 1e6%Q with (inject_Z 1000000) by reflexivity.
  change 0%Q with (inject_Z 0).
  rewrite <- !Zle_Qle.
  destruct (Nat.ltb_spec j 100), (Nat.ltb_spec j 300),
    (Nat.ltb_spec k 100), (Nat.ltb_spec k 300);
    repeat split; try lia; intros; try lia; reflexivity.
Qed.

(** Two columns of the ramp on a row of 800 columns. *)
Lemma shelf_rises_to_full_load_witness :
  150 <= 250
  /\ 250 < List.length (Loading.shelf 800)
  /\ (nth 150 (Loading.shelf 800) 0 <= nth 250 (Loading.shelf 800) 0)%Q.
Proof.
  assert (Hjk : 150 <= 250) by lia.
  assert (Hk : 250 < List.length (Loading.shelf 800)).
  { unfold Loading.shelf. rewrite !length_app, !repeat_length, length_ramp. lia. }
  split; [exact Hjk |]. split; [exact Hk |].
  exact (proj1 (proj2 (shelf_rises_to_full_load 800 150 250 Hjk Hk))).
Defined.

(** ** Filters over parcels and time *)

Lemma all_some_nth {A : Type} (c : nat) (d : A) (rs : list (list A)) :
  Forall (fun row => c < List.length row) rs ->
  ParcelTables.all_some (map (fun row => nth_error row c) rs)
  = Some (map (fun row => nth c row d) rs).
Proof.
  induction 1 as [| row rs Hrow _ IH]; simpl; auto.
  rewrite IH. now rewrite (nth_error_nth' row d Hrow).
Qed.

Lemma put_column_map {A B : Type} (c : nat) (f : list B -> A) (g : list B -> list A)
    (rs : list (list B)) :
  ParcelTables.put_column c (map f rs) (map g rs) = map (fun r => write c (f r) (g r)) rs.
Proof.
  induction rs as [| r rs IH]; simpl; congruence.
Qed.

Lemma nth_error_marked_row {B : Type} (c : nat) (b : bool) (row : list B) (j : nat) :
  c < List.length row -> j < List.length row ->
  nth_error (write c b (map (fun _ => false) row)) j = Some (Nat.eqb j c && b).
Proof.
  intros Hc Hj. destruct (Nat.eqb_spec j c) as [-> | Hne].
  - rewrite nth_error_write_same by now rewrite length_map. reflexivity.
  - rewrite nth_error_write_other by congruence.
    rewrite nth_error_map.
    destruct (nth_error row j) eqn:Hrow; [reflexivity |].
    apply nth_error_None in Hrow. lia.
Qed.

Lemma count_marked_row {B : Type} (c : nat) (b : bool) (row : list B) :
  c < List.length row ->
  List.length (filter (fun x : bool => x) (write c b (map (fun _ => false) row)))
  = if b then 1 else 0.
Proof.
  revert c. induction row as [| x row IH]; intros [| c] Hc; simpl in *; try lia.
  - assert (Hnone : filter (fun x : bool => x) (map (fun _ : B => false) row) = []).
    { clear. induction row; simpl; auto. }
    destruct b; simpl; now rewrite Hnone.
  - apply IH. lia.
Qed.

Lemma starts_on_first (link : Z) (row : list Z) :
  0 < List.length row ->
  (nth 0 row 0 =? link)%Z = ParcelArrays.starts_on link row.
Proof.
  destruct row; simpl; [lia | reflexivity].
Qed.

(** X19: for a time that is a column of the table, the filter is a
    table of the same shape in which an entry is set exactly if it is
    in the column of that time and its parcel started on the link; as
    many entries are set as parcels started on the link.  For a time
    past the last column the cell is an error. *)
Theorem parcelfilter_marks_one_column :
  forall (element_id : ParcelTables.table Z) (timestep_of_interest : nat)
         (originating_link : Z),
    ParcelTables.rectangular element_id ->
    (timestep_of_interest < ParcelTables.n_columns element_id ->
     exists filter_table,
       ParcelTables.parcelfilter element_id timestep_of_interest originating_link
       = Some filter_table
       /\ ParcelTables.n_columns filter_table = ParcelTables.n_columns element_id
       /\ List.length (ParcelTables.rows filter_table)
          = List.length (ParcelTables.rows element_id)
       /\ ParcelTables.rectangular filter_table
       /\ (forall i j row,
             nth_error (ParcelTables.rows element_id) i = Some row ->
             j < ParcelTables.n_columns element_id ->
             ParcelTables.entry filter_table i j
             = Some (Nat.eqb j timestep_of_interest
                     && ParcelArrays.starts_on originating_link row))
       /\ ParcelTables.count_set filter_table
          = List.length (filter (ParcelArrays.starts_on originating_link)
                           (ParcelTables.rows element_id)))
    /\ (ParcelTables.n_columns element_id <= timestep_of_interest ->
        ParcelTables.parcelfilter element_id timestep_of_interest originating_link = None).
Proof.
  intros [n rs] toi link Hrect. unfold ParcelTables.rectangular in Hrect. simpl in *.
  split.
  - intros Htoi.
    assert (Hwide : Forall (fun row : list Z => 0 < List.length row) rs).
    { eapply Forall_impl; [| exact Hrect]. simpl. intros row Hrow. lia. }
    unfold ParcelTables.parcelfilter, ParcelTables.column.
    cbn [ParcelTables.n_columns ParcelTables.rows].
    destruct (Nat.ltb_spec 0 n) as [_ | Hn]; [| lia].
    rewrite (all_some_nth 0 0%Z rs Hwide).
    unfold ParcelTables.set_column, ParcelTables.zeros_like_bool.
    cbn [ParcelTables.n_columns ParcelTables.rows].
    destruct (Nat.ltb_spec toi n) as [_ | Hn]; [| lia].
    rewrite !length_map, Nat.eqb_refl, map_map.
    rewrite (put_column_map toi (fun row => (nth 0 row 0 =? link)%Z)
               (map (fun _ => false)) rs).
    eexists. split; [reflexivity |]. simpl.
    split; [reflexivity |]. split; [now rewrite length_map |].
    split.
    { unfold ParcelTables.rectangular. simpl. apply Forall_map.
      eapply Forall_impl; [| exact Hrect]. simpl. intros row Hrow.
      now rewrite length_write, length_map. }
    split.
    + intros i j row Hrow Hj. unfold ParcelTables.entry. simpl.
      rewrite nth_error_map, Hrow. simpl.
      assert (Hlen : List.length row = n).
      { rewrite Forall_forall in Hrect. apply Hrect. eapply nth_error_In; eauto. }
      rewrite nth_error_marked_row by lia.
      now rewrite starts_on_first by lia.
    + unfold ParcelTables.count_set. simpl.
      clear Hwide. induction Hrect as [| row rs Hrow _ IH]; simpl; auto.
      rewrite filter_app, length_app, IH.
      rewrite count_marked_row by lia.
      rewrite starts_on_first by lia.
      destruct (ParcelArrays.starts_on link row); reflexivity.
  - intros Htoi. unfold ParcelTables.parcelfilter, ParcelTables.column.
    cbn [ParcelTables.n_columns ParcelTables.rows].
    destruct (Nat.ltb_spec 0 n) as [Hn | Hn]; [| reflexivity].
    destruct (ParcelTables.all_some _); [| reflexivity].
    unfold ParcelTables.set_column, ParcelTables.zeros_like_bool.
    cbn [ParcelTables.n_columns ParcelTables.rows].
    destruct (Nat.ltb_spec toi n) as [Hlt | _]; [lia | reflexivity].
Qed.

(** The filter of the sample table for link 1 at the second time. *)
Lemma parcelfilter_marks_one_column_witness :
  ParcelTables.rectangular sample_element_id
  /\ ParcelTables.parcelfilter sample_element_id 1 1
     = Some {| ParcelTables.n_columns := 2;
               ParcelTables.rows := [[false; false]; [false; true]; [false; true]] |}
  /\ ParcelTables.parcelfilter sample_element_id 2 1 = None.
Proof.
  assert (Hrect : ParcelTables.rectangular sample_element_id).
  { repeat constructor. }
  split; [exact Hrect |].
  destruct (parcelfilter_marks_one_column sample_element_id 2 1%Z Hrect) as [_ Hnone].
  split; [reflexivity |].
  apply Hnone. apply Nat.le_refl.
Defined.

Lemma length_zip_with {A B C : Type} (f : A -> B -> C) (a : list A) (b : list B) :
  List.length (ParcelTables.zip_with f a b) = Nat.min (List.length a) (List.length b).
Proof.
  revert b. induction a as [| x a IH]; intros [| y b]; simpl; auto.
Qed.

Lemma length_column_sums (n : nat) (rs : list (list Q)) :
  Forall (fun row => List.length row = n) rs ->
  List.length (fold_right (ParcelTables.zip_with Qplus) (repeat 0%Q n) rs) = n.
Proof.
  induction 1 as [| row rs Hrow _ IH]; simpl.
  - apply repeat_length.
  - rewrite length_zip_with, IH, Hrow. apply Nat.min_id.
Qed.

Lemma zip_plus_le (a a' b b' : list Q) :
  Forall2 Qle a a' -> Forall2 Qle b b' ->
  Forall2 Qle (ParcelTables.zip_with Qplus a b) (ParcelTables.zip_with Qplus a' b').
Proof.
  intros Ha. revert b b'. induction Ha as [| x x' a a' Hx _ IH]; intros b b' Hb.
  - constructor.
  - destruct Hb as [| y y' b b' Hy Hb]; simpl; constructor.
    + now apply Qplus_le_compat.
    + now apply IH.
Qed.

Lemma column_sums_le (base : list Q) (rs rs' : list (list Q)) :
  Forall2 (Forall2 Qle) rs rs' ->
  Forall2 Qle (fold_right (ParcelTables.zip_with Qplus) base rs)
    (fold_right (ParcelTables.zip_with Qplus) base rs').
Proof.
  induction 1 as [| row row' rs rs' Hrow _ IH]; simpl.
  - induction base; constructor; auto. apply Qle_refl.
  - now apply zip_plus_le.
Qed.

(** Zeroing the entries where the parcel is out of the network, row
    by row. *)
Lemma zeroed_row_le (v : Z) (es : list Z) (xs : list Q) :
  List.length es = List.length xs ->
  (forall x, In x xs -> (0 <= x)%Q) ->
  Forall2 Qle (ParcelTables.zip_with (fun e x => if (e =? v)%Z then 0%Q else x) es xs) xs.
Proof.
  revert xs. induction es as [| e es IH]; intros [| x xs] Hlen Hpos; simpl in *;
    try discriminate; constructor.
  - destruct (e =? v)%Z; [apply Hpos; now left | apply Qle_refl].
  - apply IH; [congruence |]. intros y Hy. apply Hpos. now right.
Qed.

Lemma zeroed_row_same (v : Z) (es : list Z) (xs : list Q) :
  List.length es = List.length xs ->
  (forall e, In e es -> e <> v) ->
  ParcelTables.zip_with (fun e x => if (e =? v)%Z then 0%Q else x) es xs = xs.
Proof.
  revert xs. induction es as [| e es IH]; intros [| x xs] Hlen Hin; simpl in *;
    try discriminate; auto.
  destruct (Z.eqb_spec e v) as [Heq | _].
  - exfalso. apply (Hin e); auto.
  - f_equal. apply IH; [congruence |]. intros y Hy. apply Hin. now right.
Qed.

(** What holds of every zeroed row and its volume row holds of the
    zeroed table and the volume table. *)
Lemma zeroed_rows_related (v : Z) (P : list Q -> list Q -> Prop) (n : nat)
    (es : list (list Z)) (vs : list (list Q)) :
  Forall (fun row => List.length row = n) es ->
  Forall (fun row => List.length row = n) vs ->
  List.length es = List.length vs ->
  (forall er vr, In er es -> In vr vs -> List.length er = List.length vr ->
                 P (ParcelTables.zip_with (fun e x => if (e =? v)%Z then 0%Q else x) er vr)
                   vr) ->
  Forall2 P
    (ParcelTables.zip_with
       (ParcelTables.zip_with (fun e x => if (e =? v)%Z then 0%Q else x)) es vs) vs.
Proof.
  intros Hes. revert vs.
  induction Hes as [| er es Her _ IH]; intros [| vr vs] Hvs Hlen HP;
    simpl in *; try discriminate; constructor.
  - apply HP; auto. inversion Hvs; subst. congruence.
  - apply IH.
    + now inversion Hvs.
    + congruence.
    + intros er' vr' Her' Hvr'. apply HP; auto.
Qed.

Lemma same_lengths_rectangular (n : nat) (rs vs : list (list Q)) :
  Forall2 (fun a b => List.length a = List.length b) rs vs ->
  Forall (fun row => List.length row = n) vs ->
  Forall (fun row => List.length row = n) rs.
Proof.
  induction 1 as [| a b rs vs Hab _ IH]; intros Hvs; constructor.
  - inversion Hvs; subst. congruence.
  - apply IH. now inversion Hvs.
Qed.

(** X20: for a volume table and an element table of one shape the
    cell yields one total per time; if no volume is negative, no total
    exceeds the sum of all volumes at that time, and if no parcel is
    out of the network the totals are the sums of all volumes.  For
    tables of different shapes the cell is an error. *)
Theorem volume_on_grid_leaves_out_lost_parcels :
  forall (volume : ParcelTables.table Q) (element_id : ParcelTables.table Z),
    ParcelTables.rectangular volume ->
    ParcelTables.rectangular element_id ->
    (ParcelTables.same_shape element_id volume = true ->
     exists totals,
       ParcelTables.volume_on_grid volume element_id = Some totals
       /\ List.length totals = ParcelTables.n_columns volume
       /\ ((forall row x, In row (ParcelTables.rows volume) -> In x row -> (0 <= x)%Q) ->
           Forall2 Qle totals (ParcelTables.sum_axis0 volume))
       /\ ((forall row e, In row (ParcelTables.rows element_id) -> In e row -> e <> (-2)%Z) ->
           totals = ParcelTables.sum_axis0 volume))
    /\ (ParcelTables.same_shape element_id volume = false ->
        ParcelTables.volume_on_grid volume element_id = None).
Proof.
  intros [n vs] [m es] Hvol Heid.
  unfold ParcelTables.rectangular in *.
  unfold ParcelTables.volume_on_grid, ParcelTables.parcel_vol_on_grid,
    ParcelTables.zero_where, ParcelTables.same_shape.
  cbn [ParcelTables.n_columns ParcelTables.rows] in *.
  split.
  - intros Hshape. rewrite Hshape.
    apply andb_prop in Hshape as [Hcols Hrows].
    apply Nat.eqb_eq in Hcols, Hrows. subst m.
    eexists. split; [reflexivity |].
    unfold ParcelTables.sum_axis0. cbn [ParcelTables.n_columns ParcelTables.rows].
    pose proof (fun P => zeroed_rows_related (-2) P n es vs Heid Hvol Hrows) as Hall.
    split.
    + apply length_column_sums.
      apply (same_lengths_rectangular n _ vs); auto.
      apply Hall. intros er vr _ _ Hlen.
      rewrite length_zip_with, Hlen. apply Nat.min_id.
    + split.
      * intros Hpos. apply column_sums_le.
        apply Hall. intros er vr Her Hvr Hlen.
        apply zeroed_row_le; auto. intros x Hx. eapply Hpos; eauto.
      * intros Hin. f_equal.
        assert (Heq : Forall2 eq
                        (ParcelTables.zip_with
                           (ParcelTables.zip_with
                              (fun e x => if (e =? -2)%Z then 0%Q else x)) es vs) vs).
        { apply Hall. intros er vr Her Hvr Hlen.
          apply zeroed_row_same; auto. intros e He. eapply Hin; eauto. }
        clear - Heq. induction Heq; congruence.
  - intros Hshape. now rewrite Hshape.
Qed.

(** The totals of the sample tables. *)
Lemma volume_on_grid_leaves_out_lost_parcels_witness :
  ParcelTables.rectangular sample_volume
  /\ ParcelTables.rectangular sample_element_id
  /\ ParcelTables.same_shape sample_element_id sample_volume = true
  /\ exists totals,
       ParcelTables.volume_on_grid sample_volume sample_element_id = Some totals
       /\ List.length totals = 2
       /\ Forall2 Qle totals (ParcelTables.sum_axis0 sample_volume).
Proof.
  assert (Hvol : ParcelTables.rectangular sample_volume) by (repeat constructor).
  assert (Heid : ParcelTables.rectangular sample_element_id) by (repeat constructor).
  assert (Hshape : ParcelTables.same_shape sample_element_id sample_volume = true)
    by reflexivity.
  split; [exact Hvol |]. split; [exact Heid |]. split; [exact Hshape |].
  destruct (volume_on_grid_leaves_out_lost_parcels sample_volume sample_element_id
              Hvol Heid) as [Hsome _].
  destruct (Hsome Hshape) as (totals & Htotals & Hlen & Hle & _).
  exists totals. split; [exact Htotals |]. split; [exact Hlen |].
  apply Hle. intros row x Hrow Hx.
  simpl in Hrow.
  destruct Hrow as [<- | [<- | [<- | []]]];
    destruct Hx as [<- | [<- | []]]; discriminate.
Defined.

(** ** The intermittent throw history *)

Lemma Qle_bool_scaled (s x x' x1 : Q) :
  (0 < s)%Q -> (x' == x * s)%Q -> Qle_bool x' (x1 * s) = Qle_bool x x1.
Proof.
  intros Hs Hx.
  destruct (Qle_bool x' (x1 * s)) eqn:H1, (Qle_bool x x1) eqn:H2; auto.
  - apply Qle_bool_iff in H1. rewrite Hx in H1. apply Qmult_le_r in H1; auto.
    apply Qle_bool_iff in H1. congruence.
  - apply Qle_bool_iff in H2. apply (Qmult_le_r _ _ s Hs) in H2. rewrite <- Hx in H2.
    apply Qle_bool_iff in H2. congruence.
Qed.

Lemma segment_scaled (s x x' x0 x0' x1 y0 y1 : Q) :
  (0 < s)%Q -> (x' == x * s)%Q -> (x0' == x0 * s)%Q ->
  (y0 + (x' - x0') * ((y1 - y0) / (x1 * s - x0'))
   == y0 + (x - x0) * ((y1 - y0) / (x1 - x0)))%Q.
Proof.
  intros Hs Hx Hx0. rewrite Hx, Hx0.
  assert (Hs0 : ~ (s == 0)%Q).
  { intros H0. rewrite H0 in Hs. now apply Qlt_irrefl in Hs. }
  destruct (Qeq_dec (x1 - x0) 0) as [Hz | Hnz].
  - setoid_replace (x1 * s - x0 * s)%Q with ((x1 - x0) * s)%Q by ring.
    rewrite Hz. unfold Qdiv.
    rewrite Qmult_0_l. change (/ 0)%Q with 0%Q. ring.
  - field. split; auto.
    intros H0. apply Hnz.
    setoid_replace (x1 * s - x0 * s)%Q with ((x1 - x0) * s)%Q in H0 by ring.
    apply Qmult_integral in H0 as [H0 | H0]; [exact H0 | contradiction].
Qed.

Lemma interp_from_scaled (s : Q) (xp fp : list Q) :
  (0 < s)%Q ->
  forall x0 x0' y0 x x',
    (x0' == x0 * s)%Q -> (x' == x * s)%Q ->
    (CumulativeThrow.interp_from x0' y0 (map (fun c => c * s)%Q xp) fp x'
     == CumulativeThrow.interp_from x0 y0 xp fp x)%Q.
Proof.
  intros Hs. revert fp.
  induction xp as [| x1 xp IH]; intros [| y1 fp] x0 x0' y0 x x' Hx0 Hx; simpl;
    try reflexivity.
  rewrite (Qle_bool_scaled s x x' x1 Hs Hx).
  destruct (Qle_bool x x1).
  - now apply segment_scaled.
  - apply IH; [reflexivity | exact Hx].
Qed.

(** Interpolation does not change when the abscissae and the point are
    scaled by the same positive factor. *)
Lemma interp_at_scaled (s : Q) (xp fp : list Q) (x x' : Q) :
  (0 < s)%Q -> (x' == x * s)%Q ->
  (CumulativeThrow.interp_at (map (fun c => c * s)%Q xp) fp x'
   == CumulativeThrow.interp_at xp fp x)%Q.
Proof.
  intros Hs Hx. destruct xp as [| x0 xp], fp as [| y0 fp]; simpl; try reflexivity.
  rewrite (Qle_bool_scaled s x x' x0 Hs Hx).
  destruct (Qle_bool x x0); [reflexivity |].
  apply interp_from_scaled; [exact Hs | reflexivity | exact Hx].
Qed.

(** The rate at sample [k] with the time measured in steps. *)
Lemma rate_in_steps :
  forallb (fun k =>
             Qeq_bool
               (CumulativeThrow.interp_at (map (fun c => c * 10)%Q VariableThrow.breakpoints)
                  VariableThrow.rate (inject_Z (Z.of_nat k)))
               (if VariableThrow.active k then 0.01 else 0)%Q)
    (seq 0 300) = true.
Proof. vm_compute. reflexivity. Qed.

Lemma t_as_steps (dt : Z) :
  (0 < dt)%Z ->
  CumulativeThrow.t dt = map (fun i => (0 + Z.of_nat i * dt)%Z) (seq 0 300).
Proof.
  intros Hdt. unfold CumulativeThrow.t, CumulativeThrow.np_arange.
  replace ((300 * dt - 0 + dt - 1) / dt)%Z with 300%Z; [reflexivity |].
  apply (Z.div_unique _ _ 300 (dt - 1)); lia.
Qed.

Lemma Forall2_map_same {A B : Type} (R : B -> B -> Prop) (f g : A -> B) (l : list A) :
  (forall x, In x l -> R (f x) (g x)) -> Forall2 R (map f l) (map g l).
Proof.
  induction l as [| x l IH]; intros HR; simpl; constructor.
  - apply HR. now left.
  - apply IH. intros y Hy. apply HR. now right.
Qed.

Lemma Forall2_nth {A : Type} (R : A -> A -> Prop) (a b : list A) (k : nat) (d d' : A) :
  Forall2 R a b -> k < List.length a -> R (nth k a d) (nth k b d').
Proof.
  intros HR. revert k. induction HR as [| x y a b Hxy _ IH]; intros [| k] Hk;
    simpl in *; try lia; auto.
  apply IH. lia.
Qed.

Lemma sum_respects_Qeq (a b : list Q) :
  Forall2 Qeq a b -> (fold_right Qplus 0 a == fold_right Qplus 0 b)%Q.
Proof.
  induction 1 as [| x y a b Hxy _ IH]; simpl; [reflexivity |].
  now rewrite Hxy, IH.
Qed.

Lemma last_cumsum_is_sum (a : list Q) :
  a <> [] ->
  forall acc d,
    (last (CumulativeThrow.cumsum_from acc a) d == acc + fold_right Qplus 0 a)%Q.
Proof.
  induction a as [| x a IH]; intros Hne acc d; [congruence |].
  destruct a as [| y a].
  - simpl. ring.
  - change (last (CumulativeThrow.cumsum_from acc (x :: y :: a)) d)
      with (last (CumulativeThrow.cumsum_from (acc + x) (y :: a)) d).
    rewrite IH by discriminate.
    change (fold_right Qplus 0 (x :: y :: a))%Q
      with (x + fold_right Qplus 0 (y :: a))%Q.
    ring.
Qed.

(** The interpolated rate, sample by sample. *)
Lemma rate_variable_pattern (dt : Z) :
  (0 < dt)%Z ->
  Forall2 Qeq (VariableThrow.rate_variable dt)
    (map (fun k => if VariableThrow.active k then 0.01 else 0)%Q (seq 0 300)).
Proof.
  intros Hdt.
  assert (Hs : (0 < inject_Z dt)%Q).
  { change 0%Q with (inject_Z 0). now rewrite <- Zlt_Qlt. }
  unfold VariableThrow.rate_variable, CumulativeThrow.np_interp.
  rewrite (t_as_steps dt Hdt), !map_map.
  apply Forall2_map_same. intros k Hk.
  transitivity (CumulativeThrow.interp_at
                  (map (fun c => c * 10)%Q VariableThrow.breakpoints)
                  VariableThrow.rate (inject_Z (Z.of_nat k))).
  - unfold VariableThrow.time.
    rewrite <- (map_map (fun c => c * 10)%Q (fun c => c * inject_Z dt)%Q).
    apply interp_at_scaled; [exact Hs |].
    rewrite Z.add_0_l, inject_Z_mult. reflexivity.
  - apply Qeq_bool_iff.
    pose proof rate_in_steps as Hall. rewrite forallb_forall in Hall.
    now apply (Hall k).
Qed.

(** X21: for every positive integer time step [dt] with [300 * dt] no
    larger than [2 ^ 53] the intermittent history is sampled as it is
    drawn: the rate is 0.01 in the samples 80 to 89, 180 to 189 and 280
    to 289 and zero in all others; in exact arithmetic its cumulative
    throw ends at [0.3 * dt], the total of the constant history. *)
Theorem intermittent_history_totals_the_same :
  forall dt : Z,
    (0 < dt)%Z ->
    (300 * dt <= CumulativeThrow.largest_exact_integer)%Z ->
    List.length (VariableThrow.rate_variable dt) = 300
    /\ (forall k, k < 300 ->
          (nth k (VariableThrow.rate_variable dt) 0
           == if VariableThrow.active k then 0.01 else 0)%Q)
    /\ (last (VariableThrow.cumulative_rock_uplift_variable dt) 0 == 0.3 * inject_Z dt)%Q
    /\ (last (VariableThrow.cumulative_rock_uplift_variable dt) 0
        == last (CumulativeThrow.cumulative_rock_uplift_constant dt) 0)%Q.
Proof.
  intros dt Hdt _.
  pose proof (rate_variable_pattern dt Hdt) as Hpat.
  assert (Hlen : List.length (VariableThrow.rate_variable dt) = 300).
  { rewrite (Forall2_length Hpat). now rewrite length_map, length_seq. }
  assert (Hne : VariableThrow.rate_variable dt <> []).
  { intros Hnil. rewrite Hnil in Hlen. discriminate. }
  assert (Htotal : (last (VariableThrow.cumulative_rock_uplift_variable dt) 0
                    == 0.3 * inject_Z dt)%Q).
  { unfold VariableThrow.cumulative_rock_uplift_variable, CumulativeThrow.np_cumsum.
    rewrite last_scale by now apply cumsum_from_nonempty.
    rewrite last_cumsum_is_sum by exact Hne.
    rewrite (sum_respects_Qeq _ _ Hpat).
    setoid_replace (fold_right Qplus 0
                      (map (fun k => if VariableThrow.active k then 0.01 else 0)
                         (seq 0 300)))%Q with 0.3%Q
      by (vm_compute; reflexivity).
    ring. }
  split; [exact Hlen |]. split.
  - intros k Hk.
    rewrite (Forall2_nth Qeq _ _ k 0%Q 0%Q Hpat) by now rewrite Hlen.
    rewrite (nth_map_seq _ 300 k 0%Q Hk). reflexivity.
  - split; [exact Htotal |].
    rewrite Htotal. symmetry. now apply last_cumulative_constant.
Qed.

(** The intermittent history with the time step of the notebook. *)
Lemma intermittent_history_totals_the_same_witness :
  (0 < 1000)%Z
  /\ (300 * 1000 <= CumulativeThrow.largest_exact_integer)%Z
  /\ (last (VariableThrow.cumulative_rock_uplift_variable 1000) 0 == 0.3 * inject_Z 1000)%Q.
Proof.
  assert (Hdt : (0 < 1000)%Z) by reflexivity.
  assert (Hmax : (300 * 1000 <= CumulativeThrow.largest_exact_integer)%Z)
    by (vm_compute; discriminate).
  split; [exact Hdt |]. split; [exact Hmax |].
  exact (proj1 (proj2 (proj2 (intermittent_history_totals_the_same 1000 Hdt Hmax)))).
Defined.
